(** * Catchment aggregation of the Koramangala population scripts

    A shallow embedding of the raster-vector catchment code of
    [scripts/09_add_worldpop_data.py] and [scripts/11_worldpop_population.py].

    Conventions of the embedding.
    - A Python [float] is a [pyfloat]: [NaN], [PInf] or a finite value,
      a rational kept in lowest terms ([Qred]); [np_pi] is the rational
      value of the double [numpy.pi].
    - A float that the scripts pass to [int()] is computed in binary64,
      operation by operation ([b64] rounds each result to the nearest
      double, ties to even): the cell index under a point, the number of
      buffer cells and the fallback estimate. Truncation is sensitive to
      the last bit, so these are not idealised. The exponent range is not
      modelled: overflow and underflow are out of reach of the
      magnitudes the scripts handle, and the theorems that depend on it
      bound the radius. [x ** 2] is taken as the correctly rounded square.
    - Floats that are only stored or summed (population totals,
      densities, coordinates) are kept as exact rationals.
    - Python [int] is [Z]; [int(x)] on a float is truncation toward zero.
    - A Python [dict] with string keys is an association list that keeps
      insertion order ([dict_set] overwrites in place, as Python does).
    - A numpy masked array is a list of rows of [mcell] (raw value and mask
      bit); the numpy.ma operations used by the scripts are spelled out in
      [Module Ma].
    - shapely, pyproj and the rasteriser of rasterio are third-party code.
      They are reached through the interface [GeoLib]; the repository
      functions are written against it. *)

From Stdlib Require Import ZArith QArith Qround Qpower List String Bool Lia Lqa Qfield.
From Stdlib Require Import DecimalString DecimalZ.
Import ListNotations.

Local Open Scope Z_scope.

(* ================================================================== *)
(** ** Python values *)

Inductive pyfloat : Type :=
| NaN
| PInf
| Fin (q : Q).

Definition isnan (f : pyfloat) : bool :=
  match f with NaN => true | _ => false end.

(** [a + b] on floats. *)
Definition fadd (a b : pyfloat) : pyfloat :=
  match a, b with
  | NaN, _ | _, NaN => NaN
  | PInf, _ | _, PInf => PInf
  | Fin x, Fin y => Fin (Qred (x + y))
  end.

(** [a / b] of a numpy scalar [a] by a float [b]. The callers divide a
    positive [a], for which a zero divisor gives [inf] (with a warning,
    not an exception), or divide by a positive count. *)
Definition fdiv_np (a : pyfloat) (b : Q) : pyfloat :=
  match a with
  | NaN => NaN
  | PInf => PInf
  | Fin x =>
      if Qeq_bool b 0
      then (if Qeq_bool x 0 then NaN else PInf)
      else Fin (Qred (x / b))
  end.

(** [f > 0]; every comparison with [nan] is [False]. *)
Definition fgt0 (f : pyfloat) : bool :=
  match f with
  | NaN => false
  | PInf => true
  | Fin q => negb (Qle_bool q 0)
  end.

(** [a >= b] on floats, as Python evaluates it. *)
Definition fge (a b : pyfloat) : bool :=
  match a, b with
  | NaN, _ | _, NaN => false
  | PInf, _ => true
  | Fin _, PInf => false
  | Fin x, Fin y => Qle_bool y x
  end.

(** Equality of floats up to the representation of the rational. *)
Definition feq (a b : pyfloat) : Prop :=
  match a, b with
  | NaN, NaN => True
  | PInf, PInf => True
  | Fin x, Fin y => (x == y)%Q
  | _, _ => False
  end.

(** [int(q)] for a finite float: truncation toward zero. *)
Definition py_int (q : Q) : Z :=
  if Qle_bool 0 q then Qfloor q else Qceiling q.

(** The double [numpy.pi], 0x400921FB54442D18. *)
Definition np_pi : Q := 884279719003555 # 281474976710656.

(** *** Binary64 arithmetic *)

(** Rounding to the nearest integer, ties to even. *)
Definition round_ties_even (q : Q) : Z :=
  let fl := Qfloor q in
  match Qcompare (q - inject_Z fl) (1 # 2) with
  | Lt => fl
  | Gt => fl + 1
  | Eq => if Z.even fl then fl else fl + 1
  end.

(** The binary64 number nearest to a positive rational [x], ties to
    even: [x] is scaled by a power of two into [2^52, 2^53), rounded to
    an integer and scaled back. *)
Definition b64_pos (x : Q) : Q :=
  let e0 := Z.log2 (Qnum x) - Z.log2 (Zpos (Qden x)) - 53 in
  let e := if Qle_bool (2 ^ 53) (x / 2 ^ e0) then e0 + 1 else e0 in
  (inject_Z (round_ties_even (x / 2 ^ e)) * 2 ^ e)%Q.

Definition b64 (x : Q) : Q :=
  match Qcompare x 0 with
  | Eq => 0%Q
  | Gt => Qred (b64_pos x)
  | Lt => Qred (- b64_pos (- x))
  end.

Arguments b64 x : simpl never.

(** Half a unit in the last place, relative to the value: [2^-53]. *)
Definition ulp_half : Q := 1 # (2 ^ 53).

(** The factors by which [n] roundings can shrink or stretch a value
    that is not negative. *)
Fixpoint rel_lo (n : nat) : Q :=
  match n with O => 1 | S n' => rel_lo n' * (1 - ulp_half) end.
Fixpoint rel_hi (n : nat) : Q :=
  match n with O => 1 | S n' => rel_hi n' * (1 + ulp_half) end.

(** [x] is the value [y] (not negative) after at most [n] roundings:
    [y (1 - 2^-53)^n <= x <= y (1 + 2^-53)^n]. *)
Definition within (n : nat) (x y : Q) : Prop :=
  (0 <= y /\ y * rel_lo n <= x <= y * rel_hi n)%Q.

(** A relative error that covers nine roundings: [2^-49]. *)
Definition tolerance : Q := 1 # (2 ^ 49).

Inductive value : Type :=
| VInt (z : Z)
| VFloat (f : pyfloat)
| VStr (s : string)
| VInts (l : list Z).

(** A dict with string keys, in insertion order. *)
Definition dict (V : Type) : Type := list (string * V).

Fixpoint dict_get {V : Type} (k : string) (d : dict V) : option V :=
  match d with
  | [] => None
  | (k', v) :: d' => if String.eqb k k' then Some v else dict_get k d'
  end.

Fixpoint dict_set {V : Type} (k : string) (v : V) (d : dict V) : dict V :=
  match d with
  | [] => [(k, v)]
  | (k', v') :: d' =>
      if String.eqb k k' then (k, v) :: d' else (k', v') :: dict_set k v d'
  end.

(** [d.get(k, default)] *)
Definition dict_get_default {V : Type} (k : string) (default : V) (d : dict V) : V :=
  match dict_get k d with Some v => v | None => default end.

Definition keys {V : Type} (d : dict V) : list string := map fst d.

(** A result row: a dict from column name to value. *)
Definition record : Type := dict value.

(** Every element must be present; [None] propagates a raised exception. *)
Fixpoint all_some {A : Type} (l : list (option A)) : option (list A) :=
  match l with
  | [] => Some []
  | None :: _ => None
  | Some x :: l' =>
      match all_some l' with
      | None => None
      | Some xs => Some (x :: xs)
      end
  end.

(** [str(z)] for an int. *)
Definition str_of_int (z : Z) : string := NilZero.string_of_int (Z.to_int z).

(** Python slice bounds: a negative bound counts from the end, and both
    bounds are clamped to the length. *)
Definition slice_index (i len : Z) : nat :=
  Z.to_nat (if i <? 0 then Z.max 0 (i + len) else Z.min i len).

(** [l[lo:hi]] *)
Definition py_slice {A : Type} (lo hi : Z) (l : list A) : list A :=
  let n := Z.of_nat (List.length l) in
  let lo' := slice_index lo n in
  let hi' := slice_index hi n in
  firstn (hi' - lo') (skipn lo' l).

(* ================================================================== *)
(** ** numpy.ma *)

Module Ma.

(** One element of a masked array: the underlying datum and its mask. *)
Record mcell : Type := MCell { raw : pyfloat; msk : bool }.

(** A 0-d result: the constant [numpy.ma.masked] or a plain number. *)
Inductive scalar : Type :=
| Masked
| Scalar (f : pyfloat).

(** A two-dimensional masked array, row-major. *)
Definition marray : Type := list (list mcell).

Definition shape0 (a : marray) : Z := Z.of_nat (List.length a).
Definition shape1 (a : marray) : Z := Z.of_nat (List.length (hd [] a)).

(** Every row has [shape1] elements, as in any numpy array. *)
Definition rectangular (a : marray) : Prop :=
  Forall (fun r => Z.of_nat (List.length r) = shape1 a) a.

(** [a[row, col]] for indices already known to be non-negative;
    [None] is an [IndexError]. *)
Definition getitem (a : marray) (row col : Z) : option scalar :=
  match nth_error a (Z.to_nat row) with
  | None => None
  | Some r =>
      match nth_error r (Z.to_nat col) with
      | None => None
      | Some c => Some (if msk c then Masked else Scalar (raw c))
      end
  end.

(** Truth value of [np.isnan(s)]: [np.isnan(masked)] is [masked], whose
    truth value is [False]. *)
Definition scalar_isnan (s : scalar) : bool :=
  match s with
  | Masked => false
  | Scalar f => isnan f
  end.

(** [float(s)]: a masked element converts to [nan] (with a warning). *)
Definition py_float (s : scalar) : pyfloat :=
  match s with
  | Masked => NaN
  | Scalar f => f
  end.

(** [a[r_min:r_max, c_min:c_max]] *)
Definition slice2 (r_min r_max c_min c_max : Z) (a : marray) : marray :=
  map (py_slice c_min c_max) (py_slice r_min r_max a).

(** [a[~np.isnan(a)]]: boolean indexing flattens the array; the index is
    computed on the underlying data, so masked elements whose datum is
    not [nan] are selected too and stay masked. *)
Definition not_nan (c : mcell) : bool := negb (isnan (raw c)).
Definition select_not_nan (a : marray) : list mcell :=
  filter not_nan (List.concat a).

Definition filled0 (c : mcell) : pyfloat :=
  if msk c then Fin 0 else raw c.

(** [MaskedArray.sum()]: [self.filled(0).sum()], replaced by [masked]
    when every element is masked. *)
Definition ma_sum (l : list mcell) : scalar :=
  if forallb msk l then Masked
  else Scalar (fold_left fadd (map filled0 l) (Fin 0)).

(** The cells that carry a measured value: unmasked and not [nan]. *)
Definition valid (c : mcell) : bool := negb (msk c) && not_nan c.

(** The sum of the values of exactly the valid cells. *)
Definition valid_sum (l : list mcell) : pyfloat :=
  fold_left fadd (map raw (filter valid l)) (Fin 0).

(** What a cell adds to a sum of valid cells, as a rational. *)
Definition cell_value (c : mcell) : Q :=
  if valid c then match raw c with Fin q => q | _ => 0%Q end else 0%Q.

Definition qsum (l : list Q) : Q := fold_right Qplus 0%Q l.

End Ma.
Import Ma.

(* ================================================================== *)
(** ** rasterio's affine transform *)

Module Affine.

(** [x = a*col + b*row + c], [y = d*col + e*row + f]. *)
Record t : Type := Make { a : Q; b : Q; c : Q; d : Q; e : Q; f : Q }.

(** The package [affine] computes in binary64; the three definitions
    below follow its formulas operation by operation. *)

(** [m.determinant]: [a * e - b * d]. *)
Definition determinant (m : t) : Q :=
  b64 (b64 (a m * e m) - b64 (b m * d m)).

(** [~m]; [None] when the transform is degenerate ([determinant == 0]).
    [idet = 1.0 / determinant], [ra = e * idet], [rb = -b * idet],
    [rd = -d * idet], [re = a * idet], and the offsets are
    [-c * ra - f * rb] and [-c * rd - f * re]. *)
Definition inverse (m : t) : option t :=
  let det := determinant m in
  if Qeq_bool det 0 then None
  else
    let idet := b64 (1 / det) in
    let ra := b64 (e m * idet) in
    let rb := b64 (- b m * idet) in
    let rd := b64 (- d m * idet) in
    let re := b64 (a m * idet) in
    Some (Make ra rb (b64 (b64 (- c m * ra) - b64 (f m * rb)))
               rd re (b64 (b64 (- c m * rd) - b64 (f m * re)))).

(** [m * (x, y)]: [(vx * a + vy * b + c, vx * d + vy * e + f)]. *)
Definition apply (m : t) (p : Q * Q) : Q * Q :=
  let '(vx, vy) := p in
  (b64 (b64 (b64 (vx * a m) + b64 (vy * b m)) + c m),
   b64 (b64 (b64 (vx * d m) + b64 (vy * e m)) + f m)).

(** The same two maps in exact arithmetic, for the sample geometry
    library below. *)
Definition exact_inverse (m : t) : option t :=
  let idet := (a m * e m - b m * d m)%Q in
  if Qeq_bool idet 0 then None
  else
    let ra := (e m / idet)%Q in
    let rb := (- b m / idet)%Q in
    let rd := (- d m / idet)%Q in
    let re := (a m / idet)%Q in
    Some (Make ra rb (- c m * ra - f m * rb) rd re (- c m * rd - f m * re))%Q.

Definition exact_apply (m : t) (p : Q * Q) : Q * Q :=
  let '(vx, vy) := p in
  (Qred (vx * a m + vy * b m + c m), Qred (vx * d m + vy * e m + f m))%Q.

End Affine.

(* ================================================================== *)
(** ** Vector features *)

Inductive Geometry : Type :=
| Point (x y : Q)
| Polygon (exterior : list (Q * Q)).

(** One row of a (Geo)DataFrame: its index label, its attribute columns
    and its geometry ([None] for a missing geometry). *)
Record Row : Type := MkRow {
  idx : Z;
  attrs : record;
  geometry : option Geometry
}.

(** A GeoDataFrame: the rows and the declared reference system (an EPSG
    code), if any. *)
Record GeoDataFrame : Type := MkGdf {
  crs : option Z;
  rows : list Row
}.

(* ================================================================== *)
(** ** The raster dataset and the third-party geometry interface *)

(** An open rasterio dataset with one band. *)
Record RasterGrid : Type := MkRaster {
  band : list (list pyfloat);
  nodata : option pyfloat;
  transform : Affine.t
}.

(** A pixel window of a dataset. *)
Record Window : Type := MkWindow {
  row_off : nat;
  col_off : nat;
  height : nat;
  width : nat
}.

(** shapely, pyproj and rasterio.features, as the scripts call them.
    - [centroid g]: [(g.centroid.x, g.centroid.y)]; [None] for an empty
      shape, on whose centroid [.x] and [.y] raise.
    - [buffer g d]: [g.buffer(d)].
    - [reproject s t g]: the geometry of [g] after [to_crs] from EPSG code
      [s] to EPSG code [t].
    - [geometry_window src g]: the pixel window of the bounds of [g]
      clipped to the dataset; [None] when they do not overlap
      (rasterio's [WindowError]).
    - [geometry_mask src g r c]: [True] when pixel [(r, c)] of the dataset
      lies outside the shape [g] (its centre is not inside).
    - [window_not_empty]: a shape that has a window on a dataset is not
      empty, so it has a centroid. *)
Class GeoLib : Type := {
  centroid : Geometry -> option (Q * Q);
  buffer : Geometry -> Z -> Geometry;
  reproject : Z -> Z -> Geometry -> Geometry;
  geometry_window : RasterGrid -> Geometry -> option Window;
  geometry_mask : RasterGrid -> Geometry -> nat -> nat -> bool;
  window_not_empty :
    forall src g w, geometry_window src g = Some w -> centroid g <> None
}.

(** The mask of [dataset.read(masked=True)]: the datum is the declared
    no-data value. *)
Definition is_nodata (nd : option pyfloat) (v : pyfloat) : bool :=
  match nd, v with
  | None, _ => false
  | Some NaN, NaN => true
  | Some PInf, PInf => true
  | Some (Fin n), Fin q => Qeq_bool q n
  | _, _ => false
  end.

Definition read_cell `{GeoLib} (src : RasterGrid) (g : Geometry) (r c : nat)
  : option mcell :=
  match nth_error (band src) r with
  | None => None
  | Some rw =>
      match nth_error rw c with
      | None => None
      | Some v =>
          Some (MCell v (is_nodata (nodata src) v || geometry_mask src g r c))
      end
  end.

(** [mask(src, [g], crop=True, filled=False)[0][0]]: the band read over
    the window of [g], masked where the datum is no-data or the pixel is
    outside [g]. [None] is the [ValueError] raised when the shape does not
    overlap the raster (or any failure of the read). *)
Definition rasterio_mask `{GeoLib} (src : RasterGrid) (g : Geometry)
  : option marray :=
  match geometry_window src g with
  | None => None
  | Some w =>
      all_some
        (map (fun r =>
                all_some (map (read_cell src g r) (seq (col_off w) (width w))))
             (seq (row_off w) (height w)))
  end.

(** *** Vocabulary for statements about buffers and windows *)

(** The pixels of a window, row by row. *)
Definition window_cells (w : Window) : list (nat * nat) :=
  list_prod (seq (row_off w) (height w)) (seq (col_off w) (width w)).

(** The datum of pixel [(r, c)], when the dataset has such a pixel. *)
Definition band_value (src : RasterGrid) (r c : nat) : option pyfloat :=
  match nth_error (band src) r with
  | Some rw => nth_error rw c
  | None => None
  end.

(** Every datum is the no-data value, [nan], or finite and not negative. *)
Definition no_negative_values (src : RasterGrid) : Prop :=
  forall r c v, band_value src r c = Some v ->
    is_nodata (nodata src) v = true \/ v = NaN \/
    exists q, v = Fin q /\ (0 <= q)%Q.

(** Every pixel inside [g1] is inside [g2]. *)
Definition nested_in `{GeoLib} (src : RasterGrid) (g1 g2 : Geometry) : Prop :=
  forall r c v, band_value src r c = Some v ->
    geometry_mask src g1 r c = false -> geometry_mask src g2 r c = false.

(** The window of [g] holds every pixel of the dataset inside [g]. *)
Definition window_bounds_shape `{GeoLib} (src : RasterGrid) (g : Geometry)
  : Prop :=
  forall w r c v,
    geometry_window src g = Some w ->
    band_value src r c = Some v ->
    geometry_mask src g r c = false ->
    In (r, c) (window_cells w).

(** What pixel [rc] adds to the sum over the buffer [g]. *)
Definition value_at `{GeoLib} (src : RasterGrid) (g : Geometry)
           (rc : nat * nat) : Q :=
  match read_cell src g (fst rc) (snd rc) with
  | Some c => cell_value c
  | None => 0%Q
  end.

(* ================================================================== *)
(** ** scripts/09_add_worldpop_data.py *)

Module Script09.

(** One entry of [clipped_data]. *)
Record DataInfo : Type := MkInfo {
  data : marray;
  info_transform : Affine.t;
  resolution : Q * Q
}.

Definition at_location_key (dataset_name : string) : string :=
  (dataset_name ++ "_at_location")%string.
Definition in_buffer_key (dataset_name : string) : string :=
  (dataset_name ++ "_in_buffer")%string.

(** [0 <= row < data.shape[0] and 0 <= col < data.shape[1]] *)
Definition in_extent (data : marray) (row col : Z) : bool :=
  (0 <=? row) && (row <? shape0 data) && (0 <=? col) && (col <? shape1 data).

(** [max(1, int(0.002 / resolution))], the quotient in binary64; the
    caller has excluded a zero resolution, which raises
    [ZeroDivisionError]. *)
Definition buffer_cells_of (resolution : Q) : Z :=
  Z.max 1 (py_int (b64 (b64 (2 # 1000) / resolution))).

(** [(r_min, r_max, c_min, c_max)] of lines 276-279. *)
Definition window_bounds (data : marray) (row col buffer_cells : Z)
  : Z * Z * Z * Z :=
  let r_min := Z.max 0 (row - buffer_cells) in
  let r_max := Z.min (shape0 data) (row + buffer_cells + 1) in
  let c_min := Z.max 0 (col - buffer_cells) in
  let c_max := Z.min (shape1 data) (col + buffer_cells + 1) in
  (r_min, r_max, c_min, c_max).

(** [np.sum(buffer_data[~np.isnan(buffer_data)])] over the window. *)
Definition buffer_sum (data : marray) (row col buffer_cells : Z) : scalar :=
  let '(r_min, r_max, c_min, c_max) := window_bounds data row col buffer_cells in
  ma_sum (select_not_nan (slice2 r_min r_max c_min c_max data)).

(** Line 259: [~transform * (poi_x, poi_y)], the fractional [(col, row)]
    of the point; [None] when the transform cannot be inverted. *)
Definition pixel_coordinates (data_info : DataInfo) (poi_x poi_y : Q)
  : option (Q * Q) :=
  match Affine.inverse (info_transform data_info) with
  | None => None
  | Some inv => Some (Affine.apply inv (poi_x, poi_y))
  end.

(** Lines 258-260: [(col, row)] of the cell under the point, [int()] of
    the fractional index. *)
Definition pixel_index (data_info : DataInfo) (poi_x poi_y : Q)
  : option (Z * Z) :=
  match pixel_coordinates data_info poi_x poi_y with
  | None => None
  | Some (col, row) => Some (py_int col, py_int row)
  end.

(** The body of the [try] of lines 257-286 for one dataset; the boolean
    is [false] when an exception left the block, with the dict as the
    block had updated it by then. *)
Definition sample_dataset (poi_x poi_y : Q) (dataset_name : string)
           (data_info : DataInfo) (poi_data : record) : record * bool :=
  match pixel_index data_info poi_x poi_y with
  | None => (poi_data, false)
  | Some (col, row) =>
      let data := data data_info in
      if in_extent data row col then
        match getitem data row col with
        | None => (poi_data, false)
        | Some pop_value =>
            let pop_value :=
              if scalar_isnan pop_value then Scalar (Fin 0) else pop_value in
            let poi_data :=
              dict_set (at_location_key dataset_name)
                       (VFloat (py_float pop_value)) poi_data in
            let resolution := fst (resolution data_info) in
            if Qeq_bool resolution 0 then (poi_data, false)
            else
              let buffer_cells := buffer_cells_of resolution in
              let s := buffer_sum data row col buffer_cells in
              (dict_set (in_buffer_key dataset_name)
                        (VFloat (py_float s)) poi_data, true)
        end
      else
        (dict_set (in_buffer_key dataset_name) (VFloat (Fin 0))
           (dict_set (at_location_key dataset_name) (VFloat (Fin 0)) poi_data),
         true)
  end.

(** One iteration of the loop over [clipped_data], [except] included. *)
Definition extract_dataset (poi_x poi_y : Q) (poi_data : record)
           (entry : string * DataInfo) : record :=
  let '(dataset_name, data_info) := entry in
  let '(poi_data', ok) :=
    sample_dataset poi_x poi_y dataset_name data_info poi_data in
  if ok then poi_data'
  else
    dict_set (in_buffer_key dataset_name) (VFloat (Fin 0))
      (dict_set (at_location_key dataset_name) (VFloat (Fin 0)) poi_data').

(** Lines 241-245: the point itself, the centroid of anything else;
    [None] when the shape is empty and [centroid.x] raises. *)
Definition poi_coordinates `{GeoLib} (g : Geometry) : option (Q * Q) :=
  match g with
  | Point x y => Some (x, y)
  | _ => centroid g
  end.

(** One iteration of the loop over the POIs; [None] when the row has no
    geometry ([AttributeError]) or an empty one: neither is caught. *)
Definition poi_record `{GeoLib} (clipped_data : dict DataInfo) (poi : Row)
  : option record :=
  match geometry poi with
  | None => None
  | Some g =>
      match poi_coordinates g with
      | None => None
      | Some (poi_x, poi_y) =>
          let poi_data :=
            [ ("poi_id", VInt (idx poi));
              ("poi_name",
               dict_get_default "name" (VStr "Unknown") (attrs poi));
              ("poi_category",
               dict_get_default "category" (VStr "Unknown") (attrs poi));
              ("latitude", VFloat (Fin poi_y));
              ("longitude", VFloat (Fin poi_x)) ]%string in
          Some (fold_left (extract_dataset poi_x poi_y) clipped_data poi_data)
      end
  end.

(** [create_poi_population_analysis], with the POI table it reads given
    as [pois]. The outer [option] is an uncaught exception, the inner
    one the [return None] of line 232. *)
Definition create_poi_population_analysis `{GeoLib}
           (pois : GeoDataFrame) (clipped_data : dict DataInfo)
  : option (option (list record)) :=
  match clipped_data with
  | [] => Some None
  | _ =>
      match all_some (map (poi_record clipped_data) (rows pois)) with
      | None => None
      | Some rs => Some (Some rs)
      end
  end.

End Script09.

(* ================================================================== *)
(** ** scripts/11_worldpop_population.py *)

Module Script11.

Definition EPSG_4326 : Z := 4326.
Definition EPSG_32643 : Z := 32643.

(** [gdf.to_crs(target)]; [None] is the [ValueError] raised for a frame
    without a reference system. *)
Definition to_crs `{GeoLib} (target : Z) (gdf : GeoDataFrame)
  : option GeoDataFrame :=
  match crs gdf with
  | None => None
  | Some source =>
      Some (MkGdf (Some target)
              (map (fun r =>
                      MkRow (idx r) (attrs r)
                            (option_map (reproject source target) (geometry r)))
                   (rows gdf)))
  end.

(** [f'buffer_{distance}m'] *)
Definition buffer_name (distance : Z) : string :=
  ("buffer_" ++ str_of_int distance ++ "m")%string.

(** [buffers['poi_id'] = range(len(buffers))] *)
Fixpoint set_poi_ids (i : Z) (rs : list Row) : list Row :=
  match rs with
  | [] => []
  | r :: rs' =>
      MkRow (idx r) (dict_set "poi_id" (VInt i) (attrs r)) (geometry r)
      :: set_poi_ids (i + 1) rs'
  end.

(** The body of the loop of [create_buffer_zones] for one distance. *)
Definition buffers_for `{GeoLib} (pois_utm : GeoDataFrame) (distance : Z)
  : option GeoDataFrame :=
  let buffers :=
    MkGdf (crs pois_utm)
          (map (fun r =>
                  MkRow (idx r) (attrs r)
                        (option_map (fun g => buffer g distance) (geometry r)))
               (rows pois_utm)) in
  match to_crs EPSG_4326 buffers with
  | None => None
  | Some buffers =>
      let with_distance :=
        map (fun r =>
               MkRow (idx r)
                     (dict_set "buffer_distance" (VInt distance) (attrs r))
                     (geometry r))
            (rows buffers) in
      Some (MkGdf (crs buffers) (set_poi_ids 0 with_distance))
  end.

Fixpoint buffer_loop `{GeoLib} (pois_utm : GeoDataFrame)
         (buffer_distances : list Z) (buffer_results : dict GeoDataFrame)
  : option (dict GeoDataFrame) :=
  match buffer_distances with
  | [] => Some buffer_results
  | distance :: rest =>
      match buffers_for pois_utm distance with
      | None => None
      | Some buffers =>
          buffer_loop pois_utm rest
                      (dict_set (buffer_name distance) buffers buffer_results)
      end
  end.

(** [create_buffer_zones]; [None] is a raised exception. *)
Definition create_buffer_zones `{GeoLib} (pois : GeoDataFrame)
           (buffer_distances : list Z) : option (dict GeoDataFrame) :=
  match to_crs EPSG_32643 pois with
  | None => None
  | Some pois_utm => buffer_loop pois_utm buffer_distances []
  end.

(** A numeric column value as a rational; [None] for anything that is
    not a finite number. *)
Definition num_of_value (v : value) : option Q :=
  match v with
  | VInt z => Some (inject_Z z)
  | VFloat (Fin q) => Some q
  | _ => None
  end.

(** Lines 206-207: the sum of the window of one buffer. *)
Definition total_population_of (clipped : marray) : scalar :=
  let valid_data := select_not_nan clipped in
  if (0 <? Z.of_nat (List.length valid_data)) then ma_sum valid_data
  else Scalar (Fin 0).

(** [np.pi * (d**2) / 10000], the buffer area in hectares. *)
Definition hectares (d : Q) : Q := (np_pi * (d * d) / 10000)%Q.

(** Line 217. [total_population > 0] is false for [masked] and for
    [nan]; [None] is the [TypeError] of a distance that is not a
    (finite) number. *)
Definition population_density_of (total_population : scalar)
           (buffer_distance : value) : option value :=
  if fgt0 (py_float total_population) then
    match num_of_value buffer_distance with
    | None => None
    | Some d =>
        Some (VFloat (fdiv_np (py_float total_population) (hectares d)))
    end
  else Some (VInt 0).

(** The body of the inner [try], lines 201-218; [None] when it raises. *)
Definition measure_buffer `{GeoLib} (src : RasterGrid) (row : Row)
  : option record :=
  match geometry row with
  | None => None
  | Some g =>
      match rasterio_mask src g with
      | None => None
      | Some clipped =>
          let total_population := total_population_of clipped in
          match dict_get "buffer_distance" (attrs row) with
          | None => None
          | Some distance =>
              match centroid g with
              | None => None
              | Some (x, y) =>
                  match population_density_of total_population distance with
                  | None => None
                  | Some density =>
                      Some [ ("poi_id", VInt (idx row));
                             ("poi_name",
                              dict_get_default "name" (VStr "Unknown")
                                               (attrs row));
                             ("poi_category",
                              dict_get_default "category" (VStr "Unknown")
                                               (attrs row));
                             ("buffer_distance", distance);
                             ("latitude", VFloat (Fin y));
                             ("longitude", VFloat (Fin x));
                             ("population_total",
                              VFloat (py_float total_population));
                             ("population_density", density) ]%string
                  end
              end
          end
      end
  end.

(** [row.geometry.centroid.y if hasattr(row.geometry, 'centroid') else 0]
    and its sibling for [x], lines 227-228, as [(lat, lon)]: 0 for a
    missing geometry, and [None] for an empty one, on which
    [centroid.y] raises. *)
Definition handler_lat_lon `{GeoLib} (row : Row) : option (value * value) :=
  match geometry row with
  | None => Some (VInt 0, VInt 0)
  | Some g =>
      match centroid g with
      | None => None
      | Some (x, y) => Some (VFloat (Fin y), VFloat (Fin x))
      end
  end.

(** The [except] handler, lines 220-231; [None] when the handler itself
    raises: [KeyError] for a missing [buffer_distance], or the centroid
    of an empty geometry. *)
Definition failed_buffer `{GeoLib} (row : Row) : option record :=
  match dict_get "buffer_distance" (attrs row) with
  | None => None
  | Some distance =>
      match handler_lat_lon row with
      | None => None
      | Some (lat, lon) =>
          Some [ ("poi_id", VInt (idx row));
                 ("poi_name",
                  dict_get_default "name" (VStr "Unknown") (attrs row));
                 ("poi_category",
                  dict_get_default "category" (VStr "Unknown") (attrs row));
                 ("buffer_distance", distance);
                 ("latitude", lat);
                 ("longitude", lon);
                 ("population_total", VInt 0);
                 ("population_density", VInt 0) ]%string
      end
  end.

(** One iteration of the loop over the rows of a buffer layer. *)
Definition process_buffer `{GeoLib} (src : RasterGrid) (row : Row)
  : option record :=
  match measure_buffer src row with
  | Some r => Some r
  | None => failed_buffer row
  end.

(** [extract_population_from_raster]; [raster] is the outcome of
    [rasterio.open(raster_path)] ([None] when it raises). The result is
    [None] where the function returns [None] (outer [except]). *)
Definition extract_population_from_raster `{GeoLib}
           (raster : option RasterGrid) (buffer_zones : dict GeoDataFrame)
  : option (list record) :=
  match raster with
  | None => None
  | Some src =>
      all_some
        (flat_map (fun zone => map (process_buffer src) (rows (snd zone)))
                  buffer_zones)
  end.

(** The eight columns of every record of the raster path. *)
Definition record_columns : list string :=
  ["poi_id"; "poi_name"; "poi_category"; "buffer_distance"; "latitude";
   "longitude"; "population_total"; "population_density"]%string.

(** A buffer layer of [n] POIs for the radius [d]: [n] rows, each
    tagged with [buffer_distance = d]. *)
Definition layer_of (n : nat) (d : Z) (layer : GeoDataFrame) : Prop :=
  List.length (rows layer) = n /\
  Forall (fun row => dict_get "buffer_distance" (attrs row) = Some (VInt d))
         (rows layer).

(** *** The fallback estimator *)

(** A computation that draws from numpy's global generator: the state
    is the number of draws made so far from the sequence [draws]. *)
Definition Rand (A : Type) : Type := (nat -> Q) -> nat -> A * nat.

Definition ret {A : Type} (x : A) : Rand A := fun _ n => (x, n).
Definition bind {A B : Type} (m : Rand A) (k : A -> Rand B) : Rand B :=
  fun draws n => let '(x, n') := m draws n in k x draws n'.

(** [np.random.random()] *)
Definition np_random : Rand Q := fun draws n => (draws n, S n).

(** The product of lines 285-295 in exact arithmetic, with the decimal
    constants: what the binary64 value below approximates. *)
Definition exact_product (u : Q) (buffer_meters : Z) : Q :=
  (np_pi * ((inject_Z buffer_meters / 1000) * (inject_Z buffer_meters / 1000))
   * 6000 * ((8 # 10) + (4 # 10) * u))%Q.

(** Lines 285-295 for a given value [u] of [np.random.random()], in
    binary64 as Python evaluates them: [0.8] and [0.4] are the doubles
    nearest to the decimals, and every operation rounds. *)
Definition estimated_population (u : Q) (buffer_meters : Z) : Q :=
  let km := b64 (inject_Z buffer_meters / 1000) in
  let buffer_area_km2 := b64 (np_pi * b64 (km * km)) in
  let estimated_density := 6000%Q in
  let variation_factor := b64 (b64 (8 # 10) + b64 (b64 (4 # 10) * u)) in
  b64 (b64 (buffer_area_km2 * estimated_density) * variation_factor).

Definition estimate_population_simple (lat lon : Q) (buffer_meters : Z)
  : Rand Z :=
  bind np_random (fun u => ret (py_int (estimated_population u buffer_meters))).

(** Lines 266-272 for one distance. *)
Definition estimate_record (base_result : record) (lat lon : Q)
           (distance : Z) : Rand record :=
  bind (estimate_population_simple lat lon distance) (fun pop_estimate =>
    let density :=
      if 0 <? pop_estimate
      then VFloat (Fin (Qred (inject_Z pop_estimate
                              / hectares (inject_Z distance))))
      else VInt 0 in
    ret (dict_set "estimation_method" (VStr "api_fallback")
          (dict_set "population_density" density
            (dict_set "population_total" (VInt pop_estimate)
              (dict_set "buffer_distance" (VInt distance) base_result))))).

Fixpoint estimate_distances (base_result : record) (lat lon : Q)
         (buffer_distances : list Z) : Rand (list record) :=
  match buffer_distances with
  | [] => ret []
  | distance :: rest =>
      bind (estimate_record base_result lat lon distance) (fun r =>
      bind (estimate_distances base_result lat lon rest) (fun rs =>
      ret (r :: rs)))
  end.

(** Lines 247-251; [None] when the shape is empty and [centroid.y]
    raises. *)
Definition lat_lon `{GeoLib} (g : Geometry) : option (Q * Q) :=
  match g with
  | Point x y => Some (y, x)
  | _ => option_map (fun c => (snd c, fst c)) (centroid g)
  end.

(** The body of the loop over the POIs; [None] when the row has no
    geometry ([AttributeError]) or an empty one: neither is caught. *)
Definition estimate_poi `{GeoLib} (buffer_distances : list Z) (poi : Row)
  : option (Rand (list record)) :=
  match geometry poi with
  | None => None
  | Some g =>
      match lat_lon g with
      | None => None
      | Some (lat, lon) =>
          let base_result :=
            [ ("poi_id", VInt (idx poi));
              ("poi_name",
               dict_get_default "name" (VStr "Unknown") (attrs poi));
              ("poi_category",
               dict_get_default "category" (VStr "Unknown") (attrs poi));
              ("latitude", VFloat (Fin lat));
              ("longitude", VFloat (Fin lon)) ]%string in
          Some (estimate_distances base_result lat lon buffer_distances)
      end
  end.

Fixpoint estimate_pois `{GeoLib} (buffer_distances : list Z)
         (pois : list Row) : option (Rand (list record)) :=
  match pois with
  | [] => Some (ret [])
  | poi :: rest =>
      match estimate_poi buffer_distances poi,
            estimate_pois buffer_distances rest with
      | Some m, Some ms =>
          Some (bind m (fun rs => bind ms (fun rss => ret (rs ++ rss))))
      | _, _ => None
      end
  end.

(** [create_population_estimates_api]; [None] is a raised exception. *)
Definition create_population_estimates_api `{GeoLib} (pois : GeoDataFrame)
           (buffer_distances : list Z) : option (Rand (list record)) :=
  estimate_pois buffer_distances (rows pois).

(** The tag that the fallback path puts on a record. *)
Definition tagged (r : record) : Prop :=
  dict_get "estimation_method" r = Some (VStr "api_fallback").

(** *** Saving the results *)

(** What [save_results] writes: the CSV table and the JSON summary. *)
Record Table : Type := MkTable {
  columns : list string;
  body : list (list value)
}.

Definition index_columns : list string :=
  ["poi_id"; "poi_name"; "poi_category"; "latitude"; "longitude"]%string.

(** The value columns, in the (sorted) order of the pivoted labels. *)
Definition value_columns : list string :=
  ["population_density"; "population_total"]%string.

Definition is_null (v : value) : bool :=
  match v with VFloat NaN => true | _ => false end.

(** The order pandas sorts index labels by; numbers come before
    strings here. *)
Definition value_compare (x y : value) : comparison :=
  let rank v :=
    match v with
    | VInt _ | VFloat (Fin _) => 0
    | VFloat _ => 1
    | VStr _ => 2
    | VInts _ => 3
    end in
  match num_of_value x, num_of_value y with
  | Some p, Some q => Qcompare p q
  | _, _ =>
      match x, y with
      | VStr s, VStr t => String.compare s t
      | _, _ => Z.compare (rank x) (rank y)
      end
  end.

Fixpoint key_compare (k1 k2 : list value) : comparison :=
  match k1, k2 with
  | [], [] => Eq
  | [], _ :: _ => Lt
  | _ :: _, [] => Gt
  | x :: k1', y :: k2' =>
      match value_compare x y with
      | Eq => key_compare k1' k2'
      | c => c
      end
  end.

Fixpoint insert_sorted {A : Type} (cmp : A -> A -> comparison) (x : A)
         (l : list A) : list A :=
  match l with
  | [] => [x]
  | y :: l' =>
      match cmp x y with
      | Lt => x :: l
      | Eq => l
      | Gt => y :: insert_sorted cmp x l'
      end
  end.

Definition sorted_unique {A : Type} (cmp : A -> A -> comparison)
           (l : list A) : list A :=
  fold_left (fun acc x => insert_sorted cmp x acc) l [].

(** The index tuple of a row; rows with a missing or null index value
    are dropped by the grouping. *)
Definition index_key (r : record) : option (list value) :=
  all_some
    (map (fun k =>
            match dict_get k r with
            | Some v => if is_null v then None else Some v
            | None => None
            end)
         index_columns).

Definition distance_of (r : record) : option Z :=
  match dict_get "buffer_distance" r with
  | Some (VInt d) => Some d
  | _ => None
  end.

Fixpoint filter_some {A : Type} (l : list (option A)) : list A :=
  match l with
  | [] => []
  | Some x :: l' => x :: filter_some l'
  | None :: l' => filter_some l'
  end.

(** [aggfunc='first']: the first non-null value of column [v]. *)
Fixpoint first_non_null (v : string) (rs : list record) : value :=
  match rs with
  | [] => VFloat NaN
  | r :: rs' =>
      match dict_get v r with
      | Some x => if is_null x then first_non_null v rs' else x
      | None => first_non_null v rs'
      end
  end.

Definition in_group (k : list value) (d : Z) (r : record) : bool :=
  match index_key r, distance_of r with
  | Some k', Some d' =>
      match key_compare k k' with Eq => Z.eqb d d' | _ => false end
  | _, _ => false
  end.

(** Rounding to the nearest integer, ties to even. *)
Definition round_half_even (q : Q) : Z :=
  let fl := Qfloor q in
  match Qcompare (q - inject_Z fl) (1 # 2) with
  | Lt => fl
  | Gt => fl + 1
  | Eq => if Z.even fl then fl else fl + 1
  end.

(** [.round(0)] on one cell. *)
Definition round0 (v : value) : value :=
  match v with
  | VFloat (Fin q) => VFloat (Fin (inject_Z (round_half_even q)))
  | _ => v
  end.

(** [f"{col[0]}_{col[1]}m"] *)
Definition flat_name (v : string) (d : Z) : string :=
  (v ++ "_" ++ str_of_int d ++ "m")%string.

(** A row takes part in column [v] of the pivot when it has an index
    tuple, a distance and a value of [v] that is not null. *)
Definition live (v : string) (r : record) : bool :=
  match index_key r, distance_of r, dict_get v r with
  | Some _, Some _, Some x => negb (is_null x)
  | _, _, _ => false
  end.

Definition live_somewhere (r : record) : bool :=
  existsb (fun v => live v r) value_columns.

(** Lines 305-314: the pivot table with flattened column names. It has
    one row per index tuple, in sorted order, and one column per value
    column and distance, in sorted order; groups and columns without any
    value are dropped ([dropna=True]). *)
Definition pivot (population_data : list record) : Table :=
  let ks := sorted_unique key_compare
              (filter_some (map index_key
                                (filter live_somewhere population_data))) in
  let ds := sorted_unique Z.compare
              (filter_some (map distance_of
                                (filter live_somewhere population_data))) in
  let cells :=
    filter (fun vd =>
              existsb (fun r => live (fst vd) r
                                && match distance_of r with
                                   | Some d => Z.eqb d (snd vd)
                                   | None => false
                                   end)
                      population_data)
           (list_prod value_columns ds) in
  MkTable
    (index_columns ++ map (fun vd => flat_name (fst vd) (snd vd)) cells)
    (map (fun k =>
            k ++ map (fun vd =>
                        round0 (first_non_null (fst vd)
                                  (filter (in_group k (snd vd)) population_data)))
                     cells)
         ks).

(** The position of a column; [None] is a [KeyError]. *)
Fixpoint column_index (name : string) (cols : list string) : option nat :=
  match cols with
  | [] => None
  | c :: cols' =>
      if String.eqb name c then Some O
      else option_map S (column_index name cols')
  end.

(** [column.mean()]: the mean of the non-null entries, [nan] when there
    are none; [None] for a column that is not numeric. *)
Fixpoint mean_acc (vs : list value) (sum : pyfloat) (count : Z)
  : option pyfloat :=
  match vs with
  | [] => Some (if count =? 0 then NaN
                else fdiv_np sum (inject_Z count))
  | VInt z :: vs' => mean_acc vs' (fadd sum (Fin (inject_Z z))) (count + 1)
  | VFloat NaN :: vs' => mean_acc vs' sum count
  | VFloat f :: vs' => mean_acc vs' (fadd sum f) (count + 1)
  | _ :: _ => None
  end.

Definition column_mean (t : Table) (name : string) : option pyfloat :=
  match column_index name (columns t) with
  | None => None
  | Some i =>
      mean_acc (map (fun row => nth i row (VFloat NaN)) (body t)) (Fin 0) 0
  end.

(** [save_results]: the table written to the CSV file (and returned)
    and the summary written to the JSON file; [None] when it raises. *)
Definition save_results (population_data : list record)
  : option (Table * record) :=
  let pivot_data := pivot population_data in
  match column_mean pivot_data "population_total_100m",
        column_mean pivot_data "population_total_200m",
        column_mean pivot_data "population_total_500m" with
  | Some m100, Some m200, Some m500 =>
      Some (pivot_data,
            [ ("total_pois", VInt (Z.of_nat (List.length (body pivot_data))));
              ("buffer_distances", VInts [100; 200; 500]);
              ("average_population_100m", VFloat m100);
              ("average_population_200m", VFloat m200);
              ("average_population_500m", VFloat m500);
              ("data_source", VStr "worldpop_python_api") ]%string)
  | _, _, _ => None
  end.

End Script11.

(* ================================================================== *)
(** ** A concrete geometry library on axis-parallel boxes

    A small executable instance of [GeoLib], used to run the scripts on
    concrete inputs. Both reference systems share one flat metric frame,
    a shape is handled through its bounding box (exact for points and for
    axis-parallel rectangles, the shapes used below), a buffer widens the
    box by the distance on every side, and a pixel is inside a shape when
    its centre is. *)

Module BoxLib.

Definition qmin (x y : Q) : Q := if Qle_bool x y then x else y.
Definition qmax (x y : Q) : Q := if Qle_bool x y then y else x.

(** [(minx, miny, maxx, maxy)]; [None] for an empty shape. *)
Definition bounds (g : Geometry) : option (Q * Q * Q * Q) :=
  match g with
  | Point x y => Some (x, y, x, y)
  | Polygon [] => None
  | Polygon ((x, y) :: vs) =>
      Some (fold_left
              (fun (acc : Q * Q * Q * Q) (p : Q * Q) =>
                 let '(x0, y0, x1, y1) := acc in
                 (qmin x0 (fst p), qmin y0 (snd p),
                  qmax x1 (fst p), qmax y1 (snd p)))
              vs (x, y, x, y))
  end.

Definition box (x0 y0 x1 y1 : Q) : Geometry :=
  Polygon [(x0, y0); (x1, y0); (x1, y1); (x0, y1); (x0, y0)].

(** Widening by [d]; a box without area is the empty polygon. *)
Definition box_buffer (g : Geometry) (d : Z) : Geometry :=
  match bounds g with
  | None => Polygon []
  | Some (x0, y0, x1, y1) =>
      let r := inject_Z d in
      let '(a0, b0, a1, b1) :=
        (Qred (x0 - r), Qred (y0 - r), Qred (x1 + r), Qred (y1 + r))%Q in
      if Qle_bool a1 a0 || Qle_bool b1 b0 then Polygon []
      else box a0 b0 a1 b1
  end.

(** The sums of the shoelace formula over a closed ring. *)
Fixpoint shoelace (vs : list (Q * Q)) : Q * Q * Q :=
  match vs with
  | (x0, y0) :: (((x1, y1) :: _) as tl) =>
      let '(a, cx, cy) := shoelace tl in
      let cr := (x0 * y1 - x1 * y0)%Q in
      (a + cr, cx + (x0 + x1) * cr, cy + (y0 + y1) * cr)%Q
  | _ => (0, 0, 0)%Q
  end.

(** [None] for the empty polygon, which has no centroid. *)
Definition box_centroid (g : Geometry) : option (Q * Q) :=
  match bounds g with
  | None => None
  | Some (x0, y0, x1, y1) =>
      Some match g with
           | Point x y => (x, y)
           | Polygon vs =>
               let '(a, cx, cy) := shoelace vs in
               if Qeq_bool a 0
               then (Qred ((x0 + x1) / 2), Qred ((y0 + y1) / 2))%Q
               else (Qred (cx / (3 * a)), Qred (cy / (3 * a)))%Q
           end
  end.

Definition box_window (src : RasterGrid) (g : Geometry) : option Window :=
  match bounds g, Affine.exact_inverse (transform src) with
  | Some (x0, y0, x1, y1), Some inv =>
      let '(c0, r0) := Affine.exact_apply inv (x0, y0) in
      let '(c1, r1) := Affine.exact_apply inv (x1, y1) in
      let nrows := Z.of_nat (List.length (band src)) in
      let ncols := Z.of_nat (List.length (hd [] (band src))) in
      let col_lo := Z.max 0 (Qfloor (qmin c0 c1)) in
      let col_hi := Z.min ncols (Qceiling (qmax c0 c1)) in
      let row_lo := Z.max 0 (Qfloor (qmin r0 r1)) in
      let row_hi := Z.min nrows (Qceiling (qmax r0 r1)) in
      if (col_lo <? col_hi) && (row_lo <? row_hi)
      then Some (MkWindow (Z.to_nat row_lo) (Z.to_nat col_lo)
                          (Z.to_nat (row_hi - row_lo))
                          (Z.to_nat (col_hi - col_lo)))
      else None
  | _, _ => None
  end.

Definition box_mask (src : RasterGrid) (g : Geometry) (r c : nat) : bool :=
  let '(x, y) :=
    Affine.exact_apply (transform src)
      (inject_Z (Z.of_nat c) + (1 # 2), inject_Z (Z.of_nat r) + (1 # 2))%Q in
  match bounds g with
  | None => true
  | Some (x0, y0, x1, y1) =>
      negb (Qle_bool x0 x && Qle_bool x x1 && Qle_bool y0 y && Qle_bool y y1)
  end.

(** A shape with a window has bounds, and so a centroid. *)
Definition box_window_not_empty (src : RasterGrid) (g : Geometry) (w : Window) :
  box_window src g = Some w -> box_centroid g <> None.
Proof.
  unfold box_window, box_centroid.
  destruct (bounds g) as [[[[x0 y0] x1] y1] |]; discriminate.
Qed.

Definition lib : GeoLib :=
  Build_GeoLib box_centroid box_buffer (fun _ _ g => g) box_window box_mask
               box_window_not_empty.

(** *** Sample inputs *)

(** A north-up grid of 1000 m cells with its top-left corner at
    [(0, 1000 * n)]. *)
Definition grid_transform (n : Z) : Affine.t :=
  Affine.Make 1000 0 0 0 (-1000) (inject_Z (1000 * n)).

(** A 2 x 2 raster with 10 people in every cell. *)
Definition raster2 : RasterGrid :=
  MkRaster [[Fin 10; Fin 10]; [Fin 10; Fin 10]] (Some (Fin (-99999)))
           (grid_transform 2).

(** A 4 x 4 raster with 10 people in every cell. *)
Definition raster4 : RasterGrid :=
  MkRaster [[Fin 10; Fin 10; Fin 10; Fin 10]; [Fin 10; Fin 10; Fin 10; Fin 10];
            [Fin 10; Fin 10; Fin 10; Fin 10]; [Fin 10; Fin 10; Fin 10; Fin 10]]
           (Some (Fin (-99999))) (grid_transform 4).

(** A 2 x 2 raster whose only valid cell holds 100. *)
Definition raster_single : RasterGrid :=
  MkRaster [[Fin (-99999); Fin 100]; [NaN; Fin (-99999)]]
           (Some (Fin (-99999))) (grid_transform 2).

(** A 2 x 2 raster in which every cell holds the no-data sentinel, and
    one in which every cell is [nan]. *)
Definition raster_nodata : RasterGrid :=
  MkRaster [[Fin (-99999); Fin (-99999)]; [Fin (-99999); Fin (-99999)]]
           (Some (Fin (-99999))) (grid_transform 2).
Definition raster_nan : RasterGrid :=
  MkRaster [[NaN; NaN]; [NaN; NaN]] (Some (Fin (-99999))) (grid_transform 2).

Definition feature (i : Z) (name : string) (g : option Geometry) : Row :=
  MkRow i [("name", VStr name); ("category", VStr "food_beverage")]%string g.

Definition frame (rs : list Row) : GeoDataFrame := MkGdf (Some 4326) rs.

End BoxLib.

(* ================================================================== *)
(** ** Sample inputs for script 09 *)

Module Samples.
Import Script09.

(** A north-up grid of 3 arc-second cells (1/1200 degree) whose top-left
    corner is at longitude 77.6, latitude 12.95. *)
Definition arcsec3 : Affine.t :=
  Affine.Make (1 # 1200) 0 (776 # 10) 0 (- (1 # 1200)) (1295 # 100).

Definition cell (q : Q) : mcell := MCell (Fin q) false.
Definition nodata_cell : mcell := MCell (Fin (-99999)) true.

(** A 3 x 3 clipped raster in which nobody lives. *)
Definition info_zero : DataInfo :=
  MkInfo [[cell 0; cell 0; cell 0]; [cell 0; cell 0; cell 0];
          [cell 0; cell 0; cell 0]]
         arcsec3 (1 # 1200, 1 # 1200).

(** A 3 x 3 clipped raster with one valid cell, of value 100; the
    others are no-data or [nan]. *)
Definition info_single : DataInfo :=
  MkInfo [[nodata_cell; nodata_cell; MCell NaN false];
          [nodata_cell; cell 100; nodata_cell];
          [MCell NaN true; nodata_cell; nodata_cell]]
         arcsec3 (1 # 1200, 1 # 1200).

(** The centre of cell [(row, col)] of the grid [arcsec3]. *)
Definition centre (row col : Z) : Q * Q :=
  (Qred ((776 # 10) + (inject_Z col + (1 # 2)) / 1200),
   Qred ((1295 # 100) - (inject_Z row + (1 # 2)) / 1200))%Q.

(** *** Sample inputs for script 11, over [BoxLib] *)

Import Script11 BoxLib.

(** The raster branch of [main] (lines 378-381) for given distances;
    [None] when either step fails. *)
Definition run_raster (pois : GeoDataFrame) (buffer_distances : list Z)
           (src : RasterGrid) : option (list record) :=
  match create_buffer_zones (H := lib) pois buffer_distances with
  | Some buffer_zones =>
      extract_population_from_raster (H := lib) (Some src) buffer_zones
  | None => None
  end.

Definition totals (rs : option (list record)) : option (list (option value)) :=
  option_map (map (dict_get "population_total")) rs.

(** A 2 x 2 raster of 1000 m cells in which nobody lives. *)
Definition raster_zero : RasterGrid :=
  MkRaster [[Fin 0; Fin 0]; [Fin 0; Fin 0]] (Some (Fin (-99999)))
           (grid_transform 2).

(** A POI on the corner shared by the four cells of a 2 x 2 raster. *)
Definition corner_pois : GeoDataFrame :=
  frame [feature 0 "corner" (Some (Point 1000 1000))].

(** A POI 90 km away from the rasters. *)
Definition far_pois : GeoDataFrame :=
  frame [feature 0 "far" (Some (Point 90000 90000))].

(** A city block of 2 km x 2 km in the middle of [raster4], and a point
    feature at its centroid. *)
Definition block : Geometry := box 1000 1000 3000 3000.
Definition block_pois : GeoDataFrame := frame [feature 0 "block" (Some block)].
Definition block_centre_pois : GeoDataFrame :=
  frame [feature 0 "block" (Some (Point 2000 2000))].




(** The buffer row of a POI in the middle of a 2 x 2 raster, wide
    enough to cover the raster. *)
Definition covering_buffer : Geometry := box (-4000) (-4000) 6000 6000.
Definition covering_row : Row :=
  MkRow 0 [("name", VStr "centre"); ("buffer_distance", VInt 5000)]%string
        (Some covering_buffer).


(** The buffer row of a POI far from the rasters. *)
Definition far_buffer : Geometry := box 89900 89900 90100 90100.
Definition far_row : Row :=
  MkRow 0 [("name", VStr "far"); ("buffer_distance", VInt 100)]%string
        (Some far_buffer).

(** The buffers of 800 m and of 1800 m around the middle of [raster4]. *)
Definition buffer_800 : Geometry := box_buffer (Point 2000 2000) 800.
Definition buffer_1800 : Geometry := box_buffer (Point 2000 2000) 1800.

(** A generator whose every draw is 1/2 (variation factor 1.0), and
    one whose every draw is 0 (variation factor 0.8). *)
Definition draws_half : nat -> Q := fun _ => 1 # 2.

(** A generator whose every draw is the double 24316740989294 / 2^53
    (about 0.0027): the real product for 100 m is just below 151 and
    its binary64 value is 151. *)
Definition draws_edge : nat -> Q := fun _ => 24316740989294 # (2 ^ 53).

Definition two_pois : GeoDataFrame :=
  frame [feature 0 "cafe" (Some (Point 1000 1000));
         feature 1 "mall" (Some block)].

(** The fallback branch of [main] followed by [save_results]. *)
Definition fallback_records (draws : nat -> Q) : list record :=
  match create_population_estimates_api (H := lib) two_pois [100; 200; 500] with
  | Some m => fst (m draws O)
  | None => []
  end.

End Samples.

(* ================================================================== *)
(** ** Vocabulary of the properties of the tables

    Notions in which the properties of the two scripts below are
    stated; they are not functions of the scripts. *)

Section TableVocabulary.
Import Script09 Script11.
Context {L : GeoLib}.

(** The five columns every record of either script starts with. *)
Definition base_columns : list string :=
  ["poi_id"; "poi_name"; "poi_category"; "latitude"; "longitude"]%string.

(** [d'] is [d] with some keys set to floats. *)
Definition float_update (d d' : record) : Prop :=
  forall k, dict_get k d' = dict_get k d \/ exists f, dict_get k d' = Some (VFloat f).

(** The two columns of every dataset, in the order of the datasets. *)
Definition dataset_columns (names : list string) : list string :=
  flat_map (fun name => [at_location_key name; in_buffer_key name]) names.

(** A feature with its polygon replaced by the point at its centroid
    (an empty polygon, which has none, is left as it is), and a table of
    such features. *)
Definition as_centroid_point (poi : Row) : Row :=
  MkRow (idx poi) (attrs poi)
        (option_map (fun g => match g with
                              | Point _ _ => g
                              | _ => match centroid g with
                                     | Some c => Point (fst c) (snd c)
                                     | None => g
                                     end
                              end)
                    (geometry poi)).

Definition centroid_points (pois : GeoDataFrame) : GeoDataFrame :=
  MkGdf (crs pois) (map as_centroid_point (rows pois)).

(** The distinct elements of a list, each at its first position: the
    order of the keys of a Python dict filled in list order. *)
Definition first_occurrences (l : list Z) : list Z :=
  fold_left (fun acc d => if existsb (Z.eqb d) acc then acc else acc ++ [d]) l [].

(** The shape that [create_buffer_zones] stores for a geometry given in
    the reference system [source]. *)
Definition buffered (source : Z) (distance : Z) (g : Geometry) : Geometry :=
  reproject EPSG_32643 EPSG_4326 (buffer (reproject source EPSG_32643 g) distance).

(** [row] is the buffer row of [poi] for [distance]: same index, the
    buffered shape, the distance, and every other attribute but
    [poi_id] as in the POI. *)
Definition buffer_row_of (source distance : Z) (poi row : Row) : Prop :=
  idx row = idx poi /\
  geometry row = option_map (buffered source distance) (geometry poi) /\
  dict_get "buffer_distance" (attrs row) = Some (VInt distance) /\
  forall key, key <> "buffer_distance"%string -> key <> "poi_id"%string ->
              dict_get key (attrs row) = dict_get key (attrs poi).

Definition poi_ids (layer : GeoDataFrame) : list (option value) :=
  map (fun row => dict_get "poi_id" (attrs row)) (rows layer).

(** [range(n)] as a column. *)
Definition range (n : nat) : list (option value) :=
  map (fun i => Some (VInt (Z.of_nat i))) (seq 0 n).

(** The rows of the layer of one distance over the projected rows [rs],
    numbered from [i]. *)
Fixpoint layer_rows (distance : Z) (i : Z) (rs : list Row) : list Row :=
  match rs with
  | [] => []
  | r :: rs' =>
      MkRow (idx r)
            (dict_set "poi_id" (VInt i)
               (dict_set "buffer_distance" (VInt distance) (attrs r)))
            (option_map (fun g => reproject EPSG_32643 EPSG_4326 (buffer g distance))
                        (geometry r))
      :: layer_rows distance (i + 1) rs'
  end.

Definition layer_entry (rs : list Row) (d : Z) : string * GeoDataFrame :=
  (buffer_name d, MkGdf (Some EPSG_4326) (layer_rows d 0 rs)).

(** The POI and the distance a record is about. *)
Definition id_and_distance (r : record) : option value * option value :=
  (dict_get "poi_id" r, dict_get "buffer_distance" r).

(** [row[name]] for a row of table [t]; [None] is a [KeyError]. *)
Definition table_cell (t : Table) (row : list value) (name : string) : option value :=
  match column_index name (columns t) with
  | Some i => nth_error row i
  | None => None
  end.

(** The values that [mean] accepts in a column. *)
Definition is_number (v : value) : bool :=
  match v with VInt _ | VFloat _ => true | _ => false end.

(** The distances whose columns [save_results] reads (lines 322-324). *)
Definition default_distances : list Z := [100; 200; 500].

(** [base_result] of lines 253-259 for a feature at [(lat, lon)]. *)
Definition base_result_of (poi : Row) (lat lon : Q) : record :=
  [ ("poi_id", VInt (idx poi));
    ("poi_name", dict_get_default "name" (VStr "Unknown") (attrs poi));
    ("poi_category", dict_get_default "category" (VStr "Unknown") (attrs poi));
    ("latitude", VFloat (Fin lat));
    ("longitude", VFloat (Fin lon)) ]%string.

(** A feature that has a geometry, and not an empty one: its
    coordinates can be read. *)
Definition located (poi : Row) : Prop :=
  exists g, geometry poi = Some g /\ lat_lon g <> None.


(** The radii for which binary64 neither overflows nor underflows in
    the estimate, with room to spare: up to a thousand kilometres. *)
Definition max_radius : Z := 1000000.

(** A feature whose name and category are not null. *)
Definition named (poi : Row) : bool :=
  negb (is_null (dict_get_default "name" (VStr "Unknown") (attrs poi)))
  && negb (is_null (dict_get_default "category" (VStr "Unknown") (attrs poi))).

End TableVocabulary.

(** *** Further sample inputs *)

Module MoreSamples.
Import Script09 Script11 BoxLib Samples.

(** A cafe at the centre of the middle cell of the 3 x 3 grids. *)
Definition cafe : Row :=
  feature 0 "cafe" (Some (Point (fst (centre 1 1)) (snd (centre 1 1)))).

Definition single_dataset : dict DataInfo := [("pop"%string, info_single)].

(** A feature whose shape is an empty polygon. *)
Definition hollow : Row := feature 1 "hollow" (Some (Polygon [])).

(** The grid [arcsec3] with the doubles that a GeoTIFF holds for its
    numbers, under a 3 x 3 raster whose first cell holds 5 people. *)
Definition arcsec3_doubles : Affine.t :=
  Eval vm_compute in
    Affine.Make (b64 (1 # 1200)) 0 (b64 (776 # 10)) 0 (- b64 (1 # 1200))
                (b64 (1295 # 100)).
Definition info_doubles : DataInfo :=
  MkInfo [[cell 5; cell 0; cell 0]; [cell 0; cell 0; cell 0];
          [cell 0; cell 0; cell 0]]
         arcsec3_doubles (b64 (1 # 1200), b64 (1 # 1200)).

(** The point (77.5995, 12.9505), 0.6 cells left of and above the
    raster, and its fractional cell index; the point (77.6004, 12.9496)
    in the first cell; and the point (77.59916666666666, 12.9495), for
    which line 259 computes the column -1.0. *)
Definition margin_point : Q * Q :=
  Eval vm_compute in (b64 (775995 # 10000), b64 (129505 # 10000)).
Definition margin_index : Q * Q :=
  Eval vm_compute in
    match pixel_coordinates info_doubles (fst margin_point) (snd margin_point) with
    | Some p => p
    | None => (0, 0)%Q
    end.
Definition first_cell_point : Q * Q :=
  Eval vm_compute in (b64 (776004 # 10000), b64 (129496 # 10000)).
Definition left_point : Q * Q :=
  Eval vm_compute in
    (b64 (7759916666666666 # 100000000000000), b64 (129495 # 10000)).

(** The 100 m buffer row of the POI on the corner shared by the four
    cells of [raster2], and the window that [mask] cuts out for it: no
    pixel centre lies in the buffer. *)
Definition corner_buffer : Geometry := box_buffer (Point 1000 1000) 100.
Definition corner_row : Row :=
  MkRow 0 [("name", VStr "corner"); ("buffer_distance", VInt 100)]%string
        (Some corner_buffer).
Definition masked_window : marray :=
  Eval vm_compute in
    match rasterio_mask (H := lib) raster2 corner_buffer with
    | Some clipped => clipped
    | None => []
    end.


End MoreSamples.

(* ================================================================== *)
(** * Properties *)

(** ** Binary64 rounding *)

Lemma round_ties_even_close (q : Q) :
  (q - (1 # 2) <= inject_Z (round_ties_even q) <= q + (1 # 2))%Q.
Proof.
  unfold round_ties_even.
  pose proof (Qfloor_le q) as H1. pose proof (Qlt_floor q) as H2.
  rewrite inject_Z_plus in H2. change (inject_Z 1) with 1%Q in H2.
  destruct (Qcompare (q - inject_Z (Qfloor q)) (1 # 2)) eqn:E.
  - apply Qeq_alt in E. destruct (Z.even (Qfloor q)).
    + split; lra.
    + rewrite inject_Z_plus. change (inject_Z 1) with 1%Q. split; lra.
  - apply Qlt_alt in E. split; lra.
  - apply Qgt_alt in E. rewrite inject_Z_plus. change (inject_Z 1) with 1%Q. split; lra.
Qed.

Lemma pow2_pos (e : Z) : (0 < 2 ^ e)%Q.
Proof. apply Qpower_0_lt. reflexivity. Qed.

Lemma pow2_succ (e : Z) : (2 ^ (e + 1) == 2 ^ e * 2)%Q.
Proof. rewrite Qpower_plus by discriminate. reflexivity. Qed.

Lemma Qnum_pos (x : Q) : (0 < x)%Q -> 0 < Qnum x.
Proof. unfold Qlt. simpl. lia. Qed.

Lemma scaled_above (x : Q) :
  (0 < x)%Q ->
  let e0 := Z.log2 (Qnum x) - Z.log2 (Zpos (Qden x)) - 53 in
  (2 ^ 52 < x / 2 ^ e0)%Q.
Proof.
  intros Hx. cbv zeta.
  pose proof (Qnum_pos x Hx) as Hn.
  set (a := Z.log2 (Qnum x)). set (b := Z.log2 (Zpos (Qden x))).
  assert (Ha : 0 <= a) by apply Z.log2_nonneg.
  assert (Hb : 0 <= b) by apply Z.log2_nonneg.
  destruct (Z.log2_spec (Qnum x) Hn) as [Ha1 _]. fold a in Ha1.
  destruct (Z.log2_spec (Zpos (Qden x)) (Pos2Z.is_pos _)) as [_ Hb2]. fold b in Hb2.
  assert (Qa : (2 ^ a <= inject_Z (Qnum x))%Q).
  { change 2%Q with (inject_Z 2). rewrite <- Zpower_Qpower by exact Ha.
    rewrite <- Zle_Qle. exact Ha1. }
  assert (Qb : (inject_Z (Zpos (Qden x)) < 2 ^ (b + 1))%Q).
  { change 2%Q with (inject_Z 2). rewrite <- Zpower_Qpower by lia.
    rewrite <- Zlt_Qlt. replace (b + 1) with (Z.succ b) by lia. exact Hb2. }
  assert (Hd : (0 < inject_Z (Zpos (Qden x)))%Q) by reflexivity.
  assert (Ex : (x == inject_Z (Qnum x) / inject_Z (Zpos (Qden x)))%Q).
  { destruct x as [n d]. simpl. apply Qmake_Qdiv. }
  apply Qlt_shift_div_l; [apply pow2_pos |].
  rewrite <- Qpower_plus by discriminate.
  replace (52 + (a - b - 53)) with (a - (b + 1)) by lia.
  rewrite Qpower_minus by discriminate.
  rewrite Ex.
  apply Qlt_shift_div_l; [exact Hd |].
  pose proof (pow2_pos (b + 1)) as Hpb. pose proof (pow2_pos a) as Hpa.
  assert (E : (2 ^ a / 2 ^ (b + 1) * inject_Z (Zpos (Qden x)) ==
               2 ^ a * (inject_Z (Zpos (Qden x)) / 2 ^ (b + 1)))%Q).
  { field. intros H. rewrite H in Hpb. discriminate. }
  rewrite E.
  assert (Hlt1 : (inject_Z (Zpos (Qden x)) / 2 ^ (b + 1) < 1)%Q).
  { apply Qlt_shift_div_r; [exact Hpb | lra]. }
  apply Qlt_le_trans with (2 ^ a * 1)%Q; [| lra].
  apply Qmult_lt_l; assumption.
Qed.

Lemma b64_pos_scaled (x : Q) :
  (0 < x)%Q ->
  exists e, (2 ^ 52 <= x / 2 ^ e)%Q /\
            b64_pos x = (inject_Z (round_ties_even (x / 2 ^ e)) * 2 ^ e)%Q.
Proof.
  intros Hx. unfold b64_pos.
  set (e0 := Z.log2 (Qnum x) - Z.log2 (Zpos (Qden x)) - 53).
  pose proof (scaled_above x Hx) as H0. cbv zeta in H0. fold e0 in H0.
  destruct (Qle_bool (2 ^ 53) (x / 2 ^ e0)) eqn:E.
  - exists (e0 + 1). split; [| reflexivity].
    apply Qle_bool_iff in E.
    pose proof (pow2_pos e0) as Hp.
    assert (Eq2 : (x / 2 ^ (e0 + 1) == x / 2 ^ e0 / 2)%Q).
    { rewrite pow2_succ. field. intros H. rewrite H in Hp. discriminate. }
    rewrite Eq2. apply Qle_shift_div_l; [reflexivity |].
    eapply Qle_trans; [| exact E]. discriminate.
  - exists e0. split; [now apply Qlt_le_weak | reflexivity].
Qed.

(** The result is within half a unit in the last place. *)
Lemma b64_pos_error (x : Q) :
  (0 < x)%Q ->
  (x * (1 - ulp_half) <= b64_pos x <= x * (1 + ulp_half))%Q.
Proof.
  intros Hx. destruct (b64_pos_scaled x Hx) as [e [Hm ->]].
  pose proof (pow2_pos e) as Hp.
  pose proof (round_ties_even_close (x / 2 ^ e)) as [H1 H2].
  set (k := inject_Z (round_ties_even (x / 2 ^ e))) in *.
  set (p := (2 ^ e)%Q) in *.
  assert (Hpne : ~ (p == 0)%Q) by (intros H; rewrite H in Hp; discriminate).
  assert (Ex : (x == x / p * p)%Q) by (field; exact Hpne).
  set (m := (x / p)%Q) in *.
  assert (Hhalf : ((1 # 2) <= m * ulp_half)%Q).
  { unfold ulp_half.
    assert (E52 : (2 ^ 52 * (1 # 2 ^ 53) == 1 # 2)%Q) by reflexivity.
    rewrite <- E52. apply Qmult_le_compat_r; [exact Hm | discriminate]. }
  split.
  - rewrite Ex at 1.
    setoid_replace (m * p * (1 - ulp_half))%Q with ((m - m * ulp_half) * p)%Q by ring.
    apply Qmult_le_compat_r; [lra | now apply Qlt_le_weak].
  - rewrite Ex at 1.
    setoid_replace (m * p * (1 + ulp_half))%Q with ((m + m * ulp_half) * p)%Q by ring.
    apply Qmult_le_compat_r; [lra | now apply Qlt_le_weak].
Qed.

Lemma b64_zero : b64 0 = 0%Q.
Proof. reflexivity. Qed.

Lemma b64_error (x : Q) :
  (0 <= x)%Q ->
  (x * (1 - ulp_half) <= b64 x <= x * (1 + ulp_half))%Q.
Proof.
  intros Hx. unfold b64. destruct (Qcompare x 0) eqn:E.
  - apply Qeq_alt in E. rewrite E. split; discriminate.
  - apply Qlt_alt in E. lra.
  - apply Qgt_alt in E. rewrite Qred_correct. now apply b64_pos_error.
Qed.

Lemma b64_nonneg (x : Q) : (0 <= x)%Q -> (0 <= b64 x)%Q.
Proof.
  intros Hx. destruct (b64_error x Hx) as [H _].
  eapply Qle_trans; [| exact H].
  apply Qmult_le_0_compat; [exact Hx | discriminate].
Qed.

Lemma b64_neg (x : Q) : (x <= 0)%Q -> (b64 x <= 0)%Q.
Proof.
  intros Hx. unfold b64. destruct (Qcompare x 0) eqn:E.
  - apply Qle_refl.
  - apply Qlt_alt in E. rewrite Qred_correct.
    assert (Hp : (0 < - x)%Q) by lra.
    destruct (b64_pos_error (- x) Hp) as [H _].
    assert (0 <= - x * (1 - ulp_half))%Q.
    { apply Qmult_le_0_compat; [lra | discriminate]. }
    lra.
  - apply Qgt_alt in E. lra.
Qed.

Lemma rel_lo_pos (n : nat) : (0 < rel_lo n)%Q.
Proof.
  induction n as [| n IH]; simpl; [reflexivity |].
  apply Qmult_lt_0_compat; [exact IH | reflexivity].
Qed.

Lemma rel_hi_pos (n : nat) : (0 < rel_hi n)%Q.
Proof.
  induction n as [| n IH]; simpl; [reflexivity |].
  apply Qmult_lt_0_compat; [exact IH | reflexivity].
Qed.

Lemma rel_lo_add (n m : nat) : (rel_lo (n + m) == rel_lo n * rel_lo m)%Q.
Proof.
  induction m as [| m IH].
  - rewrite Nat.add_0_r. simpl. ring.
  - rewrite Nat.add_succ_r. simpl. rewrite IH. ring.
Qed.

Lemma rel_hi_add (n m : nat) : (rel_hi (n + m) == rel_hi n * rel_hi m)%Q.
Proof.
  induction m as [| m IH].
  - rewrite Nat.add_0_r. simpl. ring.
  - rewrite Nat.add_succ_r. simpl. rewrite IH. ring.
Qed.

Lemma rel_lo_le_1 (n : nat) : (rel_lo n <= 1)%Q.
Proof.
  induction n as [| n IH]; simpl; [apply Qle_refl |].
  pose proof (rel_lo_pos n) as Hp.
  assert (H : (rel_lo n * (1 - ulp_half) <= rel_lo n * 1)%Q).
  { apply Qmult_le_l; [exact Hp | discriminate]. }
  lra.
Qed.

Lemma rel_hi_ge_1 (n : nat) : (1 <= rel_hi n)%Q.
Proof.
  induction n as [| n IH]; simpl; [apply Qle_refl |].
  pose proof (rel_hi_pos n) as Hp.
  assert (H : (rel_hi n * 1 <= rel_hi n * (1 + ulp_half))%Q).
  { apply Qmult_le_l; [exact Hp | discriminate]. }
  lra.
Qed.

Lemma within_exact (x : Q) : (0 <= x)%Q -> within 0 x x.
Proof. intros H. unfold within. simpl. split; [exact H | split; lra]. Qed.

Lemma within_nonneg (n : nat) (x y : Q) : within n x y -> (0 <= x)%Q.
Proof.
  intros [Hy [Hl _]]. eapply Qle_trans; [| exact Hl].
  apply Qmult_le_0_compat; [exact Hy | apply Qlt_le_weak, rel_lo_pos].
Qed.

Lemma within_b64 (n : nat) (x y : Q) : within n x y -> within (S n) (b64 x) y.
Proof.
  intros H. pose proof (within_nonneg n x y H) as Hx.
  destruct H as [Hy [Hl Hh]].
  destruct (b64_error x Hx) as [H1 H2].
  split; [exact Hy |]. simpl. split.
  - eapply Qle_trans; [| exact H1].
    setoid_replace (y * (rel_lo n * (1 - ulp_half)))%Q
      with ((y * rel_lo n) * (1 - ulp_half))%Q by ring.
    apply Qmult_le_compat_r; [exact Hl | discriminate].
  - eapply Qle_trans; [exact H2 |].
    setoid_replace (y * (rel_hi n * (1 + ulp_half)))%Q
      with ((y * rel_hi n) * (1 + ulp_half))%Q by ring.
    apply Qmult_le_compat_r; [exact Hh | discriminate].
Qed.

Lemma Qmult_le_both (a b c d : Q) :
  (0 <= a)%Q -> (0 <= c)%Q -> (a <= b)%Q -> (c <= d)%Q -> (a * c <= b * d)%Q.
Proof.
  intros Ha Hc Hab Hcd.
  apply Qle_trans with (b * c)%Q.
  - apply Qmult_le_compat_r; assumption.
  - rewrite (Qmult_comm b c), (Qmult_comm b d).
    apply Qmult_le_compat_r; [assumption | lra].
Qed.

Lemma within_mul (n m : nat) (x y x' y' : Q) :
  within n x y -> within m x' y' -> within (n + m) (x * x') (y * y').
Proof.
  intros H H'.
  pose proof (within_nonneg _ _ _ H) as Hx.
  pose proof (within_nonneg _ _ _ H') as Hx'.
  destruct H as [Hy [Hl Hh]], H' as [Hy' [Hl' Hh']].
  pose proof (rel_lo_pos n) as P1. pose proof (rel_lo_pos m) as P2.
  split; [now apply Qmult_le_0_compat |].
  rewrite rel_lo_add, rel_hi_add. split.
  - setoid_replace (y * y' * (rel_lo n * rel_lo m))%Q
      with ((y * rel_lo n) * (y' * rel_lo m))%Q by ring.
    apply Qmult_le_both; try assumption;
      apply Qmult_le_0_compat; try assumption; now apply Qlt_le_weak.
  - setoid_replace (y * y' * (rel_hi n * rel_hi m))%Q
      with ((y * rel_hi n) * (y' * rel_hi m))%Q by ring.
    apply Qmult_le_both; assumption.
Qed.

Lemma within_mono (n m : nat) (x y : Q) :
  (n <= m)%nat -> within n x y -> within m x y.
Proof.
  intros Hnm [Hy [Hl Hh]].
  replace m with (n + (m - n))%nat by lia.
  split; [exact Hy |]. rewrite rel_lo_add, rel_hi_add.
  pose proof (rel_lo_le_1 (m - n)) as L1. pose proof (rel_hi_ge_1 (m - n)) as L2.
  pose proof (rel_lo_pos n) as P1. pose proof (rel_hi_pos n) as P2.
  set (A := (y * rel_lo n)%Q) in *. set (B := (y * rel_hi n)%Q) in *.
  assert (HA : (0 <= A)%Q).
  { apply Qmult_le_0_compat; [exact Hy | now apply Qlt_le_weak]. }
  assert (HB : (0 <= B)%Q).
  { apply Qmult_le_0_compat; [exact Hy | now apply Qlt_le_weak]. }
  assert (H1 : (rel_lo (m - n) * A <= 1 * A)%Q)
    by (apply Qmult_le_compat_r; assumption).
  assert (H2 : (1 * B <= rel_hi (m - n) * B)%Q)
    by (apply Qmult_le_compat_r; assumption).
  split.
  - setoid_replace (y * (rel_lo n * rel_lo (m - n)))%Q
      with (rel_lo (m - n) * A)%Q by (unfold A; ring).
    lra.
  - setoid_replace (y * (rel_hi n * rel_hi (m - n)))%Q
      with (rel_hi (m - n) * B)%Q by (unfold B; ring).
    lra.
Qed.

Lemma within_add (n : nat) (x y x' y' : Q) :
  within n x y -> within n x' y' -> within n (x + x') (y + y').
Proof.
  intros [Hy [Hl Hh]] [Hy' [Hl' Hh']].
  split; [lra |]. split.
  - setoid_replace ((y + y') * rel_lo n)%Q with (y * rel_lo n + y' * rel_lo n)%Q by ring.
    lra.
  - setoid_replace ((y + y') * rel_hi n)%Q with (y * rel_hi n + y' * rel_hi n)%Q by ring.
    lra.
Qed.

Lemma within_eq (n : nat) (x x' y y' : Q) :
  (x == x')%Q -> (y == y')%Q -> within n x y -> within n x' y'.
Proof.
  intros Hx Hy [H0 [Hl Hh]]. unfold within. rewrite <- Hx, <- Hy. auto.
Qed.

Lemma b64_opp (x : Q) : (x < 0)%Q -> (b64 x == - b64 (- x))%Q.
Proof.
  intros Hx. unfold b64.
  assert (E1 : Qcompare x 0 = Lt) by now apply Qlt_alt.
  assert (E2 : Qcompare (- x) 0 = Gt) by (apply Qgt_alt; lra).
  rewrite E1, E2. rewrite !Qred_correct. reflexivity.
Qed.

Lemma within_b64_square (x : Q) : within 2 (b64 x * b64 x) (x * x).
Proof.
  destruct (Qlt_le_dec x 0) as [Hneg | Hpos].
  - assert (H : within 1 (b64 (- x)) (- x)).
    { apply within_b64, within_exact. lra. }
    pose proof (within_mul 1 1 _ _ _ _ H H) as H2.
    eapply within_eq; [| | exact H2].
    + rewrite (b64_opp x Hneg). ring.
    + ring.
  - assert (H : within 1 (b64 x) x) by now apply within_b64, within_exact.
    exact (within_mul 1 1 _ _ _ _ H H).
Qed.

Lemma nine_roundings :
  (1 - tolerance <= rel_lo 9 /\ rel_hi 9 <= 1 + tolerance)%Q.
Proof. split; unfold Qle; vm_compute; discriminate. Qed.

Lemma within_tolerance (x y : Q) :
  within 9 x y -> (y * (1 - tolerance) <= x <= y * (1 + tolerance))%Q.
Proof.
  intros [Hy [Hl Hh]]. destruct nine_roundings as [H1 H2].
  split.
  - eapply Qle_trans; [| exact Hl].
    rewrite (Qmult_comm y (1 - tolerance)), (Qmult_comm y (rel_lo 9)).
    now apply Qmult_le_compat_r.
  - eapply Qle_trans; [exact Hh |].
    rewrite (Qmult_comm y (rel_hi 9)), (Qmult_comm y (1 + tolerance)).
    now apply Qmult_le_compat_r.
Qed.


(** ** Dicts and strings *)

Lemma dict_get_set_same {V : Type} (k : string) (v : V) (d : dict V) :
  dict_get k (dict_set k v d) = Some v.
Proof.
  induction d as [| [k' v'] d IH]; simpl.
  - now rewrite String.eqb_refl.
  - destruct (String.eqb k k') eqn:E; simpl.
    + now rewrite String.eqb_refl.
    + now rewrite E.
Qed.

Lemma dict_get_set_other {V : Type} (k k0 : string) (v : V) (d : dict V) :
  k0 <> k -> dict_get k0 (dict_set k v d) = dict_get k0 d.
Proof.
  intros Hne.
  induction d as [| [k' v'] d IH]; simpl.
  - destruct (String.eqb k0 k) eqn:E; [apply String.eqb_eq in E; contradiction | reflexivity].
  - destruct (String.eqb k k') eqn:E; simpl.
    + apply String.eqb_eq in E; subst k'.
      destruct (String.eqb k0 k) eqn:E0; [apply String.eqb_eq in E0; contradiction | reflexivity].
    + destruct (String.eqb k0 k'); [reflexivity | exact IH].
Qed.

Lemma append_inv_head (s a b : string) :
  (s ++ a)%string = (s ++ b)%string -> a = b.
Proof.
  induction s as [| ch s IH]; simpl; intros H; [exact H |].
  injection H as H. now apply IH.
Qed.

(** ** Slices *)

Lemma py_slice_length {A : Type} (lo hi : Z) (l : list A) :
  0 <= lo <= hi -> hi <= Z.of_nat (List.length l) ->
  Z.of_nat (List.length (py_slice lo hi l)) = hi - lo.
Proof.
  intros Hlo Hhi. unfold py_slice, slice_index.
  destruct (Z.ltb_spec lo 0); [lia |].
  destruct (Z.ltb_spec hi 0); [lia |].
  rewrite length_firstn, length_skipn. lia.
Qed.

Lemma py_slice_incl {A : Type} (lo hi : Z) (l : list A) (x : A) :
  In x (py_slice lo hi l) -> In x l.
Proof.
  unfold py_slice. intros H.
  set (n := slice_index lo (Z.of_nat (List.length l))) in *.
  set (m := (slice_index hi (Z.of_nat (List.length l)) - n)%nat) in *.
  rewrite <- (firstn_skipn n l). apply in_or_app. right.
  rewrite <- (firstn_skipn m (skipn n l)). apply in_or_app. now left.
Qed.

(** ** The cell window of script 09 *)

Section Script09Window.
Import Script09.

Lemma buffer_cells_positive (resolution : Q) : 1 <= buffer_cells_of resolution.
Proof. unfold buffer_cells_of. lia. Qed.

Lemma in_extent_spec (data : marray) (row col : Z) :
  in_extent data row col = true <->
  0 <= row < shape0 data /\ 0 <= col < shape1 data.
Proof.
  unfold in_extent. rewrite !andb_true_iff, !Z.leb_le, !Z.ltb_lt. lia.
Qed.

Lemma getitem_defined (data : marray) (r c : Z) :
  rectangular data ->
  0 <= r < shape0 data -> 0 <= c < shape1 data ->
  getitem data r c <> None.
Proof.
  intros Hrect Hr Hc. unfold getitem, shape0 in *.
  destruct (nth_error data (Z.to_nat r)) as [rw |] eqn:Er.
  - assert (Hlen : Z.of_nat (List.length rw) = shape1 data).
    { unfold rectangular in Hrect. rewrite Forall_forall in Hrect.
      apply Hrect. eapply nth_error_In; eauto. }
    destruct (nth_error rw (Z.to_nat c)) eqn:Ec; [discriminate |].
    apply nth_error_None in Ec. lia.
  - apply nth_error_None in Er. lia.
Qed.

(** C10. Inside the extent guard of line 265, for every resolution, the
    window bounds of lines 276-279 satisfy
    [0 <= r_min <= r_max <= rows] and [0 <= c_min <= c_max <= columns];
    the window holds the cell of the POI, every index of the window is
    a valid index of the array, and the slice of line 281 has exactly
    [r_max - r_min] rows of [c_max - c_min] cells, so that its sum is
    taken over cells of the array only. *)
Theorem buffer_window_in_bounds
        (data : marray) (row col : Z) (resolution : Q) :
  rectangular data ->
  in_extent data row col = true ->
  let '(r_min, r_max, c_min, c_max) :=
    window_bounds data row col (buffer_cells_of resolution) in
  (0 <= r_min /\ r_min <= r_max /\ r_max <= shape0 data) /\
  (0 <= c_min /\ c_min <= c_max /\ c_max <= shape1 data) /\
  (r_min <= row < r_max /\ c_min <= col < c_max) /\
  (forall r c, r_min <= r < r_max -> c_min <= c < c_max ->
               getitem data r c <> None) /\
  Z.of_nat (List.length (slice2 r_min r_max c_min c_max data)) = r_max - r_min /\
  Forall (fun rw => Z.of_nat (List.length rw) = c_max - c_min)
         (slice2 r_min r_max c_min c_max data).
Proof.
  intros Hrect Hin. apply in_extent_spec in Hin. destruct Hin as [Hr Hc].
  pose proof (buffer_cells_positive resolution) as Hb.
  unfold window_bounds. cbv zeta.
  set (bc := buffer_cells_of resolution) in *.
  repeat split; try lia.
  - intros r c Hr' Hc'. apply getitem_defined; [assumption | lia | lia].
  - unfold slice2. rewrite length_map. apply py_slice_length; unfold shape0 in *; lia.
  - unfold slice2. apply Forall_forall. intros rw Hrw.
    apply in_map_iff in Hrw. destruct Hrw as [rw0 [<- Hrw0]].
    apply py_slice_incl in Hrw0.
    unfold rectangular in Hrect. rewrite Forall_forall in Hrect.
    apply py_slice_length; [lia |]. rewrite (Hrect _ Hrw0). lia.
Qed.

End Script09Window.

(** ** Sums of masked arrays *)

Lemma feq_refl (a : pyfloat) : feq a a.
Proof. destruct a; simpl; auto. reflexivity. Qed.

Lemma feq_trans (a b c : pyfloat) : feq a b -> feq b c -> feq a c.
Proof.
  destruct a, b, c; simpl; try tauto. intros H1 H2. now rewrite H1.
Qed.

Lemma fadd_feq (a a' b : pyfloat) : feq a a' -> feq (fadd a b) (fadd a' b).
Proof.
  destruct a, a', b; cbn [feq fadd]; try tauto.
  intros H.
  apply Qeq_trans with (q + q1)%Q; [apply Qred_correct |].
  apply Qeq_trans with (q0 + q1)%Q; [| apply Qeq_sym, Qred_correct].
  now apply Qplus_comp.
Qed.

Lemma fadd_zero_r (a : pyfloat) : feq (fadd a (Fin 0)) a.
Proof.
  destruct a; cbn [feq fadd]; auto.
  apply Qeq_trans with (q + 0)%Q; [apply Qred_correct | apply Qplus_0_r].
Qed.

Lemma fold_fadd_feq (l : list pyfloat) (a a' : pyfloat) :
  feq a a' -> feq (fold_left fadd l a) (fold_left fadd l a').
Proof.
  revert a a'. induction l as [| x l IH]; simpl; intros a a' H; [exact H |].
  apply IH. now apply fadd_feq.
Qed.

(** Filling the masked cells with zero does not change the sum. *)
Lemma filled_sum_is_valid_sum (l : list mcell) (a : pyfloat) :
  forallb not_nan l = true ->
  feq (fold_left fadd (map filled0 l) a)
      (fold_left fadd (map raw (filter valid l)) a).
Proof.
  revert a. induction l as [| c l IH]; intros a Hnn; [apply feq_refl |].
  cbn [forallb] in Hnn. apply andb_true_iff in Hnn. destruct Hnn as [Hc Hl].
  assert (Hv : valid c = negb (msk c)).
  { unfold valid. rewrite Hc. apply andb_true_r. }
  cbn [map fold_left filter]. rewrite Hv.
  change (filled0 c) with (if msk c then Fin 0 else raw c).
  destruct (msk c); cbn [negb map fold_left].
  - eapply feq_trans; [| apply IH; exact Hl].
    apply fold_fadd_feq. apply fadd_zero_r.
  - apply IH. exact Hl.
Qed.

Lemma filter_valid_not_nan (l : list mcell) :
  filter valid (filter not_nan l) = filter valid l.
Proof.
  induction l as [| c l IH]; simpl; [reflexivity |].
  unfold valid at 2. destruct (not_nan c) eqn:E; simpl.
  - unfold valid at 1. rewrite E, IH. reflexivity.
  - rewrite andb_false_r. exact IH.
Qed.

Lemma forallb_filter_same {A : Type} (p : A -> bool) (l : list A) :
  forallb p (filter p l) = true.
Proof.
  induction l as [| x l IH]; simpl; [reflexivity |].
  destruct (p x) eqn:E; simpl; [now rewrite E |]; exact IH.
Qed.

Lemma valid_cell_not_all_masked (l : list mcell) :
  existsb valid l = true -> forallb msk (filter not_nan l) = false.
Proof.
  induction l as [| c l IH]; simpl; [discriminate |].
  intros H. apply orb_true_iff in H. destruct H as [H | H].
  - unfold valid in H. apply andb_true_iff in H. destruct H as [Hm Hn].
    rewrite Hn. simpl. apply negb_true_iff in Hm. now rewrite Hm.
  - destruct (not_nan c); simpl; [| now apply IH].
    rewrite (IH H). apply andb_false_r.
Qed.

Lemma no_valid_cell_all_masked (l : list mcell) :
  existsb valid l = false -> forallb msk (filter not_nan l) = true.
Proof.
  induction l as [| c l IH]; simpl; [reflexivity |].
  intros H. apply orb_false_iff in H. destruct H as [Hc Hl].
  destruct (not_nan c) eqn:E; simpl; [| now apply IH].
  rewrite (IH Hl). unfold valid in Hc. rewrite E, andb_true_r in Hc.
  apply negb_false_iff in Hc. now rewrite Hc.
Qed.





Lemma valid_cell_selected (l : list mcell) :
  existsb valid l = true -> (0 < Z.of_nat (List.length (filter not_nan l))).
Proof.
  induction l as [| c l IH]; simpl; [discriminate |].
  intros H. apply orb_true_iff in H. destruct H as [H | H].
  - unfold valid in H. apply andb_true_iff in H. destruct H as [_ Hn].
    rewrite Hn. simpl. lia.
  - destruct (not_nan c); simpl; [specialize (IH H); lia | now apply IH].
Qed.


(** ** The raster path of script 11 *)

Section RasterPath.
Context {L : GeoLib}.
Import Script11.

(** A shape that [mask] accepts has a centroid. *)
Lemma mask_has_centroid (src : RasterGrid) (g : Geometry) (clipped : marray) :
  rasterio_mask src g = Some clipped -> exists x y, centroid g = Some (x, y).
Proof.
  unfold rasterio_mask. destruct (geometry_window src g) as [w |] eqn:Hw;
    [| discriminate].
  intros _. pose proof (window_not_empty src g w Hw) as Hc.
  destruct (centroid g) as [[x y] |]; [eauto | contradiction].
Qed.


Lemma total_population_valid (clipped : marray) :
  existsb valid (List.concat clipped) = true ->
  total_population_of clipped =
  Scalar (fold_left fadd (map filled0 (select_not_nan clipped)) (Fin 0)).
Proof.
  intros H. unfold total_population_of.
  pose proof (valid_cell_selected _ H) as Hlen.
  unfold select_not_nan at 1.
  destruct (Z.ltb_spec 0 (Z.of_nat (List.length (filter not_nan (List.concat clipped)))));
    [| lia].
  unfold ma_sum, select_not_nan.
  now rewrite (valid_cell_not_all_masked _ H).
Qed.


End RasterPath.

(** ** Nested buffers *)

Lemma all_some_Forall2 {A B : Type} (f : A -> option B) (l : list A) (ys : list B) :
  all_some (map f l) = Some ys -> Forall2 (fun x y => f x = Some y) l ys.
Proof.
  revert ys. induction l as [| x l IH]; simpl; intros ys H.
  - injection H as <-. constructor.
  - destruct (f x) as [y |] eqn:E; [| discriminate].
    destruct (all_some (map f l)) as [ys' |]; [| discriminate].
    injection H as <-. constructor; auto.
Qed.

Lemma Forall2_In_r {A B : Type} (R : A -> B -> Prop) (l : list A) (l' : list B) (y : B) :
  Forall2 R l l' -> In y l' -> exists x, In x l /\ R x y.
Proof.
  induction 1 as [| x y0 l l' HR HF IH]; simpl; intros Hy; [contradiction |].
  destruct Hy as [-> | Hy]; [exists x; auto |].
  destruct (IH Hy) as [x0 [Hx0 HR0]]. exists x0. auto.
Qed.

Lemma Forall2_In_l {A B : Type} (R : A -> B -> Prop) (l : list A) (l' : list B) (x : A) :
  Forall2 R l l' -> In x l -> exists y, In y l' /\ R x y.
Proof.
  induction 1 as [| x0 y l l' HR HF IH]; simpl; intros Hx; [contradiction |].
  destruct Hx as [-> | Hx]; [exists y; auto |].
  destruct (IH Hx) as [y0 [Hy0 HR0]]. exists y0. auto.
Qed.

Lemma NoDup_list_prod {A B : Type} (l1 : list A) (l2 : list B) :
  NoDup l1 -> NoDup l2 -> NoDup (list_prod l1 l2).
Proof.
  intros H1 H2. induction H1 as [| x l1 Hx H1 IH]; simpl; [constructor |].
  apply NoDup_app.
  - clear - H2. induction H2 as [| b l2 Hb H2 IH]; simpl; constructor; auto.
    intros Hin. apply in_map_iff in Hin. destruct Hin as [b' [E Hb']].
    injection E as ->. contradiction.
  - exact IH.
  - intros [a b] Hin Hin'. apply in_map_iff in Hin. destruct Hin as [b' [E _]].
    injection E as -> ->. apply in_prod_iff in Hin'. tauto.
Qed.

Lemma qsum_app (l1 l2 : list Q) : (qsum (l1 ++ l2) == qsum l1 + qsum l2)%Q.
Proof.
  induction l1 as [| x l1 IH]; simpl; [ring |]. rewrite IH. ring.
Qed.

Lemma qsum_nonneg {I : Type} (f : I -> Q) (l : list I) :
  (forall i, In i l -> (0 <= f i)%Q) -> (0 <= qsum (map f l))%Q.
Proof.
  induction l as [| i l IH]; simpl; intros H; [apply Qle_refl |].
  assert (0 <= f i)%Q by (apply H; auto).
  assert (0 <= qsum (map f l))%Q by (apply IH; auto).
  lra.
Qed.

(** A sum over [l1] is bounded by a sum of non-negative terms over [l2]
    when every term of the first that is not zero is matched in the
    second. *)
Lemma qsum_subset {I : Type} (f1 f2 : I -> Q) (l1 l2 : list I) :
  NoDup l1 ->
  (forall i, In i l2 -> (0 <= f2 i)%Q) ->
  (forall i, In i l1 -> (f1 i == 0)%Q \/ (In i l2 /\ (f1 i <= f2 i)%Q)) ->
  (qsum (map f1 l1) <= qsum (map f2 l2))%Q.
Proof.
  intros Hnd. revert l2. induction Hnd as [| i l1 Hi Hnd IH]; intros l2 Hpos Hsub.
  - simpl. now apply qsum_nonneg.
  - simpl. destruct (Hsub i (or_introl eq_refl)) as [Hz | [Hin Hle]].
    + rewrite Hz. rewrite Qplus_0_l. apply IH; auto.
      intros j Hj. apply Hsub. now right.
    + destruct (in_split _ _ Hin) as [a [b ->]].
      rewrite map_app, qsum_app. simpl.
      assert (Hrest : (qsum (map f1 l1) <= qsum (map f2 (a ++ b)))%Q).
      { apply IH.
        - intros j Hj. apply Hpos. apply in_app_or in Hj. apply in_or_app.
          destruct Hj; [left | right; right]; assumption.
        - intros j Hj. destruct (Hsub j (or_intror Hj)) as [Hz | [Hjin Hjle]]; [now left |].
          right. split; [| exact Hjle].
          apply in_app_or in Hjin. apply in_or_app.
          destruct Hjin as [Hja | [Heq | Hjb]]; [now left | | now right].
          subst j. contradiction. }
      rewrite map_app, qsum_app in Hrest. lra.
Qed.

Section NestedBuffers.
Context {L : GeoLib}.
Import Script11.

(** The clipped window lists the cells of the window of [g], row by row. *)
Lemma mask_cells (src : RasterGrid) (g : Geometry) (clipped : marray) :
  rasterio_mask src g = Some clipped ->
  exists w,
    geometry_window src g = Some w /\
    Forall2 (fun rc c => read_cell src g (fst rc) (snd rc) = Some c)
            (window_cells w) (List.concat clipped).
Proof.
  unfold rasterio_mask. destruct (geometry_window src g) as [w |]; [| discriminate].
  intros H. exists w. split; [reflexivity |].
  apply all_some_Forall2 in H. unfold window_cells.
  set (cs := seq (col_off w) (width w)) in *.
  induction H as [| r rw rs rws Hr HF IH]; simpl; [constructor |].
  apply Forall2_app; [| exact IH].
  apply all_some_Forall2 in Hr. clear - Hr.
  induction Hr as [| c cell cs0 cells Hc HF IH]; simpl; constructor; auto.
Qed.

Lemma read_cell_spec (src : RasterGrid) (g : Geometry) (r c : nat) (cell : mcell) :
  read_cell src g r c = Some cell ->
  exists v, band_value src r c = Some v /\
            cell = MCell v (is_nodata (nodata src) v || geometry_mask src g r c).
Proof.
  unfold read_cell, band_value.
  destruct (nth_error (band src) r) as [rw |]; [| discriminate].
  destruct (nth_error rw c) as [v |]; [| discriminate].
  intros H. injection H as <-. eauto.
Qed.

Lemma valid_cell_finite (src : RasterGrid) (g : Geometry) (r c : nat) (cell : mcell) :
  no_negative_values src ->
  read_cell src g r c = Some cell ->
  valid cell = true ->
  exists q, raw cell = Fin q /\ (0 <= q)%Q /\ geometry_mask src g r c = false /\
            band_value src r c = Some (Fin q) /\
            is_nodata (nodata src) (Fin q) = false.
Proof.
  intros Hnn Hread Hv.
  destruct (read_cell_spec _ _ _ _ _ Hread) as [v [Hb ->]].
  unfold valid, not_nan in Hv. simpl in Hv.
  apply andb_true_iff in Hv. destruct Hv as [Hm Hnan].
  apply negb_true_iff in Hm. apply orb_false_iff in Hm. destruct Hm as [Hnd Hmask].
  apply negb_true_iff in Hnan.
  destruct (Hnn r c v Hb) as [H | [H | [q [-> Hq]]]].
  - congruence.
  - subst v. discriminate.
  - exists q. simpl. auto.
Qed.

Lemma value_at_nonneg (src : RasterGrid) (g : Geometry) (rc : nat * nat) :
  no_negative_values src -> (0 <= value_at src g rc)%Q.
Proof.
  intros Hnn. unfold value_at.
  destruct (read_cell src g (fst rc) (snd rc)) as [cell |] eqn:E; [| apply Qle_refl].
  unfold cell_value. destruct (valid cell) eqn:Hv; [| apply Qle_refl].
  destruct (valid_cell_finite _ _ _ _ _ Hnn E Hv) as [q [-> [Hq _]]]. exact Hq.
Qed.

Lemma values_of_window (src : RasterGrid) (g : Geometry) (cells : list (nat * nat))
      (l : list mcell) :
  Forall2 (fun rc c => read_cell src g (fst rc) (snd rc) = Some c) cells l ->
  map cell_value l = map (value_at src g) cells.
Proof.
  induction 1 as [| rc c cells l Hc HF IH]; simpl; [reflexivity |].
  unfold value_at at 1. rewrite Hc, IH. reflexivity.
Qed.

(** The sum of finite valid values is their rational sum. *)
Lemma valid_sum_fin (l : list mcell) :
  Forall (fun c => valid c = true -> exists q, raw c = Fin q) l ->
  exists q, valid_sum l = Fin q /\ (q == qsum (map cell_value l))%Q.
Proof.
  unfold valid_sum.
  assert (G : forall a,
             Forall (fun c => valid c = true -> exists q, raw c = Fin q) l ->
             exists q, fold_left fadd (map raw (filter valid l)) (Fin a) = Fin q /\
                       (q == a + qsum (map cell_value l))%Q).
  { induction l as [| c l IH]; intros a HF.
    - exists a. split; [reflexivity |]. simpl. ring.
    - inversion HF as [| ? ? Hc HF']; subst.
      cbn [filter map qsum fold_right]. unfold cell_value at 1.
      destruct (valid c) eqn:Hv.
      + destruct (Hc eq_refl) as [q Hq].
        cbn [map fold_left]. rewrite Hq. cbn [fadd].
        destruct (IH (Qred (a + q)) HF') as [q' [E1 E2]].
        exists q'. split; [exact E1 |]. rewrite E2, Qred_correct.
        fold (qsum (map cell_value l)). ring.
      + destruct (IH a HF') as [q' [E1 E2]].
        exists q'. split; [exact E1 |]. rewrite E2.
        fold (qsum (map cell_value l)). ring. }
  intros HF. destruct (G 0%Q HF) as [q [E1 E2]].
  exists q. split; [exact E1 |]. rewrite E2. ring.
Qed.


Lemma total_is_valid_sum (clipped : marray) :
  existsb valid (List.concat clipped) = true ->
  feq (py_float (total_population_of clipped)) (valid_sum (List.concat clipped)).
Proof.
  intros Hv. rewrite (total_population_valid _ Hv). cbn [py_float].
  unfold valid_sum, select_not_nan.
  rewrite <- (filter_valid_not_nan (List.concat clipped)).
  apply filled_sum_is_valid_sum. apply forallb_filter_same.
Qed.

Lemma total_without_valid (clipped : marray) :
  existsb valid (List.concat clipped) = false ->
  py_float (total_population_of clipped) = NaN \/
  py_float (total_population_of clipped) = Fin 0.
Proof.
  intros Hv. unfold total_population_of.
  destruct (0 <? _); [| now right].
  unfold ma_sum, select_not_nan.
  rewrite (no_valid_cell_all_masked _ Hv). now left.
Qed.

Lemma read_cell_of_band (src : RasterGrid) (g : Geometry) (r c : nat) (v : pyfloat) :
  band_value src r c = Some v ->
  read_cell src g r c =
  Some (MCell v (is_nodata (nodata src) v || geometry_mask src g r c)).
Proof.
  unfold read_cell, band_value.
  destruct (nth_error (band src) r) as [rw |]; [| discriminate].
  intros ->. reflexivity.
Qed.

(** A valid cell of the inner buffer is a valid cell of the outer one,
    with the same value. *)
Lemma valid_cell_carries_over (src : RasterGrid) (g1 g2 : Geometry) (w2 : Window)
      (rc : nat * nat) (c1 : mcell) :
  no_negative_values src -> nested_in src g1 g2 -> window_bounds_shape src g2 ->
  geometry_window src g2 = Some w2 ->
  read_cell src g1 (fst rc) (snd rc) = Some c1 ->
  valid c1 = true ->
  In rc (window_cells w2) /\
  exists c2, read_cell src g2 (fst rc) (snd rc) = Some c2 /\
             valid c2 = true /\ cell_value c2 = cell_value c1.
Proof.
  intros Hnn Hnest Hshape Hw2 Hread Hv. destruct rc as [r c]. simpl in *.
  destruct (valid_cell_finite _ _ _ _ _ Hnn Hread Hv)
    as [q [Hraw [Hq [Hm1 [Hband Hnd]]]]].
  pose proof (Hnest r c (Fin q) Hband Hm1) as Hm2.
  split; [eapply Hshape; eauto |].
  rewrite (read_cell_of_band src g2 r c (Fin q) Hband).
  eexists. split; [reflexivity |].
  rewrite Hnd, Hm2. simpl. split; [reflexivity |].
  unfold cell_value. rewrite Hv, Hraw. reflexivity.
Qed.

Lemma feq_fin_inv (t : pyfloat) (q : Q) :
  feq t (Fin q) -> exists q', t = Fin q' /\ (q' == q)%Q.
Proof. destruct t; simpl; try tauto. eauto. Qed.

(** Over a raster without negative values, for two buffers that [mask]
    accepts, the first inside the second, and a window of the second
    that holds its pixels: whenever neither total is [nan], the total of
    the outer buffer is at least the total of the inner one. *)
Lemma nested_buffers_monotone (src : RasterGrid) (g1 g2 : Geometry)
      (clipped1 clipped2 : marray) :
  no_negative_values src -> nested_in src g1 g2 -> window_bounds_shape src g2 ->
  rasterio_mask src g1 = Some clipped1 ->
  rasterio_mask src g2 = Some clipped2 ->
  py_float (total_population_of clipped1) <> NaN ->
  py_float (total_population_of clipped2) <> NaN ->
  fge (py_float (total_population_of clipped2))
      (py_float (total_population_of clipped1)) = true.
Proof.
  intros Hnn Hnest Hshape Hm1 Hm2 Ht1 Ht2.
  destruct (mask_cells _ _ _ Hm1) as [w1 [Hw1 F1]].
  destruct (mask_cells _ _ _ Hm2) as [w2 [Hw2 F2]].
  assert (Hfin : forall g clipped cells,
             Forall2 (fun rc c => read_cell src g (fst rc) (snd rc) = Some c)
                     cells (List.concat clipped) ->
             Forall (fun c => valid c = true -> exists q, raw c = Fin q)
                    (List.concat clipped)).
  { intros g clipped cells F. apply Forall_forall. intros c Hc Hv.
    destruct (Forall2_In_r _ _ _ _ F Hc) as [rc [_ Hread]].
    destruct (valid_cell_finite _ _ _ _ _ Hnn Hread Hv) as [q [Hq _]]. eauto. }
  destruct (valid_sum_fin _ (Hfin _ _ _ F1)) as [q1 [Hs1 Hq1]].
  destruct (valid_sum_fin _ (Hfin _ _ _ F2)) as [q2 [Hs2 Hq2]].
  rewrite (values_of_window _ _ _ _ F1) in Hq1.
  rewrite (values_of_window _ _ _ _ F2) in Hq2.
  assert (Hle : (q1 <= q2)%Q).
  { rewrite Hq1, Hq2. apply qsum_subset.
    - apply NoDup_list_prod; apply seq_NoDup.
    - intros i _. now apply value_at_nonneg.
    - intros rc Hrc. unfold value_at.
      destruct (read_cell src g1 (fst rc) (snd rc)) as [c1 |] eqn:E1;
        [| left; reflexivity].
      destruct (valid c1) eqn:Hv1.
      + right.
        destruct (valid_cell_carries_over src g1 g2 w2 rc c1 Hnn Hnest Hshape Hw2 E1 Hv1)
          as [Hin [c2 [E2 [_ Hval]]]].
        split; [exact Hin |]. rewrite E2, Hval. apply Qle_refl.
      + left. unfold cell_value. rewrite Hv1. reflexivity. }
  assert (Hpos2 : (0 <= q2)%Q).
  { rewrite Hq2. apply qsum_nonneg. intros i _. now apply value_at_nonneg. }
  destruct (existsb valid (List.concat clipped1)) eqn:Hv1.
  - assert (Hv2 : existsb valid (List.concat clipped2) = true).
    { apply existsb_exists in Hv1. destruct Hv1 as [c1 [Hc1 Hvc1]].
      destruct (Forall2_In_r _ _ _ _ F1 Hc1) as [rc [_ Hread1]].
      destruct (valid_cell_carries_over src g1 g2 w2 rc c1 Hnn Hnest Hshape Hw2 Hread1 Hvc1)
        as [Hin [c2 [E2 [Hvc2 _]]]].
      destruct (Forall2_In_l _ _ _ _ F2 Hin) as [c2' [Hc2' Hread2]].
      apply existsb_exists. exists c2'. split; [exact Hc2' |]. congruence. }
    pose proof (total_is_valid_sum _ Hv1) as E1. rewrite Hs1 in E1.
    pose proof (total_is_valid_sum _ Hv2) as E2. rewrite Hs2 in E2.
    destruct (feq_fin_inv _ _ E1) as [p1 [-> Hp1]].
    destruct (feq_fin_inv _ _ E2) as [p2 [-> Hp2]].
    simpl. apply Qle_bool_iff. rewrite Hp1, Hp2. exact Hle.
  - destruct (total_without_valid _ Hv1) as [E1 | E1]; [contradiction |].
    rewrite E1.
    destruct (existsb valid (List.concat clipped2)) eqn:Hv2.
    + pose proof (total_is_valid_sum _ Hv2) as E2. rewrite Hs2 in E2.
      destruct (feq_fin_inv _ _ E2) as [p2 [-> Hp2]].
      simpl. apply Qle_bool_iff. rewrite Hp2. exact Hpos2.
    + destruct (total_without_valid _ Hv2) as [E2 | E2]; [contradiction |].
      rewrite E2. reflexivity.
Qed.
End NestedBuffers.

(** The mechanism behind a [nan] total, for any geometry library: a
    window in which every cell is masked and some datum is not [nan]
    passes the guard of line 207, its masked sum is [masked], and the
    total is [nan]. *)
Lemma all_masked_total_nan (clipped : marray) :
  forallb msk (List.concat clipped) = true ->
  existsb not_nan (List.concat clipped) = true ->
  py_float (Script11.total_population_of clipped) = NaN.
Proof.
  intros Hall Hsome. unfold Script11.total_population_of, select_not_nan.
  assert (Hlen : 0 < Z.of_nat (List.length (filter not_nan (List.concat clipped)))).
  { apply existsb_exists in Hsome. destruct Hsome as [c [Hc Hn]].
    assert (Hin : In c (filter not_nan (List.concat clipped)))
      by (apply filter_In; auto).
    destruct (filter not_nan (List.concat clipped)); [destruct Hin | simpl; lia]. }
  destruct (Z.ltb_spec 0 (Z.of_nat (List.length (filter not_nan (List.concat clipped)))));
    [| lia].
  unfold ma_sum.
  assert (Hm : forallb msk (filter not_nan (List.concat clipped)) = true).
  { apply forallb_forall. intros c Hc. apply filter_In in Hc.
    rewrite forallb_forall in Hall. apply Hall. tauto. }
  now rewrite Hm.
Qed.

(** ** Points and buffers outside the raster *)

Lemma location_keys_differ (dataset_name : string) :
  Script09.in_buffer_key dataset_name <> Script09.at_location_key dataset_name.
Proof.
  unfold Script09.in_buffer_key, Script09.at_location_key. intros H.
  apply append_inv_head in H. discriminate.
Qed.

Section OutsideExtent.
Context {L : GeoLib}.
Import Script09 Script11.


Lemma handler_lat_lon_none (row : Row) :
  handler_lat_lon row = None <->
  exists g, geometry row = Some g /\ centroid g = None.
Proof.
  unfold handler_lat_lon. split.
  - destruct (geometry row) as [g |]; [| discriminate].
    destruct (centroid g) as [[x y] |] eqn:E; [discriminate |].
    intros _. exists g. split; [reflexivity | exact E].
  - intros [g [-> ->]]. reflexivity.
Qed.


Lemma measured_buffer_shape (src : RasterGrid) (row : Row) (rec : record) :
  measure_buffer src row = Some rec ->
  keys rec = record_columns /\
  dict_get "poi_id" rec = Some (VInt (idx row)) /\
  dict_get "buffer_distance" rec = dict_get "buffer_distance" (attrs row).
Proof.
  unfold measure_buffer.
  destruct (geometry row) as [g |]; [| discriminate].
  destruct (rasterio_mask src g) as [clipped |]; [| discriminate].
  destruct (dict_get "buffer_distance" (attrs row)) as [distance |]; [| discriminate].
  destruct (centroid g) as [[x y] |]; [| discriminate].
  destruct (population_density_of _ distance) as [density |]; [| discriminate].
  intros H. injection H as <-. repeat split.
Qed.

(** A shape that [mask] cannot place on the raster is not measured. *)
Lemma measure_buffer_no_window (src : RasterGrid) (row : Row) (g : Geometry) :
  geometry row = Some g -> geometry_window src g = None ->
  measure_buffer src row = None.
Proof.
  intros Hg Hw. unfold measure_buffer, rasterio_mask. now rewrite Hg, Hw.
Qed.

(** The loop body raises, ending the whole extraction, in two cases
    only: the row has no [buffer_distance], or its shape is empty. *)
Lemma process_buffer_none (src : RasterGrid) (row : Row) :
  process_buffer src row = None <->
  dict_get "buffer_distance" (attrs row) = None \/
  exists g, geometry row = Some g /\ centroid g = None.
Proof.
  unfold process_buffer. split.
  - destruct (measure_buffer src row) as [m |]; [discriminate |].
    unfold failed_buffer.
    destruct (dict_get "buffer_distance" (attrs row)) as [d |]; [| now left].
    destruct (handler_lat_lon row) as [[lat lon] |] eqn:E; [discriminate |].
    intros _. right. now apply handler_lat_lon_none.
  - intros [Hd | [g [Hg Hc]]].
    + unfold measure_buffer, failed_buffer. rewrite Hd.
      destruct (geometry row) as [g |]; [| reflexivity].
      destruct (rasterio_mask src g); reflexivity.
    + assert (Hw : geometry_window src g = None).
      { destruct (geometry_window src g) as [w |] eqn:E; [| reflexivity].
        exfalso. exact (window_not_empty src g w E Hc). }
      rewrite (measure_buffer_no_window src row g Hg Hw).
      unfold failed_buffer.
      destruct (dict_get "buffer_distance" (attrs row)); [| reflexivity].
      assert (Hh : handler_lat_lon row = None)
        by (apply handler_lat_lon_none; eauto).
      now rewrite Hh.
Qed.

(** C1, as the code has it. Script 09: for every point whose truncated
    cell index falls outside the array, the lookup does not raise and
    stores 0.0 for both the at-location value and the buffer value.
    Script 11: for every buffer whose shape does not overlap the raster
    ([geometry_window] fails, so [mask] raises) and is not empty, the
    handler produces a record with [population_total = 0] and
    [population_density = 0] that has the eight columns of a measured
    record and nothing else; for an empty shape the handler raises
    itself on the centroid and the row yields no record. *)
Theorem out_of_extent_reads_zero :
  (forall (data_info : DataInfo) (dataset_name : string) (poi_x poi_y : Q)
          (poi_data : record) (col row : Z),
      pixel_index data_info poi_x poi_y = Some (col, row) ->
      in_extent (data data_info) row col = false ->
      let r := extract_dataset poi_x poi_y poi_data (dataset_name, data_info) in
      dict_get (at_location_key dataset_name) r = Some (VFloat (Fin 0)) /\
      dict_get (in_buffer_key dataset_name) r = Some (VFloat (Fin 0))) /\
  (forall (src : RasterGrid) (row : Row) (g : Geometry) (distance : value),
      geometry row = Some g ->
      geometry_window src g = None ->
      dict_get "buffer_distance" (attrs row) = Some distance ->
      match centroid g with
      | Some (x, y) =>
          exists rec,
            process_buffer src row = Some rec /\
            dict_get "population_total" rec = Some (VInt 0) /\
            dict_get "population_density" rec = Some (VInt 0) /\
            dict_get "latitude" rec = Some (VFloat (Fin y)) /\
            dict_get "longitude" rec = Some (VFloat (Fin x)) /\
            keys rec = record_columns
      | None => process_buffer src row = None
      end).
Proof.
  split.
  - intros data_info dataset_name poi_x poi_y poi_data col row Hpix Hout.
    cbv zeta. unfold extract_dataset, sample_dataset.
    rewrite Hpix, Hout. split.
    + rewrite dict_get_set_other by (apply not_eq_sym, location_keys_differ).
      apply dict_get_set_same.
    + apply dict_get_set_same.
  - intros src row g distance Hg Hw Hd.
    destruct (centroid g) as [[x y] |] eqn:Hc.
    + unfold process_buffer.
      rewrite (measure_buffer_no_window src row g Hg Hw).
      unfold failed_buffer, handler_lat_lon. rewrite Hd, Hg, Hc.
      eexists. split; [reflexivity |]. repeat split.
    + apply process_buffer_none. right. eauto.
Qed.


End OutsideExtent.

(** ** Buffer generation *)

Lemma dict_get_set {V : Type} (k k0 : string) (v : V) (d : dict V) :
  dict_get k0 (dict_set k v d) = if String.eqb k0 k then Some v else dict_get k0 d.
Proof.
  destruct (String.eqb_spec k0 k) as [-> | Hne].
  - apply dict_get_set_same.
  - now apply dict_get_set_other.
Qed.

Lemma string_length_append (s t : string) :
  String.length (s ++ t) = (String.length s + String.length t)%nat.
Proof. induction s as [| ch s IH]; simpl; [reflexivity | now rewrite IH]. Qed.

Lemma append_inv_tail (s1 s2 t : string) :
  (s1 ++ t)%string = (s2 ++ t)%string -> s1 = s2.
Proof.
  revert s2. induction s1 as [| ch s1 IH]; intros [| ch2 s2] H; simpl in H.
  - reflexivity.
  - apply (f_equal String.length) in H. simpl in H.
    rewrite string_length_append in H. lia.
  - apply (f_equal String.length) in H. simpl in H.
    rewrite string_length_append in H. lia.
  - injection H as -> H. f_equal. now apply IH.
Qed.

Lemma to_int_not_nil (z : Z) :
  Z.to_int z <> Decimal.Pos Decimal.Nil /\ Z.to_int z <> Decimal.Neg Decimal.Nil.
Proof.
  split; intros H; pose proof (f_equal Z.of_int H) as H';
    rewrite DecimalZ.of_to in H'; simpl in H'; subst z; discriminate H.
Qed.

Lemma str_of_int_inj (a b : Z) : str_of_int a = str_of_int b -> a = b.
Proof.
  unfold str_of_int. intros H.
  apply (f_equal NilZero.int_of_string) in H.
  destruct (to_int_not_nil a) as [Ha1 Ha2], (to_int_not_nil b) as [Hb1 Hb2].
  rewrite !NilZero.isi in H by assumption.
  injection H as H. now apply DecimalZ.to_int_inj.
Qed.

(** Two distances never share a layer name or a column name. *)
Lemma buffer_name_inj (a b : Z) :
  Script11.buffer_name a = Script11.buffer_name b -> a = b.
Proof.
  unfold Script11.buffer_name. intros H.
  apply append_inv_head in H. apply append_inv_tail in H.
  now apply str_of_int_inj.
Qed.

Lemma flat_name_inj (v : string) (a b : Z) :
  Script11.flat_name v a = Script11.flat_name v b -> a = b.
Proof.
  unfold Script11.flat_name. intros H.
  apply append_inv_head in H. apply append_inv_head in H.
  apply append_inv_tail in H. now apply str_of_int_inj.
Qed.

Section BufferZones.
Context {L : GeoLib}.
Import Script11.

Lemma set_poi_ids_length (i : Z) (rs : list Row) :
  List.length (set_poi_ids i rs) = List.length rs.
Proof.
  revert i. induction rs as [| r rs IH]; simpl; intros i; [reflexivity |].
  now rewrite IH.
Qed.

Lemma set_poi_ids_distance (d : Z) (i : Z) (rs : list Row) :
  Forall (fun row => dict_get "buffer_distance" (attrs row) = Some (VInt d)) rs ->
  Forall (fun row => dict_get "buffer_distance" (attrs row) = Some (VInt d))
         (set_poi_ids i rs).
Proof.
  revert i. induction rs as [| r rs IH]; simpl; intros i H; constructor.
  - inversion H; subst. simpl.
    rewrite dict_get_set_other by discriminate. assumption.
  - inversion H; subst. now apply IH.
Qed.

Lemma buffers_for_total (pois_utm : GeoDataFrame) (distance : Z) :
  crs pois_utm <> None ->
  exists layer,
    buffers_for pois_utm distance = Some layer /\
    List.length (rows layer) = List.length (rows pois_utm) /\
    Forall (fun row =>
              dict_get "buffer_distance" (attrs row) = Some (VInt distance))
           (rows layer).
Proof.
  intros Hcrs. unfold buffers_for, to_crs. simpl.
  destruct (crs pois_utm) as [source |]; [| contradiction].
  eexists. split; [reflexivity |]. simpl. split.
  - now rewrite set_poi_ids_length, !length_map.
  - apply set_poi_ids_distance. apply Forall_forall. intros row Hrow.
    apply in_map_iff in Hrow. destruct Hrow as [r0 [<- _]]. simpl.
    apply dict_get_set_same.
Qed.

Lemma buffer_loop_total (pois_utm : GeoDataFrame)
      (all buffer_distances : list Z) (acc : dict GeoDataFrame) :
  crs pois_utm <> None ->
  incl buffer_distances all ->
  (forall k layer, dict_get k acc = Some layer ->
                   exists d, In d all /\ k = buffer_name d /\
                             layer_of (List.length (rows pois_utm)) d layer) ->
  exists zones,
    buffer_loop pois_utm buffer_distances acc = Some zones /\
    (forall k layer, dict_get k zones = Some layer ->
                     exists d, In d all /\ k = buffer_name d /\
                               layer_of (List.length (rows pois_utm)) d layer) /\
    (forall k, dict_get k acc <> None -> dict_get k zones <> None) /\
    (forall d, In d buffer_distances ->
               dict_get (buffer_name d) zones <> None).
Proof.
  intros Hcrs. revert acc.
  induction buffer_distances as [| d ds IH]; simpl; intros acc Hsub Hacc.
  - exists acc. split; [reflexivity |]. split; [exact Hacc |].
    split; [auto | intros d []].
  - destruct (buffers_for_total pois_utm d Hcrs) as [layer [Hl [Hlen Hdist]]].
    rewrite Hl.
    destruct (IH (dict_set (buffer_name d) layer acc)) as [zones [Hz [Hall [Hkeep Hin]]]].
    { intros d0 Hd0. apply Hsub. now right. }
    { intros k layer0. rewrite dict_get_set.
      destruct (String.eqb_spec k (buffer_name d)) as [-> | Hne].
      - intros H. injection H as <-. exists d.
        split; [apply Hsub; now left |].
        split; [reflexivity |]. split; [exact Hlen | exact Hdist].
      - apply Hacc. }
    exists zones. split; [exact Hz |]. split; [exact Hall |]. split.
    + intros k Hk. apply Hkeep. rewrite dict_get_set.
      destruct (String.eqb k (buffer_name d)); [discriminate | exact Hk].
    + intros d0 [<- | Hd0]; [| now apply Hin].
      apply Hkeep. rewrite dict_get_set_same. discriminate.
Qed.

(** C7, as the code has it. No radius is rejected: for every POI table
    with a declared reference system and every list of radii - zero
    and negative ones included - buffer generation returns normally,
    with a layer under the name of every radius of the list; the layer
    of radius [d] holds one row per POI, every row tagged with
    [buffer_distance = d], and the result holds no layer but those of
    the radii of the list. *)
Theorem buffer_zones_for_any_radii (pois : GeoDataFrame) (buffer_distances : list Z) :
  crs pois <> None ->
  exists zones,
    create_buffer_zones pois buffer_distances = Some zones /\
    (forall d, In d buffer_distances ->
               exists layer,
                 dict_get (buffer_name d) zones = Some layer /\
                 layer_of (List.length (rows pois)) d layer) /\
    (forall k layer, dict_get k zones = Some layer ->
                     exists d, In d buffer_distances /\ k = buffer_name d /\
                               layer_of (List.length (rows pois)) d layer).
Proof.
  intros Hcrs. unfold create_buffer_zones, to_crs.
  destruct (crs pois) as [source |] eqn:E; [| contradiction].
  set (pois_utm := MkGdf _ _).
  assert (Hn : List.length (rows pois_utm) = List.length (rows pois)).
  { unfold pois_utm. simpl. apply length_map. }
  destruct (buffer_loop_total pois_utm buffer_distances buffer_distances [])
    as [zones [Hz [Hall [_ Hin]]]].
  - discriminate.
  - apply incl_refl.
  - intros k layer H. discriminate.
  - rewrite Hn in Hall. exists zones. split; [exact Hz |]. split.
    + intros d Hd. specialize (Hin d Hd).
      destruct (dict_get (buffer_name d) zones) as [layer |] eqn:Hl;
        [| contradiction].
      exists layer. split; [reflexivity |].
      destruct (Hall _ _ Hl) as [d' [_ [Hname Hlayer]]].
      apply buffer_name_inj in Hname. now subst d'.
    + exact Hall.
Qed.

End BufferZones.

(** ** The fallback estimator *)

Section Fallback.
Context {L : GeoLib}.
Import Script11.

Lemma estimate_record_tagged (base_result : record) (lat lon : Q)
      (distance : Z) (draws : nat -> Q) (n : nat) :
  tagged (fst (estimate_record base_result lat lon distance draws n)).
Proof.
  unfold estimate_record, estimate_population_simple, bind, ret, np_random.
  cbv beta iota zeta. cbn [fst]. apply dict_get_set_same.
Qed.

Lemma estimate_distances_tagged (base_result : record) (lat lon : Q)
      (buffer_distances : list Z) (draws : nat -> Q) (n : nat) :
  Forall tagged
         (fst (estimate_distances base_result lat lon buffer_distances draws n)).
Proof.
  revert n. induction buffer_distances as [| d ds IH]; intros n.
  - constructor.
  - cbn [estimate_distances]. unfold bind at 1.
    pose proof (estimate_record_tagged base_result lat lon d draws n) as Hr.
    destruct (estimate_record base_result lat lon d draws n) as [r n1].
    unfold bind at 1. specialize (IH n1).
    destruct (estimate_distances base_result lat lon ds draws n1) as [rs n2].
    unfold ret. simpl. constructor; assumption.
Qed.

(** C3, as the code has it. Every record that the fallback path
    produces carries the tag [estimation_method = 'api_fallback'],
    whatever the POIs, the distances and the random draws. *)
Theorem fallback_records_tagged (pois : GeoDataFrame) (buffer_distances : list Z)
        (m : Rand (list record)) (draws : nat -> Q) (n : nat) :
  create_population_estimates_api pois buffer_distances = Some m ->
  Forall tagged (fst (m draws n)).
Proof.
  unfold create_population_estimates_api.
  revert m n. induction (rows pois) as [| poi rest IH]; intros m n H.
  - simpl in H. injection H as <-. constructor.
  - cbn [estimate_pois] in H.
    destruct (estimate_poi buffer_distances poi) as [m1 |] eqn:E1; [| discriminate].
    destruct (estimate_pois buffer_distances rest) as [m2 |] eqn:E2; [| discriminate].
    injection H as <-.
    assert (H1 : forall k, Forall tagged (fst (m1 draws k))).
    { intros k. unfold estimate_poi in E1.
      destruct (geometry poi) as [g |]; [| discriminate].
      destruct (lat_lon g) as [[lat lon] |]; [| discriminate].
      injection E1 as <-. apply estimate_distances_tagged. }
    unfold bind at 1. specialize (H1 n). destruct (m1 draws n) as [rs n1].
    unfold bind at 1. specialize (IH m2 n1 eq_refl).
    destruct (m2 draws n1) as [rss n2]. unfold ret. simpl in *.
    apply Forall_app. split; assumption.
Qed.

(** The pivot of [save_results] has no column for the tag. *)
Lemma pivot_has_no_tag_column (population_data : list record) :
  ~ In "estimation_method"%string (columns (pivot population_data)).
Proof.
  unfold pivot. cbn [columns]. intros H. apply in_app_or in H.
  destruct H as [H | H].
  - simpl in H. repeat (destruct H as [H | H]; [discriminate |]). exact H.
  - apply in_map_iff in H. destruct H as [[v d] [Hname Hin]].
    apply filter_In in Hin. destruct Hin as [Hin _].
    apply in_prod_iff in Hin. destruct Hin as [Hv _].
    unfold flat_name in Hname. simpl in Hname, Hv.
    destruct Hv as [<- | [<- | []]]; discriminate.
Qed.

Lemma estimated_population_within (u : Q) (buffer_meters : Z) :
  (0 <= u)%Q ->
  within 9 (estimated_population u buffer_meters) (exact_product u buffer_meters).
Proof.
  intros Hu. unfold estimated_population, exact_product.
  set (a := (inject_Z buffer_meters / 1000)%Q).
  assert (Hpi : within 0 np_pi np_pi) by (apply within_exact; discriminate).
  assert (H6 : within 0 6000 6000) by (apply within_exact; discriminate).
  assert (Hsq : within 3 (b64 (b64 a * b64 a)) (a * a))
    by apply within_b64, within_b64_square.
  assert (Harea : within 4 (b64 (np_pi * b64 (b64 a * b64 a))) (np_pi * (a * a))).
  { apply within_b64. exact (within_mul 0 3 _ _ _ _ Hpi Hsq). }
  assert (Ht : within 5 (b64 (b64 (np_pi * b64 (b64 a * b64 a)) * 6000))
                      (np_pi * (a * a) * 6000)).
  { apply within_b64. exact (within_mul 4 0 _ _ _ _ Harea H6). }
  assert (H8 : within 2 (b64 (8 # 10)) (8 # 10)).
  { apply (within_mono 1 2); [lia |]. apply within_b64, within_exact. discriminate. }
  assert (H4 : within 2 (b64 (b64 (4 # 10) * u)) ((4 # 10) * u)).
  { apply within_b64.
    apply (within_mul 1 0); [| now apply within_exact].
    apply within_b64, within_exact. discriminate. }
  assert (Hv : within 3 (b64 (b64 (8 # 10) + b64 (b64 (4 # 10) * u)))
                      ((8 # 10) + (4 # 10) * u)).
  { apply within_b64. now apply within_add. }
  apply within_b64. exact (within_mul 5 3 _ _ _ _ Ht Hv).
Qed.

Lemma estimated_population_nonneg (u : Q) (buffer_meters : Z) :
  (0 <= u)%Q -> (0 <= estimated_population u buffer_meters)%Q.
Proof.
  intros Hu. eapply within_nonneg. now apply estimated_population_within.
Qed.


End Fallback.

(** ** Polygon features *)

Section PolygonFeatures.
Context {L : GeoLib}.

(** Script 09 reduces a polygon to its centroid: the record of a
    polygon feature is the record of the point feature at its
    centroid. *)
Lemma poi_record_polygon_as_centroid
      (clipped_data : dict Script09.DataInfo) (i : Z) (a : record)
      (exterior : list (Q * Q)) (c : Q * Q) :
  centroid (Polygon exterior) = Some c ->
  Script09.poi_record clipped_data (MkRow i a (Some (Polygon exterior))) =
  Script09.poi_record clipped_data (MkRow i a (Some (Point (fst c) (snd c)))).
Proof.
  intros Hc. unfold Script09.poi_record, Script09.poi_coordinates. simpl.
  rewrite Hc. destruct c as [x y]. reflexivity.
Qed.

(** So does the fallback path of script 11. *)
Lemma estimate_poi_polygon_as_centroid
      (buffer_distances : list Z) (i : Z) (a : record)
      (exterior : list (Q * Q)) (c : Q * Q) :
  centroid (Polygon exterior) = Some c ->
  Script11.estimate_poi buffer_distances (MkRow i a (Some (Polygon exterior))) =
  Script11.estimate_poi buffer_distances
                        (MkRow i a (Some (Point (fst c) (snd c)))).
Proof.
  intros Hc. unfold Script11.estimate_poi, Script11.lat_lon. simpl.
  rewrite Hc. destruct c as [x y]. reflexivity.
Qed.

(** The raster path of script 11 does not: it buffers the geometry as
    it is. *)
Lemma buffers_for_buffers_the_geometry (source : Z) (i : Z) (a : record)
      (g : Geometry) (distance : Z) :
  option_map (fun layer => map geometry (rows layer))
             (Script11.buffers_for (MkGdf (Some source) [MkRow i a (Some g)])
                                   distance) =
  Some [Some (reproject source Script11.EPSG_4326 (buffer g distance))].
Proof. reflexivity. Qed.

End PolygonFeatures.

(* ================================================================== *)
(** * The scripts on concrete inputs *)

Section Runs.
Import Script09 Script11 BoxLib Samples.

(** C5 on a concrete input. A POI sits on the corner shared by the four
    cells of a 2 x 2 raster of 1000 m cells holding 10 people each, and
    the radii are 100 m and 200 m. Neither buffer contains the centre
    of a cell, so every cell of either clipped window is masked, the
    masked sum is [masked], and [float(masked)] is [nan]: both totals
    are [nan], and [nan >= nan] is false. *)
Theorem nested_buffers_total_nan :
  totals (run_raster corner_pois [100; 200] raster2) =
  Some [Some (VFloat NaN); Some (VFloat NaN)] /\
  fge NaN NaN = false /\
  totals (run_raster corner_pois [800] raster2) = Some [Some (VFloat (Fin 40))] /\
  fge (Fin 40) NaN = false.
Proof. vm_compute. repeat split. Qed.

(** C6 on a concrete input. A polygon feature (a block of 2 km x 2 km)
    and the point feature at its centroid, buffered by 800 m over a
    4 x 4 raster of 1000 m cells holding 10 people each: the polygon is
    buffered as a polygon and collects all 16 cells, the point collects
    the 4 cells around it. *)
Theorem polygon_is_not_reduced_to_centroid :
  box_centroid block = Some (2000, 2000)%Q /\
  totals (run_raster block_pois [800] raster4) = Some [Some (VFloat (Fin 160))] /\
  totals (run_raster block_centre_pois [800] raster4) =
  Some [Some (VFloat (Fin 40))].
Proof. vm_compute. repeat split. Qed.

(** C2 on a concrete input. A buffer covers a 2 x 2 raster in which
    every cell holds the no-data sentinel: [mask] returns the four
    cells masked, the filter [~np.isnan] keeps them, so
    [len(valid_data) > 0] holds, the masked sum is [masked] and the
    recorded total is [nan], where the guard [else 0] would give 0.
    Over the raster whose cells are all [nan] the filter leaves
    nothing and the total is 0.0; with a single valid cell of 100 it is
    100. *)
Theorem nodata_only_window_total_nan :
  rasterio_mask (H := lib) raster_nodata covering_buffer =
  Some [[nodata_cell; nodata_cell]; [nodata_cell; nodata_cell]] /\
  option_map (fun clipped => List.length (select_not_nan clipped))
             (rasterio_mask (H := lib) raster_nodata covering_buffer) =
  Some 4%nat /\
  option_map (dict_get "population_total")
             (process_buffer (H := lib) raster_nodata covering_row) =
  Some (Some (VFloat NaN)) /\
  option_map (dict_get "population_total")
             (process_buffer (H := lib) raster_nan covering_row) =
  Some (Some (VFloat (Fin 0))) /\
  option_map (dict_get "population_total")
             (process_buffer (H := lib) raster_single covering_row) =
  Some (Some (VFloat (Fin 100))).
Proof. vm_compute. repeat split. Qed.

(** Against C1: a point 0.4 degrees east of a 3 x 3 raster reads
    exactly what a point in the middle of the raster reads when nobody
    lives there, 0.0 for both values; and the record of a buffer 90 km
    away from a raster has the columns of the record of a buffer that
    measures zero inside the raster, with a total of zero. *)
Lemma no_coverage_reads_as_zero :
  pixel_index info_zero 78 13 = Some (480, -60) /\
  in_extent (data info_zero) (-60) 480 = false /\
  pixel_index info_zero (fst (centre 1 1)) (snd (centre 1 1)) = Some (1, 1) /\
  extract_dataset 78 13 [] ("pop"%string, info_zero) =
  [("pop_at_location", VFloat (Fin 0)); ("pop_in_buffer", VFloat (Fin 0))]%string /\
  extract_dataset (fst (centre 1 1)) (snd (centre 1 1)) [] ("pop"%string, info_zero) =
  extract_dataset 78 13 [] ("pop"%string, info_zero) /\
  box_window raster2 far_buffer = None /\
  option_map keys (process_buffer (H := lib) raster2 far_row) =
  Some record_columns /\
  option_map (dict_get "population_total")
             (process_buffer (H := lib) raster2 far_row) =
  Some (Some (VInt 0)) /\
  option_map (map keys) (run_raster corner_pois [800] raster_zero) =
  Some [record_columns] /\
  totals (run_raster corner_pois [800] raster_zero) =
  Some [Some (VFloat (Fin 0))].
Proof. vm_compute. repeat split. Qed.

(** Against C3: the records of the fallback path have no [data_source]
    field; the table that [save_results] writes for them has neither an
    [estimation_method] nor a [data_source] column, and the summary
    names the source [worldpop_python_api]. *)
Lemma tag_dropped_by_save_results :
  map (dict_get "data_source") (fallback_records draws_half) =
  [None; None; None; None; None; None] /\
  exists table summary,
    save_results (fallback_records draws_half) = Some (table, summary) /\
    columns table =
    ["poi_id"; "poi_name"; "poi_category"; "latitude"; "longitude";
     "population_density_100m"; "population_density_200m";
     "population_density_500m"; "population_total_100m";
     "population_total_200m"; "population_total_500m"]%string /\
    dict_get "data_source" summary = Some (VStr "worldpop_python_api").
Proof.
  split; [vm_compute; reflexivity |].
  eexists. eexists. split; [vm_compute; reflexivity |].
  split; reflexivity.
Qed.


(** The estimate is [int()] of the binary64 product, which is not
    always the real product truncated: for the draw of [draws_edge]
    the real product is below 151 and the estimate is 151. *)
Lemma estimate_rounds_before_truncating :
  (exact_product (draws_edge O) 100 < 151)%Q /\
  estimated_population (draws_edge O) 100 = 151%Q /\
  estimate_population_simple 0 0 100 draws_edge O = (151, 1%nat).
Proof. split; [reflexivity |]. split; vm_compute; reflexivity. Qed.

(** Against C7: the radii 0 and -5 are accepted. Both layers are
    produced and their rows are tagged with the radius; no error is
    raised on account of the radius. The buffers of the point are
    empty, and it is the extraction after buffer generation that
    gives up on them, returning [None]. *)
Lemma nonpositive_radii_accepted :
  option_map (map (fun zone =>
                     (fst zone,
                      map (fun row => (dict_get "buffer_distance" (attrs row),
                                       geometry row))
                          (rows (snd zone)))))
             (create_buffer_zones (H := lib) corner_pois [0; -5]) =
  Some [("buffer_0m"%string, [(Some (VInt 0), Some (Polygon []))]);
        ("buffer_-5m"%string, [(Some (VInt (-5)), Some (Polygon []))])] /\
  run_raster corner_pois [0; -5] raster2 = None.
Proof. vm_compute. split; reflexivity. Qed.


(** Case analysis on the pixels of a small concrete raster. *)
Ltac pixels :=
  repeat match goal with
         | H : band_value _ ?r ?c = Some _ |- _ =>
             first [is_var r; destruct r | is_var c; destruct c];
             unfold band_value in H; simpl in H; try discriminate H;
             fold (band_value) in H
         | H : match nth_error _ ?r with _ => _ end = Some _ |- _ =>
             is_var r; destruct r; simpl in H; try discriminate H
         | H : nth_error _ ?c = Some _ |- _ =>
             is_var c; destruct c; simpl in H; try discriminate H
         end.

(** The ordering of nested buffers at work: around the middle of
    [raster4] the 800 m buffer totals 40 and the 1800 m buffer 160. *)
Lemma nested_buffers_monotone_example :
  exists clipped1 clipped2,
    rasterio_mask (H := lib) raster4 buffer_800 = Some clipped1 /\
    rasterio_mask (H := lib) raster4 buffer_1800 = Some clipped2 /\
    py_float (total_population_of clipped1) = Fin 40 /\
    py_float (total_population_of clipped2) = Fin 160 /\
    fge (py_float (total_population_of clipped2))
        (py_float (total_population_of clipped1)) = true.
Proof.
  eexists. eexists. split; [vm_compute; reflexivity |].
  split; [vm_compute; reflexivity |].
  split; [vm_compute; reflexivity |].
  split; [vm_compute; reflexivity |].
  apply (nested_buffers_monotone (L := lib) raster4 buffer_800 buffer_1800).
  - intros r c v Hb. pixels; injection Hb as <-;
      right; right; eexists; (split; [reflexivity | discriminate]).
  - intros r c v Hb. pixels; vm_compute; intros; congruence.
  - intros w r c v Hw Hb. vm_compute in Hw. injection Hw as <-.
    pixels; vm_compute; intros; try discriminate; tauto.
  - vm_compute; reflexivity.
  - vm_compute; reflexivity.
  - vm_compute; discriminate.
  - vm_compute; discriminate.
Qed.

End Runs.

(** ** The theorems at concrete inputs *)

Section Witnesses.
Import Script09 Script11 BoxLib Samples.

Lemma buffer_window_in_bounds_witness :
  rectangular (data info_single) /\
  in_extent (data info_single) 0 2 = true /\
  window_bounds (data info_single) 0 2 (buffer_cells_of (1 # 1200)) = (0, 3, 0, 3) /\
  (0 <= 0 /\ 0 <= 3 /\ 3 <= shape0 (data info_single)) /\
  (0 <= 0 /\ 0 <= 3 /\ 3 <= shape1 (data info_single)).
Proof.
  assert (H1 : rectangular (data info_single)) by (repeat constructor).
  assert (H2 : in_extent (data info_single) 0 2 = true) by reflexivity.
  pose proof (buffer_window_in_bounds (data info_single) 0 2 (1 # 1200) H1 H2) as H.
  change (window_bounds (data info_single) 0 2 (buffer_cells_of (1 # 1200)))
    with (0, 3, 0, 3) in H.
  cbv iota beta in H.
  destruct H as [Hr [Hc _]].
  split; [exact H1 |]. split; [exact H2 |]. split; [reflexivity |].
  split; assumption.
Defined.


Lemma out_of_extent_reads_zero_witness :
  (pixel_index info_zero 78 13 = Some (480, -60) /\
   in_extent (data info_zero) (-60) 480 = false /\
   dict_get "pop_at_location"
            (extract_dataset 78 13 [] ("pop"%string, info_zero)) =
   Some (VFloat (Fin 0)) /\
   dict_get "pop_in_buffer"
            (extract_dataset 78 13 [] ("pop"%string, info_zero)) =
   Some (VFloat (Fin 0))) /\
  (geometry far_row = Some far_buffer /\
   geometry_window (GeoLib := lib) raster2 far_buffer = None /\
   centroid (GeoLib := lib) far_buffer = Some (90000, 90000)%Q /\
   exists rec,
     process_buffer (H := lib) raster2 far_row = Some rec /\
     dict_get "population_total" rec = Some (VInt 0) /\
     dict_get "population_density" rec = Some (VInt 0) /\
     dict_get "latitude" rec = Some (VFloat (Fin 90000)) /\
     dict_get "longitude" rec = Some (VFloat (Fin 90000)) /\
     keys rec = record_columns) /\
  (geometry_window (GeoLib := lib) raster2 (Polygon []) = None /\
   centroid (GeoLib := lib) (Polygon []) = None /\
   process_buffer (H := lib) raster2
                  (MkRow 0 [("buffer_distance"%string, VInt 0)]
                         (Some (Polygon []))) = None).
Proof.
  assert (Hp : pixel_index info_zero 78 13 = Some (480, -60)) by reflexivity.
  assert (Ho : in_extent (data info_zero) (-60) 480 = false) by reflexivity.
  assert (Hw : geometry_window (GeoLib := lib) raster2 far_buffer = None)
    by reflexivity.
  assert (Hc : centroid (GeoLib := lib) far_buffer = Some (90000, 90000)%Q)
    by reflexivity.
  assert (Hw0 : geometry_window (GeoLib := lib) raster2 (Polygon []) = None)
    by reflexivity.
  assert (Hc0 : centroid (GeoLib := lib) (Polygon []) = None) by reflexivity.
  split; [| split].
  - split; [exact Hp |]. split; [exact Ho |].
    exact (proj1 (out_of_extent_reads_zero (L := lib))
                 info_zero "pop"%string 78%Q 13%Q [] 480 (-60) Hp Ho).
  - split; [reflexivity |]. split; [exact Hw |]. split; [exact Hc |].
    pose proof (proj2 (out_of_extent_reads_zero (L := lib))
                      raster2 far_row far_buffer (VInt 100) eq_refl Hw eq_refl)
      as H.
    rewrite Hc in H. exact H.
  - split; [exact Hw0 |]. split; [exact Hc0 |].
    pose proof (proj2 (out_of_extent_reads_zero (L := lib))
                      raster2
                      (MkRow 0 [("buffer_distance"%string, VInt 0)]
                             (Some (Polygon [])))
                      (Polygon []) (VInt 0) eq_refl Hw0 eq_refl) as H.
    rewrite Hc0 in H. exact H.
Defined.


Lemma buffer_zones_for_any_radii_witness :
  crs corner_pois <> None /\
  exists zones,
    create_buffer_zones (H := lib) corner_pois [0; -5] = Some zones /\
    (exists layer, dict_get (buffer_name 0) zones = Some layer /\
                   layer_of 1 0 layer) /\
    (exists layer, dict_get (buffer_name (-5)) zones = Some layer /\
                   layer_of 1 (-5) layer).
Proof.
  assert (Hcrs : crs corner_pois <> None) by discriminate.
  split; [exact Hcrs |].
  destruct (buffer_zones_for_any_radii (L := lib) corner_pois [0; -5] Hcrs)
    as [zones [Hz [Hin _]]].
  exists zones. split; [exact Hz |]. split; apply Hin; simpl; auto.
Defined.

Lemma fallback_records_tagged_witness :
  exists m,
    create_population_estimates_api (H := lib) two_pois [100; 200; 500] = Some m /\
    Forall tagged (fst (m draws_half O)).
Proof.
  eexists. split; [reflexivity |].
  apply (fallback_records_tagged (L := lib) two_pois [100; 200; 500]).
  reflexivity.
Defined.


End Witnesses.

(* ================================================================== *)
(** * Further properties of the two scripts *)

Lemma keys_dict_set {V : Type} (k : string) (v : V) (d : dict V) :
  keys (dict_set k v d) =
  if existsb (String.eqb k) (keys d) then keys d else (keys d ++ [k])%list.
Proof.
  induction d as [| [k' v'] d IH]; simpl; [reflexivity |].
  destruct (String.eqb k k') eqn:E; simpl.
  - apply String.eqb_eq in E. now subst.
  - unfold keys in *. rewrite IH.
    destruct (existsb (String.eqb k) (map fst d)); reflexivity.
Qed.

Lemma keys_dict_set_fresh {V : Type} (k : string) (v : V) (d : dict V) :
  ~ In k (keys d) -> keys (dict_set k v d) = (keys d ++ [k])%list.
Proof.
  intros H. rewrite keys_dict_set.
  destruct (existsb (String.eqb k) (keys d)) eqn:E; [| reflexivity].
  apply existsb_exists in E. destruct E as [k' [Hin Heq]].
  apply String.eqb_eq in Heq. subst. contradiction.
Qed.

(** ** Script 09: the columns of a record *)

Lemma float_update_refl (d : record) : float_update d d.
Proof. intros k. now left. Qed.

Lemma float_update_set (k : string) (f : pyfloat) (d d' : record) :
  float_update d d' -> float_update d (dict_set k (VFloat f) d').
Proof.
  intros H k0. rewrite dict_get_set.
  destruct (String.eqb k0 k); [right; eauto | apply H].
Qed.

Lemma float_update_trans (d1 d2 d3 : record) :
  float_update d1 d2 -> float_update d2 d3 -> float_update d1 d3.
Proof.
  intros H12 H23 k. destruct (H23 k) as [E | E]; [| now right].
  rewrite E. apply H12.
Qed.

Lemma float_column_persists (d d' : record) (k : string) :
  float_update d d' ->
  (exists f, dict_get k d = Some (VFloat f)) ->
  exists f, dict_get k d' = Some (VFloat f).
Proof.
  intros H [f Hf]. destruct (H k) as [E | E]; [| exact E].
  exists f. now rewrite E.
Qed.

Section Columns09.
Import Script09.

Lemma sample_dataset_float_update (x y : Q) (name : string) (info : DataInfo)
      (pd : record) :
  float_update pd (fst (sample_dataset x y name info pd)).
Proof.
  unfold sample_dataset.
  destruct (pixel_index info x y) as [[col row] |]; [| apply float_update_refl].
  destruct (in_extent (data info) row col).
  - destruct (getitem (data info) row col) as [s |]; [| apply float_update_refl].
    destruct (Qeq_bool (fst (resolution info)) 0); simpl;
      repeat apply float_update_set; apply float_update_refl.
  - simpl. repeat apply float_update_set. apply float_update_refl.
Qed.

Lemma extract_dataset_float_update (x y : Q) (pd : record) (entry : string * DataInfo) :
  float_update pd (extract_dataset x y pd entry).
Proof.
  destruct entry as [name info]. unfold extract_dataset.
  pose proof (sample_dataset_float_update x y name info pd) as H.
  destruct (sample_dataset x y name info pd) as [pd' ok]. simpl in H.
  destruct ok; [exact H |]. now repeat apply float_update_set.
Qed.

Lemma extract_dataset_sets_both (x y : Q) (pd : record) (name : string)
      (info : DataInfo) :
  (exists f, dict_get (at_location_key name) (extract_dataset x y pd (name, info))
             = Some (VFloat f)) /\
  (exists f, dict_get (in_buffer_key name) (extract_dataset x y pd (name, info))
             = Some (VFloat f)).
Proof.
  pose proof (location_keys_differ name) as Hne.
  assert (Hne' : at_location_key name <> in_buffer_key name) by (now apply not_eq_sym).
  unfold extract_dataset, sample_dataset.
  destruct (pixel_index info x y) as [[col row] |].
  - destruct (in_extent (data info) row col).
    + destruct (getitem (data info) row col) as [s |].
      * destruct (Qeq_bool (fst (resolution info)) 0).
        -- split; eexists.
           ++ rewrite dict_get_set_other by assumption. apply dict_get_set_same.
           ++ apply dict_get_set_same.
        -- split; eexists.
           ++ rewrite dict_get_set_other by assumption. apply dict_get_set_same.
           ++ apply dict_get_set_same.
      * split; eexists.
        -- rewrite dict_get_set_other by assumption. apply dict_get_set_same.
        -- apply dict_get_set_same.
    + split; eexists.
      * rewrite dict_get_set_other by assumption. apply dict_get_set_same.
      * apply dict_get_set_same.
  - split; eexists.
    + rewrite dict_get_set_other by assumption. apply dict_get_set_same.
    + apply dict_get_set_same.
Qed.

Lemma fold_extract_float_update (x y : Q) (l : list (string * DataInfo)) (pd : record) :
  float_update pd (fold_left (extract_dataset x y) l pd).
Proof.
  revert pd. induction l as [| e l IH]; intros pd; simpl; [apply float_update_refl |].
  eapply float_update_trans; [apply extract_dataset_float_update | apply IH].
Qed.

Lemma fold_extract_sets_both (x y : Q) (l : list (string * DataInfo)) (pd : record)
      (name : string) (info : DataInfo) :
  In (name, info) l ->
  (exists f, dict_get (at_location_key name) (fold_left (extract_dataset x y) l pd)
             = Some (VFloat f)) /\
  (exists f, dict_get (in_buffer_key name) (fold_left (extract_dataset x y) l pd)
             = Some (VFloat f)).
Proof.
  revert pd. induction l as [| e l IH]; intros pd Hin; [destruct Hin |].
  simpl. destruct Hin as [-> | Hin]; [| now apply IH].
  destruct (extract_dataset_sets_both x y pd name info) as [Ha Hb].
  split; eapply float_column_persists; eauto; apply fold_extract_float_update.
Qed.

(** The dataset columns never collide with the five base columns. *)
Lemma dataset_key_not_base (name k : string) :
  In k base_columns ->
  at_location_key name <> k /\ in_buffer_key name <> k.
Proof.
  unfold at_location_key, in_buffer_key.
  intros Hk. split; intros H; apply (f_equal String.length) in H as Hlen;
    rewrite string_length_append in Hlen; simpl in Hk;
    repeat (destruct Hk as [<- | Hk]; [simpl in Hlen |]); try contradiction;
    try lia.
  - destruct name; [discriminate H | simpl in Hlen; lia].
  - destruct name as [| a [| b [| c name]]]; simpl in Hlen; try lia.
    discriminate H.
Qed.

Lemma extract_dataset_keeps_base (x y : Q) (pd : record) (entry : string * DataInfo)
      (k : string) :
  In k base_columns ->
  dict_get k (extract_dataset x y pd entry) = dict_get k pd.
Proof.
  intros Hk. destruct entry as [name info].
  destruct (dataset_key_not_base name k Hk) as [Ha Hb].
  apply not_eq_sym in Ha. apply not_eq_sym in Hb.
  unfold extract_dataset, sample_dataset.
  destruct (pixel_index info x y) as [[col row] |].
  - destruct (in_extent (data info) row col).
    + destruct (getitem (data info) row col) as [s |].
      * destruct (Qeq_bool (fst (resolution info)) 0);
          repeat (rewrite dict_get_set_other by assumption); reflexivity.
      * repeat (rewrite dict_get_set_other by assumption); reflexivity.
    + repeat (rewrite dict_get_set_other by assumption); reflexivity.
  - repeat (rewrite dict_get_set_other by assumption); reflexivity.
Qed.

Lemma fold_extract_keeps_base (x y : Q) (l : list (string * DataInfo)) (pd : record)
      (k : string) :
  In k base_columns ->
  dict_get k (fold_left (extract_dataset x y) l pd) = dict_get k pd.
Proof.
  intros Hk. revert pd. induction l as [| e l IH]; intros pd; simpl; [reflexivity |].
  rewrite IH. now apply extract_dataset_keeps_base.
Qed.

Lemma extract_dataset_keys (x y : Q) (pd : record) (name : string) (info : DataInfo) :
  ~ In (at_location_key name) (keys pd) ->
  ~ In (in_buffer_key name) (keys pd) ->
  keys (extract_dataset x y pd (name, info)) =
  (keys pd ++ [at_location_key name; in_buffer_key name])%list.
Proof.
  intros Ha Hb.
  pose proof (location_keys_differ name) as Hne.
  assert (Hb' : forall v, ~ In (in_buffer_key name)
                            (keys (dict_set (at_location_key name) v pd))).
  { intros v. rewrite keys_dict_set_fresh by exact Ha. intros H.
    apply in_app_or in H. destruct H as [H | [H | []]]; [contradiction |].
    now apply Hne. }
  assert (Hboth : forall v w,
             keys (dict_set (in_buffer_key name) w
                     (dict_set (at_location_key name) v pd)) =
             (keys pd ++ [at_location_key name; in_buffer_key name])%list).
  { intros v w. rewrite keys_dict_set_fresh by apply Hb'.
    rewrite keys_dict_set_fresh by exact Ha. now rewrite <- app_assoc. }
  assert (Hre : forall v v' w,
             keys (dict_set (in_buffer_key name) w
                     (dict_set (at_location_key name) v'
                        (dict_set (at_location_key name) v pd))) =
             (keys pd ++ [at_location_key name; in_buffer_key name])%list).
  { intros v v' w.
    assert (E : keys (dict_set (at_location_key name) v'
                        (dict_set (at_location_key name) v pd)) =
                keys (dict_set (at_location_key name) v pd)).
    { rewrite keys_dict_set.
      destruct (existsb _ _) eqn:Ex; [reflexivity |].
      exfalso. assert (Hin : In (at_location_key name)
                               (keys (dict_set (at_location_key name) v pd))).
      { rewrite keys_dict_set_fresh by exact Ha. apply in_or_app. right. now left. }
      assert (Ht : existsb (String.eqb (at_location_key name))
                     (keys (dict_set (at_location_key name) v pd)) = true).
      { apply existsb_exists. exists (at_location_key name).
        split; [exact Hin | apply String.eqb_refl]. }
      congruence. }
    rewrite keys_dict_set_fresh.
    - rewrite E. rewrite keys_dict_set_fresh by exact Ha. now rewrite <- app_assoc.
    - rewrite E. apply Hb'. }
  unfold extract_dataset, sample_dataset.
  destruct (pixel_index info x y) as [[col row] |]; [| apply Hboth].
  destruct (in_extent (data info) row col); [| apply Hboth].
  destruct (getitem (data info) row col) as [s |]; [| apply Hboth].
  destruct (Qeq_bool (fst (resolution info)) 0); [apply Hre | apply Hboth].
Qed.

Lemma cross_keys_differ (a b : string) : at_location_key a <> in_buffer_key b.
Proof.
  unfold at_location_key, in_buffer_key. revert b.
  induction a as [| c a IH]; intros b H.
  - apply (f_equal String.length) in H as Hlen.
    rewrite !string_length_append in Hlen. simpl in Hlen.
    destruct b as [| c1 [| c2 [| c3 b]]]; simpl in Hlen; try lia.
    simpl in H. discriminate H.
  - destruct b as [| c' b].
    + apply (f_equal String.length) in H. simpl in H.
      rewrite !string_length_append in H. simpl in H. lia.
    + simpl in H. injection H as _ H. now apply (IH b).
Qed.

Lemma at_location_key_inj (a b : string) :
  at_location_key a = at_location_key b -> a = b.
Proof. unfold at_location_key. apply append_inv_tail. Qed.

Lemma in_buffer_key_inj (a b : string) :
  in_buffer_key a = in_buffer_key b -> a = b.
Proof. unfold in_buffer_key. apply append_inv_tail. Qed.

Lemma fold_extract_keys (x y : Q) (l : list (string * DataInfo)) (pd : record) :
  NoDup (keys l) ->
  (forall name, In name (keys l) ->
                ~ In (at_location_key name) (keys pd) /\
                ~ In (in_buffer_key name) (keys pd)) ->
  keys (fold_left (extract_dataset x y) l pd) =
  (keys pd ++ dataset_columns (keys l))%list.
Proof.
  revert pd. induction l as [| [name info] l IH]; intros pd Hnd Hfresh.
  - simpl. now rewrite app_nil_r.
  - cbn [fold_left]. unfold keys in Hnd. cbn [map fst] in Hnd.
    inversion Hnd as [| ? ? Hnotin Hnd']; subst.
    destruct (Hfresh name) as [Ha Hb]; [now left |].
    pose proof (extract_dataset_keys x y pd name info Ha Hb) as Hk.
    rewrite IH.
    + rewrite Hk. unfold keys at 3. cbn [map fst dataset_columns flat_map].
      rewrite <- app_assoc. reflexivity.
    + exact Hnd'.
    + intros name' Hin'. rewrite Hk.
      destruct (Hfresh name') as [Ha' Hb']; [now right |].
      assert (Hne : name' <> name) by (intros ->; contradiction).
      split; intros H; apply in_app_or in H; destruct H as [H | [H | [H | []]]].
      * contradiction.
      * apply at_location_key_inj in H. congruence.
      * symmetry in H. now apply cross_keys_differ in H.
      * contradiction.
      * now apply cross_keys_differ in H.
      * apply in_buffer_key_inj in H. congruence.
Qed.

End Columns09.

Lemma all_some_None_iff {A B : Type} (f : A -> option B) (l : list A) :
  all_some (map f l) = None <-> exists x, In x l /\ f x = None.
Proof.
  induction l as [| a l IH]; simpl.
  - split; [discriminate | intros [x [[] _]]].
  - destruct (f a) as [b |] eqn:E.
    + destruct (all_some (map f l)) as [bs |] eqn:E'.
      * split; [discriminate |]. intros [x [[-> | Hx] Hn]]; [congruence |].
        destruct IH as [_ IH']. specialize (IH' (ex_intro _ x (conj Hx Hn))).
        discriminate.
      * split; [| reflexivity]. intros _. destruct IH as [IH _].
        destruct (IH eq_refl) as [x [Hx Hn]]. exists x. auto.
    + split; [| reflexivity]. intros _. exists a. auto.
Qed.

Section Analysis09.
Context {L : GeoLib}.
Import Script09.

Lemma poi_record_id (clipped_data : dict DataInfo) (poi : Row) (rec : record) :
  poi_record clipped_data poi = Some rec ->
  dict_get "poi_id" rec = Some (VInt (idx poi)).
Proof.
  unfold poi_record. destruct (geometry poi) as [g |]; [| discriminate].
  destruct (poi_coordinates g) as [[poi_x poi_y] |]; [| discriminate].
  intros H. injection H as <-.
  rewrite fold_extract_keeps_base by (simpl; auto). reflexivity.
Qed.

(** The loop body raises in two cases only: the feature has no
    geometry, or an empty one. *)
Lemma poi_record_none (clipped_data : dict DataInfo) (poi : Row) :
  poi_record clipped_data poi = None <->
  geometry poi = None \/
  exists g, geometry poi = Some g /\ poi_coordinates g = None.
Proof.
  unfold poi_record. split.
  - destruct (geometry poi) as [g |]; [| now left].
    destruct (poi_coordinates g) as [[poi_x poi_y] |] eqn:E; [discriminate |].
    intros _. right. exists g. split; [reflexivity | exact E].
  - intros [-> | [g [-> ->]]]; reflexivity.
Qed.

(** X1. Script 09, the record of one POI (lines 239-289), for any
    datasets. The five base columns hold the index of the POI, its name
    and category (or the default) and the coordinates of its point or
    centroid, whatever the names of the datasets are; and for every
    dataset of [clipped_data] both [<name>_at_location] and
    [<name>_in_buffer] are present and hold floats, also when sampling
    that dataset raised. *)
Theorem poi_record_columns (clipped_data : dict DataInfo) (poi : Row) (rec : record) :
  poi_record clipped_data poi = Some rec ->
  dict_get "poi_id" rec = Some (VInt (idx poi)) /\
  dict_get "poi_name" rec =
  Some (dict_get_default "name" (VStr "Unknown") (attrs poi)) /\
  dict_get "poi_category" rec =
  Some (dict_get_default "category" (VStr "Unknown") (attrs poi)) /\
  (exists g x y, geometry poi = Some g /\
                 poi_coordinates g = Some (x, y) /\
                 dict_get "latitude" rec = Some (VFloat (Fin y)) /\
                 dict_get "longitude" rec = Some (VFloat (Fin x))) /\
  (forall name info, In (name, info) clipped_data ->
     (exists f, dict_get (at_location_key name) rec = Some (VFloat f)) /\
     (exists f, dict_get (in_buffer_key name) rec = Some (VFloat f))).
Proof.
  unfold poi_record. destruct (geometry poi) as [g |]; [| discriminate].
  destruct (poi_coordinates g) as [[poi_x poi_y] |] eqn:Hxy; [| discriminate].
  intros H. injection H as <-.
  repeat split.
  - rewrite fold_extract_keeps_base by (simpl; auto). reflexivity.
  - rewrite fold_extract_keeps_base by (simpl; auto). reflexivity.
  - rewrite fold_extract_keeps_base by (simpl; auto). reflexivity.
  - exists g, poi_x, poi_y. split; [reflexivity |]. split; [exact Hxy |].
    rewrite !fold_extract_keeps_base by (simpl; auto 6). split; reflexivity.
  - now apply (fold_extract_sets_both poi_x poi_y clipped_data _ name info).
  - now apply (fold_extract_sets_both poi_x poi_y clipped_data _ name info).
Qed.

(** X2. Script 09, [create_poi_population_analysis] with at least one
    dataset: it raises exactly when some POI has no geometry or an
    empty one (lines 241-245 are outside any [try]), and otherwise
    returns a table with one record per POI, in the order of the POIs,
    whose [poi_id] is the index of the POI; no POI is skipped, whatever
    the rasters hold. *)
Theorem analysis_one_record_per_poi (pois : GeoDataFrame) (clipped_data : dict DataInfo) :
  clipped_data <> [] ->
  (create_poi_population_analysis pois clipped_data = None <->
   exists poi, In poi (rows pois) /\
               (geometry poi = None \/
                exists g, geometry poi = Some g /\ poi_coordinates g = None)) /\
  (forall result, create_poi_population_analysis pois clipped_data = Some result ->
     exists rs, result = Some rs /\
       map (dict_get "poi_id") rs =
       map (fun poi => Some (VInt (idx poi))) (rows pois)).
Proof.
  intros Hne. unfold create_poi_population_analysis.
  destruct clipped_data as [| e rest]; [contradiction |].
  set (cd := e :: rest) in *.
  split.
  - destruct (all_some (map (poi_record cd) (rows pois))) as [rs |] eqn:E.
    + split; [discriminate |]. intros [poi [Hin Hg]].
      assert (Hn : all_some (map (poi_record cd) (rows pois)) = None).
      { apply all_some_None_iff. exists poi. split; [exact Hin |].
        now apply poi_record_none. }
      congruence.
    + split; [| reflexivity]. intros _.
      apply all_some_None_iff in E. destruct E as [poi [Hin Hn]].
      exists poi. split; [exact Hin |]. now apply (poi_record_none cd).
  - intros result H.
    destruct (all_some (map (poi_record cd) (rows pois))) as [rs |] eqn:E;
      [| discriminate].
    injection H as <-. exists rs. split; [reflexivity |].
    apply all_some_Forall2 in E. clear - E.
    induction E as [| poi rec ps rs Hrec HF IH]; simpl; [reflexivity |].
    f_equal; [| exact IH].
    exact (poi_record_id cd poi rec Hrec).
Qed.

(** X3. Script 09, the columns of the table in order, for datasets with
    distinct names: the five base columns, then for each dataset in the
    order of [clipped_data] its [_at_location] column followed by its
    [_in_buffer] column, whether the point was sampled, fell outside
    the raster, or sampling raised. *)
Theorem poi_record_column_order (clipped_data : dict DataInfo) (poi : Row)
        (rec : record) :
  NoDup (keys clipped_data) ->
  poi_record clipped_data poi = Some rec ->
  keys rec = (base_columns ++ dataset_columns (keys clipped_data))%list.
Proof.
  intros Hnd. unfold poi_record. destruct (geometry poi) as [g |]; [| discriminate].
  destruct (poi_coordinates g) as [[poi_x poi_y] |]; [| discriminate].
  intros H. injection H as <-.
  rewrite fold_extract_keys; [reflexivity | exact Hnd |].
  intros name _. change (keys _) with base_columns.
  split; intros H.
  - now apply (proj1 (dataset_key_not_base name _ H)).
  - now apply (proj2 (dataset_key_not_base name _ H)).
Qed.

Lemma poi_record_as_centroid_point (clipped_data : dict DataInfo) (poi : Row) :
  poi_record clipped_data (as_centroid_point poi) = poi_record clipped_data poi.
Proof.
  unfold poi_record, as_centroid_point. cbn [geometry idx attrs].
  destruct (geometry poi) as [[x y | exterior] |]; cbn [option_map]; try reflexivity.
  destruct (centroid (Polygon exterior)) as [[cx cy] |] eqn:Hc.
  - cbn [poi_coordinates fst snd]. now rewrite Hc.
  - reflexivity.
Qed.

(** X4. Script 09 reduces every feature to one point: the table for a
    set of features is the table for the same features with each
    polygon replaced by the point at its centroid. *)
Theorem analysis_polygons_as_centroids
        (pois : GeoDataFrame) (clipped_data : dict DataInfo) :
  create_poi_population_analysis (centroid_points pois) clipped_data =
  create_poi_population_analysis pois clipped_data.
Proof.
  unfold create_poi_population_analysis, centroid_points. cbn [rows].
  rewrite map_map.
  rewrite (map_ext _ _ (poi_record_as_centroid_point clipped_data)). reflexivity.
Qed.

End Analysis09.

(** ** Script 09: the cell under a point *)

Lemma py_int_small (q : Q) : (-(1) < q < 1)%Q -> py_int q = 0.
Proof.
  intros [Hlo Hhi]. unfold py_int.
  destruct (Qle_bool 0 q) eqn:E.
  - apply Qle_bool_iff in E.
    pose proof (Qfloor_le q) as H1. pose proof (Qlt_floor q) as H2.
    assert (Ha : (inject_Z (Qfloor q) < inject_Z 1)%Q).
    { change (inject_Z 1) with 1%Q. lra. }
    assert (Hb : (inject_Z (-1) < inject_Z (Qfloor q))%Q).
    { rewrite inject_Z_plus in H2. change (inject_Z 1) with 1%Q in H2.
      change (inject_Z (-1)) with (-(1))%Q. lra. }
    rewrite <- Zlt_Qlt in Ha, Hb. lia.
  - assert (Hneg : (q < 0)%Q).
    { destruct (Qlt_le_dec q 0) as [H | H]; [exact H |].
      apply Qle_bool_iff in H. congruence. }
    pose proof (Qle_ceiling q) as H1. pose proof (Qceiling_lt q) as H2.
    assert (Ha : (inject_Z (-1) < inject_Z (Qceiling q))%Q).
    { change (inject_Z (-1)) with (-(1))%Q. clear H2.
      apply Qlt_le_trans with q; assumption. }
    assert (Hb : (inject_Z (Qceiling q) < inject_Z 1)%Q).
    { unfold Z.sub in H2. rewrite inject_Z_plus in H2.
      rewrite inject_Z_opp in H2. change (inject_Z 1) with 1%Q in *. lra. }
    rewrite <- Zlt_Qlt in Ha, Hb. lia.
Qed.

Lemma py_slice_nth {A : Type} (lo hi : Z) (l : list A) (i : nat) (x : A) :
  nth_error l i = Some x -> 0 <= lo -> lo <= Z.of_nat i < hi ->
  In x (py_slice lo hi l).
Proof.
  intros Hn Hlo Hi. unfold py_slice, slice_index.
  assert (Hlen : (i < List.length l)%nat) by (apply nth_error_Some; congruence).
  destruct (Z.ltb_spec lo 0); [lia |].
  destruct (Z.ltb_spec hi 0); [lia |].
  set (lo' := Z.to_nat (Z.min lo (Z.of_nat (List.length l)))).
  set (hi' := Z.to_nat (Z.min hi (Z.of_nat (List.length l)))).
  apply nth_error_In with (i - lo')%nat.
  rewrite nth_error_firstn.
  destruct (Nat.ltb_spec (i - lo') (hi' - lo')) as [Hlt | Hge]; [| unfold lo', hi' in *; lia].
  rewrite nth_error_skipn. replace (lo' + (i - lo'))%nat with i by (unfold lo'; lia).
  exact Hn.
Qed.

Lemma qsum_ge_member {I : Type} (f : I -> Q) (l : list I) (c : I) :
  (forall i, In i l -> (0 <= f i)%Q) -> In c l -> (f c <= qsum (map f l))%Q.
Proof.
  induction l as [| i l IH]; simpl; intros Hpos Hin; [contradiction |].
  assert (H0 : (0 <= f i)%Q) by (apply Hpos; auto).
  assert (Hrest : (0 <= qsum (map f l))%Q) by (apply qsum_nonneg; auto).
  destruct Hin as [-> | Hin].
  - lra.
  - assert (f c <= qsum (map f l))%Q by (apply IH; auto). lra.
Qed.

Section Reading09.
Import Script09.

Lemma pixel_index_of_coordinates (info : DataInfo) (x y cf rf : Q) :
  pixel_coordinates info x y = Some (cf, rf) ->
  pixel_index info x y = Some (py_int cf, py_int rf).
Proof. intros H. unfold pixel_index. now rewrite H. Qed.

(** What is stored for a point depends on the point through its cell
    index only. *)
Lemma extract_dataset_by_index (info : DataInfo) (x y x' y' : Q) :
  pixel_index info x y = pixel_index info x' y' ->
  forall dataset_name poi_data,
    extract_dataset x y poi_data (dataset_name, info) =
    extract_dataset x' y' poi_data (dataset_name, info).
Proof.
  intros H dataset_name poi_data.
  unfold extract_dataset, sample_dataset. now rewrite H.
Qed.

(** X5. Script 09, lines 258-265. [int()] truncates toward zero, so a
    point whose fractional cell index, as line 259 computes it in
    binary64, lies strictly between -1 and 1 in both coordinates gets
    the cell index [(0, 0)] - also when a coordinate is negative, that
    is, when the point lies left of or above the raster by less than
    a cell. Such a point gets exactly the readings of any point of the
    first cell, instead of the zeros of a point outside the raster. *)
Theorem edge_margin_reads_first_cell (info : DataInfo) (x y cf rf : Q) :
  pixel_coordinates info x y = Some (cf, rf) ->
  (-(1) < cf < 1)%Q ->
  (-(1) < rf < 1)%Q ->
  pixel_index info x y = Some (0, 0) /\
  forall x' y', pixel_index info x' y' = Some (0, 0) ->
    forall dataset_name poi_data,
      extract_dataset x y poi_data (dataset_name, info) =
      extract_dataset x' y' poi_data (dataset_name, info).
Proof.
  intros Hc Hcf Hrf.
  assert (H1 : pixel_index info x y = Some (0, 0)).
  { rewrite (pixel_index_of_coordinates info x y cf rf Hc).
    now rewrite (py_int_small cf Hcf), (py_int_small rf Hrf). }
  split; [exact H1 |]. intros x' y' H2.
  apply extract_dataset_by_index. now rewrite H1, H2.
Qed.

(** X6. Script 09, lines 265-283, for a point whose cell [(row, col)]
    lies in the array and holds [s]. With a resolution of zero both
    columns are 0.0 (the division raises, and the handler overwrites
    the value already stored). Otherwise [<name>_at_location] is the
    value of the cell, 0.0 for a cell that is [nan], and [nan] for a
    masked (no-data) cell, which [np.isnan] does not report; and
    [<name>_in_buffer] is the masked sum over the window. *)
Theorem at_location_reading (info : DataInfo) (dataset_name : string)
        (poi_x poi_y : Q) (poi_data : record) (col row : Z) (s : scalar) :
  pixel_index info poi_x poi_y = Some (col, row) ->
  in_extent (data info) row col = true ->
  getitem (data info) row col = Some s ->
  let r := extract_dataset poi_x poi_y poi_data (dataset_name, info) in
  let res := fst (resolution info) in
  if Qeq_bool res 0 then
    dict_get (at_location_key dataset_name) r = Some (VFloat (Fin 0)) /\
    dict_get (in_buffer_key dataset_name) r = Some (VFloat (Fin 0))
  else
    dict_get (at_location_key dataset_name) r =
    Some (VFloat match s with
                 | Masked => NaN
                 | Scalar NaN => Fin 0
                 | Scalar f => f
                 end) /\
    dict_get (in_buffer_key dataset_name) r =
    Some (VFloat (py_float (buffer_sum (data info) row col (buffer_cells_of res)))).
Proof.
  intros Hp He Hg. cbv zeta. unfold extract_dataset, sample_dataset.
  rewrite Hp, He, Hg.
  pose proof (location_keys_differ dataset_name) as Hne.
  destruct (Qeq_bool (fst (resolution info)) 0).
  - split; [rewrite dict_get_set_other by (now apply not_eq_sym) |];
      apply dict_get_set_same.
  - split.
    + rewrite dict_get_set_other by (now apply not_eq_sym).
      rewrite dict_get_set_same. destruct s as [| [| |]]; reflexivity.
    + apply dict_get_set_same.
Qed.

Lemma window_holds_cell (data : marray) (row col bc : Z) (rw : list mcell) (c : mcell) :
  0 <= bc -> in_extent data row col = true ->
  nth_error data (Z.to_nat row) = Some rw ->
  nth_error rw (Z.to_nat col) = Some c ->
  let '(r_min, r_max, c_min, c_max) := window_bounds data row col bc in
  In c (List.concat (slice2 r_min r_max c_min c_max data)).
Proof.
  intros Hbc Hext Hr Hc. apply in_extent_spec in Hext. destruct Hext as [Hrow Hcol].
  unfold window_bounds. cbv zeta.
  apply in_concat. exists (py_slice (Z.max 0 (col - bc))
                                    (Z.min (shape1 data) (col + bc + 1)) rw).
  split.
  - unfold slice2. apply in_map.
    apply py_slice_nth with (Z.to_nat row); [exact Hr | lia |].
    unfold shape0 in *. lia.
  - apply py_slice_nth with (Z.to_nat col); [exact Hc | lia | lia].
Qed.

Lemma window_cells_of_data (data : marray) (r_min r_max c_min c_max : Z) (c : mcell) :
  In c (List.concat (slice2 r_min r_max c_min c_max data)) -> In c (List.concat data).
Proof.
  intros H. apply in_concat in H. destruct H as [rw [Hrw Hc]].
  unfold slice2 in Hrw. apply in_map_iff in Hrw. destruct Hrw as [rw0 [<- Hrw0]].
  apply py_slice_incl in Hrw0. apply py_slice_incl in Hc.
  apply in_concat. eauto.
Qed.

(** X7. Script 09, over a raster none of whose valid cells is negative
    or infinite: for a point on a valid cell of value [v], the count in
    the buffer window is a number and at least [v], since the window
    always holds the cell of the point. *)
Theorem in_buffer_at_least_at_location
        (info : DataInfo) (dataset_name : string) (poi_x poi_y : Q)
        (poi_data : record) (col row : Z) (v : Q) :
  (forall c, In c (List.concat (data info)) -> valid c = true ->
             exists q, raw c = Fin q /\ (0 <= q)%Q) ->
  pixel_index info poi_x poi_y = Some (col, row) ->
  in_extent (data info) row col = true ->
  getitem (data info) row col = Some (Scalar (Fin v)) ->
  Qeq_bool (fst (resolution info)) 0 = false ->
  let r := extract_dataset poi_x poi_y poi_data (dataset_name, info) in
  exists q,
    dict_get (at_location_key dataset_name) r = Some (VFloat (Fin v)) /\
    dict_get (in_buffer_key dataset_name) r = Some (VFloat (Fin q)) /\
    (v <= q)%Q.
Proof.
  intros Hnn Hp He Hg Hres. cbv zeta. unfold extract_dataset, sample_dataset.
  rewrite Hp, He, Hg, Hres. cbn [scalar_isnan isnan py_float].
  pose proof (location_keys_differ dataset_name) as Hne.
  pose proof (buffer_cells_positive (fst (resolution info))) as Hbc.
  set (bc := buffer_cells_of (fst (resolution info))) in *.
  unfold getitem in Hg.
  destruct (nth_error (data info) (Z.to_nat row)) as [rw |] eqn:Er; [| discriminate].
  destruct (nth_error rw (Z.to_nat col)) as [c |] eqn:Ec; [| discriminate].
  assert (Hc : msk c = false /\ raw c = Fin v).
  { destruct (msk c); [discriminate |]. injection Hg as Hg. auto. }
  destruct Hc as [Hmsk Hraw].
  assert (Hvalid : valid c = true).
  { unfold valid, not_nan. now rewrite Hmsk, Hraw. }
  assert (Hwin := window_holds_cell (data info) row col bc rw c ltac:(lia) He Er Ec).
  unfold buffer_sum.
  destruct (window_bounds (data info) row col bc) as [[[r_min r_max] c_min] c_max].
  set (window := List.concat (slice2 r_min r_max c_min c_max (data info))) in *.
  assert (Hex : existsb valid window = true).
  { apply existsb_exists. eauto. }
  assert (Hfin : Forall (fun c0 => valid c0 = true -> exists q, raw c0 = Fin q) window).
  { apply Forall_forall. intros c0 Hc0 Hv0.
    destruct (Hnn c0 (window_cells_of_data _ _ _ _ _ _ Hc0) Hv0) as [q [Hq _]]. eauto. }
  destruct (valid_sum_fin window Hfin) as [q [Hsum Hq]].
  unfold ma_sum, select_not_nan. fold window.
  rewrite (valid_cell_not_all_masked _ Hex). cbn [py_float].
  assert (Hfeq : feq (fold_left fadd (map filled0 (filter not_nan window)) (Fin 0))
                     (valid_sum window)).
  { unfold valid_sum. rewrite <- (filter_valid_not_nan window).
    apply filled_sum_is_valid_sum. apply forallb_filter_same. }
  rewrite Hsum in Hfeq. destruct (feq_fin_inv _ _ Hfeq) as [q' [Hq' Hqq]].
  exists q'. split; [| split].
  - rewrite dict_get_set_other by (now apply not_eq_sym). apply dict_get_set_same.
  - rewrite dict_get_set_same, Hq'. reflexivity.
  - rewrite Hqq, Hq.
    assert (Hcv : (cell_value c == v)%Q).
    { unfold cell_value. rewrite Hvalid, Hraw. reflexivity. }
    rewrite <- Hcv. apply qsum_ge_member; [| exact Hwin].
    intros c0 Hc0. unfold cell_value. destruct (valid c0) eqn:Hv0; [| apply Qle_refl].
    destruct (Hnn c0 (window_cells_of_data _ _ _ _ _ _ Hc0) Hv0) as [q0 [-> Hq0]].
    exact Hq0.
Qed.

End Reading09.

(** ** Script 11: buffer zones *)

Section Zones.
Context {L : GeoLib}.
Import Script11.

Lemma existsb_buffer_name (d : Z) (acc : list Z) :
  existsb (String.eqb (buffer_name d)) (map buffer_name acc) = existsb (Z.eqb d) acc.
Proof.
  induction acc as [| a acc IH]; cbn [map existsb]; [reflexivity |]. rewrite IH. f_equal.
  destruct (Z.eqb_spec d a) as [-> | Hne]; [apply String.eqb_refl |].
  apply String.eqb_neq. intros H. apply buffer_name_inj in H. contradiction.
Qed.

Lemma set_poi_ids_layer_rows (distance i : Z) (rs : list Row) :
  set_poi_ids i
    (map (fun r => MkRow (idx r)
                         (dict_set "buffer_distance" (VInt distance) (attrs r))
                         (geometry r))
         (map (fun r => MkRow (idx r) (attrs r)
                              (option_map (reproject EPSG_32643 EPSG_4326) (geometry r)))
              (map (fun r => MkRow (idx r) (attrs r)
                                   (option_map (fun g => buffer g distance) (geometry r)))
                   rs)))
  = layer_rows distance i rs.
Proof.
  revert i. induction rs as [| r rs IH]; intros i; simpl; [reflexivity |].
  rewrite IH. f_equal. destruct (geometry r); reflexivity.
Qed.

Lemma buffers_for_closed (rs : list Row) (distance : Z) :
  buffers_for (MkGdf (Some EPSG_32643) rs) distance =
  Some (MkGdf (Some EPSG_4326) (layer_rows distance 0 rs)).
Proof.
  unfold buffers_for, to_crs. simpl. now rewrite set_poi_ids_layer_rows.
Qed.

Lemma buffer_loop_closed (rs : list Row) (all : list Z) (ds : list Z)
      (acc : dict GeoDataFrame) (accd : list Z) :
  (forall d, In d ds -> In d all) ->
  keys acc = map buffer_name accd ->
  (forall k layer, dict_get k acc = Some layer ->
     exists d, In d all /\ k = buffer_name d /\
               layer = MkGdf (Some EPSG_4326) (layer_rows d 0 rs)) ->
  exists zones,
    buffer_loop (MkGdf (Some EPSG_32643) rs) ds acc = Some zones /\
    keys zones =
    map buffer_name
        (fold_left (fun acc d => if existsb (Z.eqb d) acc then acc else acc ++ [d])
                   ds accd) /\
    (forall k layer, dict_get k zones = Some layer ->
       exists d, In d all /\ k = buffer_name d /\
                 layer = MkGdf (Some EPSG_4326) (layer_rows d 0 rs)).
Proof.
  revert acc accd. induction ds as [| d ds IH]; intros acc accd Hsub Hkeys Hinv.
  - exists acc. simpl. auto.
  - cbn [buffer_loop]. rewrite buffers_for_closed. cbn [fold_left].
    apply IH.
    + intros d0 Hd0. apply Hsub. now right.
    + rewrite keys_dict_set, Hkeys, existsb_buffer_name.
      destruct (existsb (Z.eqb d) accd); [reflexivity |].
      now rewrite map_app.
    + intros k layer. rewrite dict_get_set.
      destruct (String.eqb_spec k (buffer_name d)) as [-> | Hne].
      * intros H. injection H as <-. exists d. split; [apply Hsub; now left | auto].
      * apply Hinv.
Qed.

Lemma layer_rows_spec (source distance : Z) (i : Z) (rs : list Row) :
  Forall2 (buffer_row_of source distance) rs
          (layer_rows distance i
             (map (fun r => MkRow (idx r) (attrs r)
                                  (option_map (reproject source EPSG_32643) (geometry r)))
                  rs)) /\
  map (fun row => dict_get "poi_id" (attrs row))
      (layer_rows distance i
         (map (fun r => MkRow (idx r) (attrs r)
                              (option_map (reproject source EPSG_32643) (geometry r)))
              rs))
  = map (fun k => Some (VInt (i + Z.of_nat k))) (seq 0 (List.length rs)).
Proof.
  revert i. induction rs as [| r rs IH]; intros i; simpl.
  - split; [constructor | reflexivity].
  - destruct (IH (i + 1)) as [HF Hids]. split.
    + constructor; [| exact HF].
      unfold buffer_row_of. simpl. repeat split.
      * destruct (geometry r); reflexivity.
      * rewrite dict_get_set_other by discriminate. apply dict_get_set_same.
      * intros key H1 H2. now rewrite !dict_get_set_other by assumption.
    + rewrite dict_get_set_same. f_equal; [f_equal; f_equal; lia |].
      rewrite Hids. rewrite <- seq_shift, map_map.
      apply map_ext. intros k. f_equal. f_equal. lia.
Qed.

(** X8. [create_buffer_zones] raises exactly when the POI table has no
    reference system; otherwise the layers are named [buffer_<d>m] for
    the distinct distances [d] of the list, each once, in the order of
    their first occurrence (a repeated distance overwrites its own
    layer). *)
Theorem buffer_zone_names (pois : GeoDataFrame) (buffer_distances : list Z) :
  (create_buffer_zones pois buffer_distances = None <-> crs pois = None) /\
  (forall zones, create_buffer_zones pois buffer_distances = Some zones ->
                 keys zones = map buffer_name (first_occurrences buffer_distances)).
Proof.
  unfold create_buffer_zones, to_crs.
  destruct (crs pois) as [source |].
  - set (rs := map _ (rows pois)).
    destruct (buffer_loop_closed rs buffer_distances buffer_distances [] [])
      as [zones [Hz [Hk _]]]; auto.
    { intros k layer H. discriminate. }
    rewrite Hz. split.
    + split; discriminate.
    + intros z H. injection H as <-. exact Hk.
  - split; [split; reflexivity | discriminate].
Qed.

(** X9. Every layer that [create_buffer_zones] returns belongs to a
    distance [d] of the list, is in EPSG:4326, and has one row per POI
    in the order of the POIs: the row keeps the index and the
    attributes of its POI, its shape is the shape of the POI projected
    to UTM 43N, widened by [d] and projected back, [buffer_distance] is
    [d], and [poi_id] is the position of the row, not the index of the
    POI. *)
Theorem buffer_zones_keep_features (pois : GeoDataFrame) (buffer_distances : list Z)
        (zones : dict GeoDataFrame) (k : string) (layer : GeoDataFrame) :
  create_buffer_zones pois buffer_distances = Some zones ->
  dict_get k zones = Some layer ->
  exists d source,
    In d buffer_distances /\ k = buffer_name d /\
    crs pois = Some source /\ crs layer = Some EPSG_4326 /\
    Forall2 (buffer_row_of source d) (rows pois) (rows layer) /\
    poi_ids layer = range (List.length (rows pois)).
Proof.
  unfold create_buffer_zones, to_crs.
  destruct (crs pois) as [source |]; [| discriminate].
  set (rs := map _ (rows pois)).
  destruct (buffer_loop_closed rs buffer_distances buffer_distances [] [])
    as [zones' [Hz [_ Hinv]]]; auto.
  { intros k0 layer0 H. discriminate. }
  rewrite Hz. intros H Hk. injection H as <-.
  destruct (Hinv k layer Hk) as [d [Hd [-> ->]]].
  exists d, source. repeat split; auto.
  - apply layer_rows_spec.
  - unfold poi_ids, range. simpl. unfold rs.
    rewrite (proj2 (layer_rows_spec source d 0 (rows pois))). reflexivity.
Qed.

Lemma dict_set_layer_entry (rs : list Row) (d : Z) (accd : list Z) :
  dict_set (buffer_name d) (snd (layer_entry rs d)) (map (layer_entry rs) accd) =
  map (layer_entry rs) (if existsb (Z.eqb d) accd then accd else accd ++ [d]).
Proof.
  induction accd as [| a accd IH]; [reflexivity |].
  cbn [map existsb]. unfold layer_entry at 2. cbn [dict_set].
  destruct (Z.eqb_spec d a) as [-> | Hne].
  - rewrite String.eqb_refl. reflexivity.
  - assert (Hs : String.eqb (buffer_name d) (buffer_name a) = false).
    { apply String.eqb_neq. intros H. apply buffer_name_inj in H. contradiction. }
    rewrite Hs. cbn [orb]. rewrite IH.
    destruct (existsb (Z.eqb d) accd); reflexivity.
Qed.

Lemma buffer_loop_zones (rs : list Row) (ds accd : list Z) :
  buffer_loop (MkGdf (Some EPSG_32643) rs) ds (map (layer_entry rs) accd) =
  Some (map (layer_entry rs)
            (fold_left (fun acc d => if existsb (Z.eqb d) acc then acc else acc ++ [d])
                       ds accd)).
Proof.
  revert accd. induction ds as [| d ds IH]; intros accd; [reflexivity |].
  cbn [buffer_loop fold_left]. rewrite buffers_for_closed.
  change (MkGdf (Some EPSG_4326) (layer_rows d 0 rs)) with (snd (layer_entry rs d)).
  rewrite dict_set_layer_entry. apply IH.
Qed.

Lemma layer_rows_ids (d i : Z) (rs : list Row) :
  Forall2 (fun r row => idx row = idx r /\
                        dict_get "buffer_distance" (attrs row) = Some (VInt d))
          rs (layer_rows d i rs).
Proof.
  revert i. induction rs as [| r rs IH]; intros i; simpl; constructor; [| apply IH].
  simpl. split; [reflexivity |].
  rewrite dict_get_set_other by discriminate. apply dict_get_set_same.
Qed.

End Zones.

(** ** Script 11: the raster path *)

Lemma all_some_None_In {A : Type} (l : list (option A)) :
  all_some l = None <-> In None l.
Proof.
  induction l as [| o l IH]; simpl.
  - split; [discriminate | tauto].
  - destruct o as [x |].
    + destruct (all_some l) as [xs |].
      * split; [discriminate |]. intros [H | H]; [discriminate |].
        apply IH in H. discriminate.
      * split; [| reflexivity]. intros _. right. now apply IH.
    + split; auto.
Qed.

Lemma all_some_map_total {A B : Type} (f : A -> option B) (P : A -> B -> Prop)
      (l : list A) :
  (forall x, In x l -> exists y, f x = Some y /\ P x y) ->
  exists ys, all_some (map f l) = Some ys /\ Forall2 P l ys.
Proof.
  induction l as [| x l IH]; intros H; simpl.
  - exists []. split; [reflexivity | constructor].
  - destruct (H x) as [y [Hy HP]]; [now left |].
    destruct IH as [ys [Hys HF]]; [intros x0 Hx0; apply H; now right |].
    exists (y :: ys). rewrite Hy, Hys. split; [reflexivity | now constructor].
Qed.

Lemma flat_map_map_rows {A B C : Type} (f : B -> C) (g : A -> list B) (l : list A) :
  flat_map (fun x => map f (g x)) l = map f (flat_map g l).
Proof.
  induction l as [| x l IH]; simpl; [reflexivity |]. now rewrite IH, map_app.
Qed.

Lemma Forall2_map_eq {A B C : Type} (f : A -> C) (g : B -> C) (l : list A) (l' : list B) :
  Forall2 (fun x y => g y = f x) l l' -> map g l' = map f l.
Proof. induction 1; simpl; congruence. Qed.

Section Extraction.
Context {L : GeoLib}.
Import Script11.

(** The extraction from a raster that opens gives up exactly on a row
    without [buffer_distance] or with an empty shape. *)
Lemma extraction_shape (src : RasterGrid) (buffer_zones : dict GeoDataFrame) :
  extract_population_from_raster (Some src) buffer_zones = None <->
  exists name layer row,
    In (name, layer) buffer_zones /\ In row (rows layer) /\
    (dict_get "buffer_distance" (attrs row) = None \/
     exists g, geometry row = Some g /\ centroid g = None).
Proof.
  unfold extract_population_from_raster.
  rewrite all_some_None_In, in_flat_map. split.
  - intros [[name layer] [Hz Hin]]. simpl in Hin.
    apply in_map_iff in Hin. destruct Hin as [row [Hp Hrow]].
    exists name, layer, row. repeat split; auto. now apply (process_buffer_none src).
  - intros [name [layer [row [Hz [Hrow Hd]]]]].
    exists (name, layer). split; [exact Hz |]. simpl.
    apply in_map_iff. exists row. split; [| exact Hrow].
    now apply process_buffer_none.
Qed.

(** X10. [extract_population_from_raster] returns [None] in exactly
    three cases: the raster cannot be opened; some buffer row has no
    [buffer_distance], so that the handler raises [KeyError] itself at
    line 226; or some buffer row has an empty shape, on which [mask]
    raises and then the handler raises too, reading the centroid at
    line 227. Any other failure of a row (no geometry, no overlap with
    the raster, a distance that is not a number) is absorbed by the
    handler. *)
Theorem extraction_fails_without_distance
        (raster : option RasterGrid) (buffer_zones : dict GeoDataFrame) :
  extract_population_from_raster raster buffer_zones = None <->
  raster = None \/
  exists name layer row,
    In (name, layer) buffer_zones /\ In row (rows layer) /\
    (dict_get "buffer_distance" (attrs row) = None \/
     exists g, geometry row = Some g /\ centroid g = None).
Proof.
  destruct raster as [src |].
  - rewrite extraction_shape. split; [auto |].
    intros [H | H]; [discriminate | exact H].
  - split; auto.
Qed.

(** X11. The raster path on a buffer whose window holds no pixel centre
    (every cell masked, some datum not [nan]): the row does not fail,
    its record has [population_total = nan] and the integer 0 as
    [population_density], and it takes no part in the
    [population_total] columns of the pivot table. *)
Theorem masked_window_record (src : RasterGrid) (row : Row) (g : Geometry)
        (clipped : marray) (distance : value) :
  geometry row = Some g ->
  rasterio_mask src g = Some clipped ->
  dict_get "buffer_distance" (attrs row) = Some distance ->
  forallb msk (List.concat clipped) = true ->
  existsb not_nan (List.concat clipped) = true ->
  exists rec,
    process_buffer src row = Some rec /\
    dict_get "population_total" rec = Some (VFloat NaN) /\
    dict_get "population_density" rec = Some (VInt 0) /\
    live "population_total" rec = false.
Proof.
  intros Hg Hm Hd Hall Hsome.
  pose proof (all_masked_total_nan clipped Hall Hsome) as Hnan.
  unfold process_buffer, measure_buffer. rewrite Hg, Hm, Hd.
  destruct (mask_has_centroid _ _ _ Hm) as [x [y ->]].
  unfold population_density_of. rewrite Hnan. cbn [fgt0].
  eexists. split; [reflexivity |]. split; [reflexivity |]. split; [reflexivity |].
  unfold live. destruct (index_key _); [| reflexivity].
  destruct (distance_of _); reflexivity.
Qed.


Lemma process_buffer_ids (src : RasterGrid) (row : Row) (rec : record) :
  process_buffer src row = Some rec ->
  id_and_distance rec =
  (Some (VInt (idx row)), dict_get "buffer_distance" (attrs row)).
Proof.
  unfold process_buffer, id_and_distance.
  destruct (measure_buffer src row) as [m |] eqn:Hm.
  - intros H. injection H as <-.
    destruct (measured_buffer_shape src row m Hm) as [_ [H1 H2]].
    now rewrite H1, H2.
  - unfold failed_buffer.
    destruct (dict_get "buffer_distance" (attrs row)) as [d |]; [| discriminate].
    destruct (handler_lat_lon row) as [[lat lon] |]; [| discriminate].
    intros H. injection H as <-. reflexivity.
Qed.

Lemma in_first_occurrences_fold (d : Z) (l acc : list Z) :
  In d (fold_left (fun acc d => if existsb (Z.eqb d) acc then acc else acc ++ [d])
                  l acc) <->
  In d acc \/ In d l.
Proof.
  revert acc. induction l as [| a l IH]; intros acc; cbn [fold_left].
  - simpl. tauto.
  - rewrite IH. destruct (existsb (Z.eqb a) acc) eqn:E.
    + apply existsb_exists in E. destruct E as [a' [Ha' Heq]].
      apply Z.eqb_eq in Heq. subst a'. simpl. split.
      * intros [H | H]; auto.
      * intros [H | [<- | H]]; auto.
    + rewrite in_app_iff. simpl. tauto.
Qed.

Lemma in_first_occurrences (d : Z) (l : list Z) :
  In d (first_occurrences l) <-> In d l.
Proof.
  unfold first_occurrences. rewrite in_first_occurrences_fold. simpl. tauto.
Qed.

(** X13. The raster branch of [main], for a POI table with a reference
    system and a raster that opens. Buffer generation succeeds. The
    extraction gives up, returning [None], exactly when the buffer of
    some POI for some distance of the list is an empty shape (as the
    buffer of a point for a radius that is not positive). Otherwise it
    yields one record per pair of a distinct distance and a POI, the
    distances in the order of their first occurrence and, within a
    distance, the POIs in table order; the record carries the index of
    the POI as [poi_id] and the distance. *)
Theorem raster_pipeline_one_record_per_pair
        (pois : GeoDataFrame) (buffer_distances : list Z) (src : RasterGrid)
        (source : Z) :
  crs pois = Some source ->
  exists zones,
    create_buffer_zones pois buffer_distances = Some zones /\
    (extract_population_from_raster (Some src) zones = None <->
     exists d poi g,
       In d buffer_distances /\ In poi (rows pois) /\
       geometry poi = Some g /\ centroid (buffered source d g) = None) /\
    (forall results,
        extract_population_from_raster (Some src) zones = Some results ->
        map id_and_distance results =
        flat_map (fun d => map (fun poi => (Some (VInt (idx poi)), Some (VInt d)))
                               (rows pois))
                 (first_occurrences buffer_distances)).
Proof.
  intros Hcrs. unfold create_buffer_zones, to_crs. rewrite Hcrs.
  set (rs := map _ (rows pois)).
  pose proof (buffer_loop_zones rs buffer_distances []) as Hz. cbn [map] in Hz.
  rewrite Hz. eexists. split; [reflexivity |].
  fold (first_occurrences buffer_distances). clear Hz. split.
  - rewrite (extraction_shape src). split.
    + intros [name [layer [row [Hz [Hrow Hbad]]]]].
      apply in_map_iff in Hz. destruct Hz as [d [Hd Hin]].
      unfold layer_entry in Hd. injection Hd as _ <-. cbn [rows] in Hrow.
      apply (proj1 (in_first_occurrences _ _)) in Hin.
      destruct (Forall2_In_r _ _ _ _
                  (proj1 (layer_rows_spec source d 0 (rows pois))) Hrow)
        as [poi [Hpoi [_ [Hgeo [Hdist _]]]]].
      destruct Hbad as [Hnone | [g' [Hg' Hc]]]; [congruence |].
      rewrite Hg' in Hgeo.
      destruct (geometry poi) as [g |] eqn:Hg; [| discriminate].
      injection Hgeo as ->. exists d, poi, g. auto.
    + intros [d [poi [g [Hd [Hpoi [Hg Hc]]]]]].
      destruct (Forall2_In_l _ _ _ _
                  (proj1 (layer_rows_spec source d 0 (rows pois))) Hpoi)
        as [row [Hrow [_ [Hgeo _]]]].
      exists (buffer_name d), (MkGdf (Some EPSG_4326) (layer_rows d 0 rs)), row.
      split; [| split].
      * change (In (layer_entry rs d)
                   (map (layer_entry rs) (first_occurrences buffer_distances))).
        apply in_map. now apply in_first_occurrences.
      * exact Hrow.
      * right. exists (buffered source d g). rewrite Hgeo, Hg. auto.
  - intros results Hres. unfold extract_population_from_raster in Hres.
    rewrite flat_map_map_rows in Hres.
    apply all_some_Forall2 in Hres.
    assert (HF : Forall2 (fun row rec =>
                            id_and_distance rec =
                            (Some (VInt (idx row)),
                             dict_get "buffer_distance" (attrs row)))
                         (flat_map (fun zone => rows (snd zone))
                            (map (layer_entry rs)
                                 (first_occurrences buffer_distances)))
                         results).
    { eapply Forall2_impl; [| exact Hres].
      intros row rec. apply process_buffer_ids. }
    rewrite (Forall2_map_eq _ _ _ _ HF). clear Hres HF.
    induction (first_occurrences buffer_distances) as [| d ds IH]; [reflexivity |].
    cbn [map flat_map layer_entry snd rows]. rewrite map_app, IH. f_equal.
    unfold rs. clear. generalize 0 as i.
    induction (rows pois) as [| r l IHl]; intros i; [reflexivity |].
    cbn [map layer_rows attrs idx]. rewrite IHl. f_equal.
    rewrite dict_get_set_other by discriminate. now rewrite dict_get_set_same.
Qed.

End Extraction.

(** ** Script 11: the fallback estimator *)

Lemma py_int_mono (p q : Q) : (p <= q)%Q -> py_int p <= py_int q.
Proof.
  intros H. unfold py_int.
  destruct (Qle_bool 0 p) eqn:Ep; destruct (Qle_bool 0 q) eqn:Eq.
  - now apply Qfloor_resp_le.
  - apply Qle_bool_iff in Ep.
    assert (Hq : (0 <= q)%Q) by (apply Qle_trans with p; assumption).
    apply Qle_bool_iff in Hq. congruence.
  - apply Qle_bool_iff in Eq.
    assert (Hp : (p <= 0)%Q).
    { destruct (Qlt_le_dec p 0) as [Hlt | Hge]; [now apply Qlt_le_weak |].
      apply Qle_bool_iff in Hge. congruence. }
    apply Z.le_trans with 0.
    + change 0 with (Qceiling 0). now apply Qceiling_resp_le.
    + change 0 with (Qfloor 0). now apply Qfloor_resp_le.
  - now apply Qceiling_resp_le.
Qed.

Lemma square_nonneg (x : Q) : (0 <= x * x)%Q.
Proof.
  destruct (Qlt_le_dec x 0) as [Hneg | Hpos].
  - setoid_replace (x * x)%Q with ((- x) * (- x))%Q by ring.
    apply Qmult_le_0_compat; lra.
  - now apply Qmult_le_0_compat.
Qed.

Lemma np_pi_pos : (0 < np_pi)%Q.
Proof. reflexivity. Qed.

Section FallbackShape.
Context {L : GeoLib}.
Import Script11.

Lemma estimate_distances_cons (base : record) (lat lon : Q) (d : Z) (ds : list Z)
      (draws : nat -> Q) (n : nat) :
  estimate_distances base lat lon (d :: ds) draws n =
  (fst (estimate_record base lat lon d draws n)
   :: fst (estimate_distances base lat lon ds draws (S n)),
   snd (estimate_distances base lat lon ds draws (S n))).
Proof.
  cbn [estimate_distances]. unfold bind, ret.
  unfold estimate_record, estimate_population_simple, bind, ret, np_random.
  cbn [fst snd].
  destruct (estimate_distances base lat lon ds draws (S n)). reflexivity.
Qed.

Lemma estimate_distances_shape (i : Z) (tail : record) (lat lon : Q)
      (ds : list Z) (draws : nat -> Q) (n : nat) :
  let base := ("poi_id"%string, VInt i) :: tail in
  map id_and_distance (fst (estimate_distances base lat lon ds draws n)) =
  map (fun d => (Some (VInt i), Some (VInt d))) ds /\
  snd (estimate_distances base lat lon ds draws n) = (n + List.length ds)%nat.
Proof.
  cbv zeta. revert n. induction ds as [| d ds IH]; intros n.
  - simpl. split; [reflexivity | lia].
  - rewrite estimate_distances_cons. destruct (IH (S n)) as [IH1 IH2].
    cbn [fst snd map List.length]. rewrite IH1, IH2. split; [| lia].
    f_equal. unfold estimate_record, estimate_population_simple, bind, ret, np_random.
    cbn [fst]. unfold id_and_distance.
    rewrite !dict_get_set_other by discriminate.
    rewrite dict_get_set_same. reflexivity.
Qed.

Lemma estimate_poi_none (ds : list Z) (poi : Row) :
  estimate_poi ds poi = None <->
  geometry poi = None \/ exists g, geometry poi = Some g /\ lat_lon g = None.
Proof.
  unfold estimate_poi. split.
  - destruct (geometry poi) as [g |]; [| now left].
    destruct (lat_lon g) as [[lat lon] |] eqn:E; [discriminate |].
    intros _. right. exists g. split; [reflexivity | exact E].
  - intros [-> | [g [-> ->]]]; reflexivity.
Qed.

Lemma estimate_pois_None (ds : list Z) (ps : list Row) :
  estimate_pois ds ps = None <->
  exists poi, In poi ps /\
              (geometry poi = None \/
               exists g, geometry poi = Some g /\ lat_lon g = None).
Proof.
  induction ps as [| p ps IH]; cbn [estimate_pois].
  - split; [discriminate | intros [poi [[] _]]].
  - destruct (estimate_poi ds p) as [m |] eqn:Ep.
    + destruct (estimate_pois ds ps) as [ms |].
      * split; [discriminate |]. intros [poi [[<- | Hin] Hn]].
        -- apply (estimate_poi_none ds) in Hn. congruence.
        -- destruct IH as [_ IH]. specialize (IH (ex_intro _ poi (conj Hin Hn))).
           discriminate.
      * split; [| reflexivity]. intros _. destruct IH as [IH _].
        destruct (IH eq_refl) as [poi [Hin Hn]]. exists poi. split; [now right | exact Hn].
    + split; [| reflexivity]. intros _. exists p. split; [now left |].
      now apply (estimate_poi_none ds).
Qed.

(** X14. [create_population_estimates_api], for distances of at most
    [max_radius] metres, raises exactly when some POI has no geometry
    or an empty one (lines 247-251 are outside any [try]). Otherwise
    it yields one record per pair of a POI and a distance of the list,
    POI by POI in table order and, within a POI, in list order (a
    repeated distance gives a repeated record), each with the index of
    the POI and the distance; and it draws exactly one random number
    per record. *)
Theorem fallback_one_record_per_pair (pois : GeoDataFrame) (buffer_distances : list Z) :
  Forall (fun d => Z.abs d <= max_radius) buffer_distances ->
  (create_population_estimates_api pois buffer_distances = None <->
   exists poi, In poi (rows pois) /\
               (geometry poi = None \/
                exists g, geometry poi = Some g /\ lat_lon g = None)) /\
  (forall m draws n,
      create_population_estimates_api pois buffer_distances = Some m ->
      map id_and_distance (fst (m draws n)) =
      flat_map (fun poi => map (fun d => (Some (VInt (idx poi)), Some (VInt d)))
                               buffer_distances)
               (rows pois) /\
      snd (m draws n) =
      (n + List.length (rows pois) * List.length buffer_distances)%nat).
Proof.
  intros _.
  unfold create_population_estimates_api. split; [apply estimate_pois_None |].
  induction (rows pois) as [| p ps IH]; intros m draws n H.
  - simpl in H. injection H as <-. simpl. split; [reflexivity | lia].
  - cbn [estimate_pois] in H.
    destruct (estimate_poi buffer_distances p) as [m1 |] eqn:E1; [| discriminate].
    destruct (estimate_pois buffer_distances ps) as [m2 |] eqn:E2; [| discriminate].
    injection H as <-.
    unfold estimate_poi in E1. destruct (geometry p) as [g |]; [| discriminate].
    destruct (lat_lon g) as [[lat lon] |]; [| discriminate]. injection E1 as <-.
    unfold bind, ret.
    match goal with
    | |- context [estimate_distances ?b lat lon buffer_distances draws n] =>
        destruct (estimate_distances_shape (idx p) (tl b) lat lon buffer_distances draws n)
          as [S1 S2]
    end.
    cbn [tl] in S1, S2.
    destruct (estimate_distances _ lat lon buffer_distances draws n) as [rs n1].
    cbn [fst snd] in S1, S2.
    destruct (IH m2 draws n1 eq_refl) as [I1 I2].
    destruct (m2 draws n1) as [rss n2]. cbn [fst snd] in *.
    cbn [flat_map List.length]. rewrite map_app, S1, I1. split; [reflexivity | lia].
Qed.

Lemma estimate_poi_as_centroid_point (buffer_distances : list Z) (poi : Row) :
  estimate_poi buffer_distances (as_centroid_point poi) =
  estimate_poi buffer_distances poi.
Proof.
  unfold estimate_poi, as_centroid_point. cbn [geometry idx attrs].
  destruct (geometry poi) as [[x y | exterior] |]; cbn [option_map]; try reflexivity.
  destruct (centroid (Polygon exterior)) as [[cx cy] |] eqn:Hc.
  - cbn [lat_lon option_map fst snd]. now rewrite Hc.
  - reflexivity.
Qed.

(** X15. The fallback path reduces every feature to one point too: the
    estimates for a set of features are those for the same features
    with each polygon replaced by the point at its centroid. *)
Theorem fallback_polygons_as_centroids
        (pois : GeoDataFrame) (buffer_distances : list Z) :
  create_population_estimates_api (centroid_points pois) buffer_distances =
  create_population_estimates_api pois buffer_distances.
Proof.
  unfold create_population_estimates_api, centroid_points. cbn [rows].
  induction (rows pois) as [| poi ps IH]; [reflexivity |].
  cbn [map estimate_pois]. now rewrite estimate_poi_as_centroid_point, IH.
Qed.

End FallbackShape.

Section FallbackNumbers.
Import Script11.

Lemma exact_product_bounds (u : Q) (d : Z) :
  (0 <= u < 1)%Q ->
  let area := (np_pi * (inject_Z d * inject_Z d))%Q in
  (area * (48 # 10000) <= exact_product u d)%Q /\
  (exact_product u d <= area * (72 # 10000))%Q /\
  (d <> 0 -> (exact_product u d < area * (72 # 10000))%Q).
Proof.
  intros [Hu0 Hu1]. cbv zeta.
  assert (Ha : (0 <= np_pi * (inject_Z d * inject_Z d))%Q).
  { apply Qmult_le_0_compat; [apply Qlt_le_weak, np_pi_pos | apply square_nonneg]. }
  assert (E : (exact_product u d ==
               np_pi * (inject_Z d * inject_Z d) * ((48 # 10000) + (24 # 10000) * u))%Q).
  { unfold exact_product. field. }
  rewrite E. set (a := (np_pi * (inject_Z d * inject_Z d))%Q) in *.
  split; [| split].
  - nra.
  - nra.
  - intros Hd. apply Qmult_lt_l; [| lra].
    unfold a. apply Qmult_lt_0_compat; [apply np_pi_pos |].
    assert (Hne : ~ (inject_Z d == 0)%Q).
    { intros Hz. apply Hd. unfold Qeq in Hz. simpl in Hz. lia. }
    pose proof (square_nonneg (inject_Z d)) as Hs.
    destruct (Qlt_le_dec 0 (inject_Z d * inject_Z d)) as [Hlt | Hle]; [exact Hlt |].
    exfalso. apply Hne.
    assert (Hz : (inject_Z d * inject_Z d == 0)%Q) by (apply Qle_antisym; assumption).
    apply Qmult_integral in Hz. tauto.
Qed.

(** The binary64 estimate against the area of the buffer. *)
Lemma estimated_population_bounds (u : Q) (d : Z) :
  (0 <= u < 1)%Q ->
  let area := (np_pi * (inject_Z d * inject_Z d))%Q in
  (area * (48 # 10000) * (1 - tolerance) <= estimated_population u d)%Q /\
  (estimated_population u d <= area * (72 # 10000) * (1 + tolerance))%Q /\
  (d <> 0 ->
   (estimated_population u d < area * (72 # 10000) * (1 + tolerance))%Q).
Proof.
  intros Hu. cbv zeta.
  destruct (exact_product_bounds u d Hu) as [Hlo [Hhi Hlt]].
  destruct (within_tolerance _ _ (estimated_population_within u d (proj1 Hu)))
    as [Tlo Thi].
  assert (T1 : (0 < 1 - tolerance)%Q) by reflexivity.
  assert (T2 : (0 < 1 + tolerance)%Q) by reflexivity.
  split; [| split].
  - eapply Qle_trans; [| exact Tlo].
    apply Qmult_le_compat_r; [exact Hlo | now apply Qlt_le_weak].
  - eapply Qle_trans; [exact Thi |].
    apply Qmult_le_compat_r; [exact Hhi | now apply Qlt_le_weak].
  - intros Hd. eapply Qle_lt_trans; [exact Thi |].
    apply Qmult_lt_compat_r; [exact T2 | now apply Hlt].
Qed.

Lemma py_int_below (q : Q) : (0 <= q)%Q -> 0 <= py_int q /\ (inject_Z (py_int q) <= q)%Q.
Proof.
  intros H. split.
  - change 0 with (py_int 0). now apply py_int_mono.
  - unfold py_int. apply Qle_bool_iff in H. rewrite H. apply Qfloor_le.
Qed.

Lemma hectares_pos (d : Z) : d <> 0 -> (0 < hectares (inject_Z d))%Q.
Proof.
  intros Hd. unfold hectares.
  assert (H : (0 < inject_Z d * inject_Z d)%Q).
  { destruct (Qlt_le_dec 0 (inject_Z d * inject_Z d)) as [Hlt | Hle]; [exact Hlt |].
    exfalso. pose proof (square_nonneg (inject_Z d)) as Hs.
    assert (Hz : (inject_Z d * inject_Z d == 0)%Q) by (apply Qle_antisym; assumption).
    apply Qmult_integral in Hz. apply Hd.
    destruct Hz as [Hz | Hz]; unfold Qeq in Hz; simpl in Hz; lia. }
  pose proof np_pi_pos as Hpi.
  apply Qlt_shift_div_l; [reflexivity |].
  rewrite Qmult_0_l. now apply Qmult_lt_0_compat.
Qed.

Lemma estimated_population_zero (u : Q) :
  (0 <= u)%Q -> (estimated_population u 0 == 0)%Q.
Proof.
  intros Hu.
  destruct (estimated_population_within u 0 Hu) as [_ [Hlo Hhi]].
  assert (E : (exact_product u 0 == 0)%Q) by (unfold exact_product; field).
  rewrite E in Hlo, Hhi. lra.
Qed.

(** X16. One fallback record, for a draw in [0, 1) and a distance of at
    most [max_radius] metres: [population_total] is an integer that is
    not negative; when it is 0 the density is the integer 0, and
    otherwise the density is [population_total] divided by the buffer
    area in hectares, which lies strictly between 0 and
    [72 * (1 + 2^-49)] people per hectare: 72 is the bound of the real
    product, and the binary64 product can exceed the real one by the
    relative error [2^-49]. (The quotient itself, which is only
    stored, is read as an exact rational.) *)
Theorem fallback_density_bound (base_result : record) (lat lon : Q) (distance : Z)
        (draws : nat -> Q) (n : nat) :
  (0 <= draws n < 1)%Q ->
  Z.abs distance <= max_radius ->
  let r := fst (estimate_record base_result lat lon distance draws n) in
  exists p,
    dict_get "population_total" r = Some (VInt p) /\
    0 <= p /\
    ((p = 0 /\ dict_get "population_density" r = Some (VInt 0)) \/
     (0 < p /\
      exists q,
        dict_get "population_density" r = Some (VFloat (Fin q)) /\
        (q == inject_Z p / hectares (inject_Z distance))%Q /\
        (0 < q < 72 * (1 + tolerance))%Q)).
Proof.
  intros Hu _. cbv zeta.
  unfold estimate_record, estimate_population_simple, bind, ret, np_random.
  cbv beta iota zeta. cbn [fst].
  set (p := py_int (estimated_population (draws n) distance)).
  exists p.
  pose proof (estimated_population_nonneg (draws n) distance (proj1 Hu)) as Hnn.
  destruct (py_int_below _ Hnn) as [Hp0 Hple]. fold p in Hp0, Hple.
  split.
  { rewrite !dict_get_set_other by discriminate. apply dict_get_set_same. }
  split; [exact Hp0 |].
  rewrite dict_get_set_other by discriminate. rewrite dict_get_set_same.
  destruct (Z.ltb_spec 0 p) as [Hpos | Hle].
  - right. split; [exact Hpos |]. eexists. split; [reflexivity |].
    split; [apply Qred_correct |]. rewrite Qred_correct.
    assert (Hd : distance <> 0).
    { intros ->. unfold p in Hpos.
      pose proof (estimated_population_zero (draws n) (proj1 Hu)) as Hz.
      assert (Hp : py_int (estimated_population (draws n) 0) <= py_int 0).
      { apply py_int_mono. rewrite Hz. apply Qle_refl. }
      change (py_int 0) with 0 in Hp. lia. }
    pose proof (hectares_pos distance Hd) as Hh.
    destruct (estimated_population_bounds (draws n) distance Hu) as [_ [_ Hlt]].
    specialize (Hlt Hd). split.
    + apply Qlt_shift_div_l; [exact Hh |]. rewrite Qmult_0_l.
      change 0%Q with (inject_Z 0). rewrite <- Zlt_Qlt. exact Hpos.
    + apply Qlt_shift_div_r; [exact Hh |].
      apply Qle_lt_trans with (estimated_population (draws n) distance); [exact Hple |].
      eapply Qlt_le_trans; [exact Hlt |].
      unfold hectares. apply Qle_lteq. right. field.
  - left. split; [lia | reflexivity].
Qed.

(** No two integers other than 0 have squares in the ratio 3 : 2. *)
Lemma squares_not_in_ratio (k : nat) (a b : Z) :
  Z.abs a < Z.of_nat k -> 3 * (a * a) = 2 * (b * b) -> a = 0.
Proof.
  revert a b. induction k as [| k IH]; intros a b Ha H; [lia |].
  destruct (Z.eq_dec a 0) as [E | E]; [exact E |].
  pose proof (Z.div_mod a 2 ltac:(lia)) as Da.
  pose proof (Z.mod_pos_bound a 2 ltac:(lia)) as Ma.
  pose proof (Z.div_mod b 2 ltac:(lia)) as Db.
  pose proof (Z.mod_pos_bound b 2 ltac:(lia)) as Mb.
  set (a1 := a / 2) in *. set (b1 := b / 2) in *.
  assert (Ea : a mod 2 = 0).
  { destruct (Z.eq_dec (a mod 2) 0) as [E0 | E0]; [exact E0 |].
    assert (E1 : a mod 2 = 1) by lia. rewrite E1 in Da. rewrite Da in H.
    exfalso. lia. }
  rewrite Ea in Da. rewrite Z.add_0_r in Da.
  assert (Eb : b mod 2 = 0).
  { destruct (Z.eq_dec (b mod 2) 0) as [E0 | E0]; [exact E0 |].
    assert (E1 : b mod 2 = 1) by lia. rewrite E1 in Db. rewrite Da, Db in H.
    exfalso. lia. }
  rewrite Eb in Db. rewrite Z.add_0_r in Db.
  assert (H1 : 3 * (a1 * a1) = 2 * (b1 * b1)).
  { rewrite Da, Db in H. lia. }
  assert (Ha1 : Z.abs a1 < Z.of_nat k) by lia.
  specialize (IH a1 b1 Ha1 H1). lia.
Qed.

Lemma separated_squares (r1 r2 : Z) :
  3 * (r1 * r1) <= 2 * (r2 * r2) -> r2 <> 0 -> 3 * (r1 * r1) + 1 <= 2 * (r2 * r2).
Proof.
  intros H Hr2.
  destruct (Z.eq_dec (3 * (r1 * r1)) (2 * (r2 * r2))) as [E | E]; [| lia].
  assert (H1 : r1 = 0).
  { apply (squares_not_in_ratio (S (Z.to_nat (Z.abs r1))) r1 r2); [lia | exact E]. }
  subst r1. exfalso. nia.
Qed.

(** X17. The fallback estimates of two radii of at most [max_radius]
    metres are ordered whenever the radii are far enough apart,
    [3 * r1^2 <= 2 * r2^2] (as 100, 200 and 500 are): whatever the two
    draws in [0, 1) are, the estimate for [r1] is at most the estimate
    for [r2]. *)
Theorem fallback_monotone_for_separated_radii
        (lat1 lon1 lat2 lon2 : Q) (r1 r2 : Z) (draws : nat -> Q) (n m : nat) :
  (0 <= draws n < 1)%Q -> (0 <= draws m < 1)%Q ->
  3 * (r1 * r1) <= 2 * (r2 * r2) ->
  Z.abs r2 <= max_radius ->
  fst (estimate_population_simple lat1 lon1 r1 draws n) <=
  fst (estimate_population_simple lat2 lon2 r2 draws m).
Proof.
  intros Hn Hm Hr Hmax.
  unfold estimate_population_simple, bind, ret, np_random. cbn [fst].
  apply py_int_mono.
  destruct (estimated_population_bounds (draws n) r1 Hn) as [_ [Hup _]].
  destruct (estimated_population_bounds (draws m) r2 Hm) as [Hlow _].
  eapply Qle_trans; [exact Hup |]. eapply Qle_trans; [| exact Hlow].
  pose proof np_pi_pos as Hpi.
  assert (Hq : (3 * (inject_Z (r1 * r1)) * (1 + tolerance)
                <= 2 * (inject_Z (r2 * r2)) * (1 - tolerance))%Q).
  { destruct (Z.eq_dec r2 0) as [-> | Hr2].
    - assert (r1 = 0) by nia. subst r1. discriminate.
    - pose proof (separated_squares r1 r2 Hr Hr2) as Hs.
      assert (Hb : r2 * r2 <= 1000000 * 1000000).
      { unfold max_radius in Hmax. nia. }
      rewrite Zle_Qle in Hs, Hb.
      rewrite inject_Z_plus, !inject_Z_mult in Hs.
      rewrite !inject_Z_mult in Hb. rewrite !inject_Z_mult.
      change (inject_Z 3) with 3%Q in Hs. change (inject_Z 2) with 2%Q in Hs.
      change (inject_Z 1) with 1%Q in Hs.
      change (inject_Z 1000000) with 1000000%Q in Hb.
      set (a := (inject_Z r1 * inject_Z r1)%Q) in *.
      set (b := (inject_Z r2 * inject_Z r2)%Q) in *.
      assert (Ha : (0 <= a)%Q) by apply square_nonneg.
      change tolerance with (1 # 562949953421312)%Q. lra. }
  rewrite !inject_Z_mult in Hq.
  set (a := (inject_Z r1 * inject_Z r1)%Q) in *.
  set (b := (inject_Z r2 * inject_Z r2)%Q) in *.
  setoid_replace (np_pi * a * (72 # 10000) * (1 + tolerance))%Q
    with (np_pi * (24 # 10000) * (3 * a * (1 + tolerance)))%Q by ring.
  setoid_replace (np_pi * b * (48 # 10000) * (1 - tolerance))%Q
    with (np_pi * (24 # 10000) * (2 * b * (1 - tolerance)))%Q by ring.
  apply Qmult_le_l; [| exact Hq].
  apply Qmult_lt_0_compat; [exact Hpi | reflexivity].
Qed.

End FallbackNumbers.

(** ** Script 11: the pivot table of [save_results] *)

Section Table.
Import Script11.

Lemma insert_sorted_In {A : Type} (cmp : A -> A -> comparison) (x y : A) (l : list A) :
  In y (insert_sorted cmp x l) -> y = x \/ In y l.
Proof.
  induction l as [| z l IH]; simpl.
  - intros [<- | []]. now left.
  - destruct (cmp x z).
    + auto.
    + intros [<- | H]; auto.
    + intros [<- | H]; [right; now left |].
      destruct (IH H); auto.
Qed.

Lemma insert_sorted_keeps {A : Type} (cmp : A -> A -> comparison) (x y : A) (l : list A) :
  In y l -> In y (insert_sorted cmp x l).
Proof.
  induction l as [| z l IH]; simpl; [tauto |].
  destruct (cmp x z); simpl; intros [<- | H]; auto.
Qed.

Lemma insert_sorted_adds {A : Type} (cmp : A -> A -> comparison) (x : A) (l : list A) :
  (forall a, cmp a a = Eq) ->
  exists y, In y (insert_sorted cmp x l) /\ cmp x y = Eq.
Proof.
  intros Hrefl. induction l as [| z l IH]; simpl.
  - exists x. auto.
  - destruct (cmp x z) eqn:E.
    + exists z. simpl. auto.
    + exists x. simpl. auto.
    + destruct IH as [y [Hy Hc]]. exists y. simpl. auto.
Qed.

Lemma fold_insert_In {A : Type} (cmp : A -> A -> comparison) (l acc : list A) (y : A) :
  In y (fold_left (fun acc x => insert_sorted cmp x acc) l acc) -> In y acc \/ In y l.
Proof.
  revert acc. induction l as [| x l IH]; simpl; intros acc H; [auto |].
  destruct (IH _ H) as [H1 | H1]; [| auto].
  destruct (insert_sorted_In _ _ _ _ H1) as [-> | H2]; auto.
Qed.

Lemma sorted_unique_In {A : Type} (cmp : A -> A -> comparison) (l : list A) (y : A) :
  In y (sorted_unique cmp l) -> In y l.
Proof.
  unfold sorted_unique. intros H. destruct (fold_insert_In _ _ _ _ H) as [[] | H']. exact H'.
Qed.

Lemma fold_insert_keeps {A : Type} (cmp : A -> A -> comparison) (l acc : list A) (y : A) :
  In y acc -> In y (fold_left (fun acc x => insert_sorted cmp x acc) l acc).
Proof.
  revert acc. induction l as [| x l IH]; simpl; intros acc H; [exact H |].
  apply IH. now apply insert_sorted_keeps.
Qed.

Lemma sorted_unique_represents {A : Type} (cmp : A -> A -> comparison) (l : list A) (x : A) :
  (forall a, cmp a a = Eq) ->
  In x l -> exists y, In y (sorted_unique cmp l) /\ cmp x y = Eq.
Proof.
  intros Hrefl. unfold sorted_unique. generalize (@nil A) as acc.
  induction l as [| z l IH]; simpl; intros acc H; [contradiction |].
  destruct H as [-> | H].
  - destruct (insert_sorted_adds cmp x acc Hrefl) as [y [Hy Hc]].
    exists y. split; [| exact Hc]. now apply fold_insert_keeps.
  - now apply IH.
Qed.

Lemma sorted_unique_complete_Z (l : list Z) (x : Z) :
  In x l -> In x (sorted_unique Z.compare l).
Proof.
  intros H.
  destruct (sorted_unique_represents Z.compare l x Z.compare_refl H) as [y [Hy Hc]].
  apply Z.compare_eq in Hc. now subst.
Qed.

Lemma filter_some_In {A : Type} (l : list (option A)) (x : A) :
  In x (filter_some l) <-> In (Some x) l.
Proof.
  induction l as [| [y |] l IH]; simpl.
  - tauto.
  - rewrite IH. split; intros [H | H]; auto; [left; congruence | left; congruence].
  - rewrite IH. split; [auto | intros [H | H]; [discriminate | exact H]].
Qed.

Lemma string_compare_refl (s : string) : String.compare s s = Eq.
Proof.
  induction s as [| a s IH]; simpl; [reflexivity |].
  unfold Ascii.compare. now rewrite N.compare_refl.
Qed.

Lemma nth_error_map_inv {A B : Type} (f : A -> B) (l : list A) (i : nat) (y : B) :
  nth_error (map f l) i = Some y -> exists x, nth_error l i = Some x /\ f x = y.
Proof.
  revert i. induction l as [| a l IH]; intros [| i]; simpl; intros H; try discriminate.
  - injection H as <-. eauto.
  - now apply IH.
Qed.

Lemma nth_of_nth_error {A : Type} (l : list A) (i : nat) (x d : A) :
  nth_error l i = Some x -> nth i l d = x.
Proof.
  revert i. induction l as [| a l IH]; intros [| i]; simpl; intros H; try discriminate.
  - now injection H.
  - now apply IH.
Qed.

Lemma index_key_length (r : record) (k : list value) :
  index_key r = Some k -> List.length k = 5%nat.
Proof.
  unfold index_key. intros H. apply all_some_Forall2 in H.
  apply Forall2_length in H. rewrite <- H. reflexivity.
Qed.

Lemma value_compare_refl (x : value) : value_compare x x = Eq.
Proof.
  unfold value_compare. destruct x as [z | [| | q] | s | l]; simpl.
  - apply Qeq_alt. reflexivity.
  - reflexivity.
  - reflexivity.
  - apply Qeq_alt. reflexivity.
  - apply string_compare_refl.
  - reflexivity.
Qed.

Lemma key_compare_refl (k : list value) : key_compare k k = Eq.
Proof.
  induction k as [| x k IH]; simpl; [reflexivity |].
  now rewrite value_compare_refl.
Qed.

Lemma live_somewhere_of_live (v : string) (r : record) :
  In v value_columns -> live v r = true -> live_somewhere r = true.
Proof.
  intros Hv Hl. unfold live_somewhere. apply existsb_exists. eauto.
Qed.

Lemma pivot_row_inv (population_data : list record) (row : list value) :
  In row (body (pivot population_data)) ->
  exists r k vals,
    In r population_data /\ live_somewhere r = true /\ index_key r = Some k /\
    row = k ++ vals /\
    List.length vals = (List.length (columns (pivot population_data)) - 5)%nat.
Proof.
  unfold pivot. cbn [body columns]. intros H. apply in_map_iff in H.
  destruct H as [k [<- Hk]].
  apply sorted_unique_In in Hk. apply filter_some_In in Hk.
  apply in_map_iff in Hk. destruct Hk as [r [Hr Hin]].
  apply filter_In in Hin. destruct Hin as [Hin Hl].
  exists r, k. eexists. split; [exact Hin |]. split; [exact Hl |].
  split; [exact Hr |]. split; [reflexivity |].
  rewrite length_app, !length_map. simpl. lia.
Qed.

Lemma pivot_row_intro (population_data : list record) (r : record) (k : list value) :
  In r population_data -> live_somewhere r = true -> index_key r = Some k ->
  exists k' vals,
    In (k' ++ vals) (body (pivot population_data)) /\
    List.length k' = 5%nat /\ key_compare k k' = Eq.
Proof.
  intros Hin Hl Hk. unfold pivot. cbn [body].
  set (keys := filter_some (map index_key (filter live_somewhere population_data))).
  assert (Hkin : In k keys).
  { apply filter_some_In. rewrite <- Hk. apply in_map. apply filter_In. auto. }
  destruct (sorted_unique_represents key_compare keys k key_compare_refl Hkin)
    as [k' [Hk' Hc]].
  exists k'. eexists. split.
  - apply in_map_iff. exists k'. split; [reflexivity | exact Hk'].
  - split; [| exact Hc].
    apply sorted_unique_In in Hk'. apply filter_some_In in Hk'.
    apply in_map_iff in Hk'. destruct Hk' as [r' [Hr' _]].
    now apply index_key_length with r'.
Qed.

Lemma column_index_In (name : string) (cols : list string) (i : nat) :
  column_index name cols = Some i -> In name cols.
Proof.
  revert i. induction cols as [| c cols IH]; simpl; intros i H; [discriminate |].
  destruct (String.eqb_spec name c) as [-> | Hne]; [now left |].
  destruct (column_index name cols) as [j |]; [| discriminate]. right. now apply IH with j.
Qed.

Lemma column_index_found (name : string) (cols : list string) :
  In name cols -> exists i, column_index name cols = Some i.
Proof.
  induction cols as [| c cols IH]; simpl; [contradiction |].
  intros H. destruct (String.eqb_spec name c) as [-> | Hne]; [eauto |].
  destruct H as [-> | H]; [contradiction |].
  destruct (IH H) as [i ->]. simpl. eauto.
Qed.

Lemma column_index_app (name : string) (l1 l2 : list string) :
  ~ In name l1 ->
  column_index name (l1 ++ l2) =
  option_map (Nat.add (List.length l1)) (column_index name l2).
Proof.
  induction l1 as [| c l1 IH]; simpl; intros H.
  - destruct (column_index name l2); reflexivity.
  - destruct (String.eqb_spec name c) as [-> | Hne]; [tauto |].
    rewrite IH by tauto. destruct (column_index name l2); reflexivity.
Qed.

Lemma column_index_nth_error (name : string) (cols : list string) (i : nat) :
  column_index name cols = Some i -> nth_error cols i = Some name.
Proof.
  revert i. induction cols as [| c cols IH]; simpl; intros i H; [discriminate |].
  destruct (String.eqb_spec name c) as [-> | Hne].
  - injection H as <-. reflexivity.
  - destruct (column_index name cols) as [j |]; [| discriminate].
    injection H as <-. simpl. now apply IH.
Qed.

Lemma pivot_column_inv (population_data : list record) (name : string) :
  In name (columns (pivot population_data)) ->
  In name index_columns \/
  exists v d r,
    In v value_columns /\ name = flat_name v d /\
    In r population_data /\ live v r = true /\ distance_of r = Some d.
Proof.
  unfold pivot. cbn [columns]. intros H. apply in_app_or in H.
  destruct H as [H | H]; [now left | right].
  apply in_map_iff in H. destruct H as [[v d] [Hname Hin]].
  apply filter_In in Hin. destruct Hin as [Hin Hex]. cbn [fst snd] in *.
  apply in_prod_iff in Hin. destruct Hin as [Hv _].
  apply existsb_exists in Hex. destruct Hex as [r [Hr Hlive]].
  apply andb_prop in Hlive. destruct Hlive as [Hl Hd].
  exists v, d, r. split; [exact Hv |]. split; [now symmetry |].
  split; [exact Hr |]. split; [exact Hl |].
  destruct (distance_of r) as [d' |]; [| discriminate].
  apply Z.eqb_eq in Hd. now subst.
Qed.

Lemma pivot_column_intro (population_data : list record) (v : string) (d : Z)
      (r : record) :
  In v value_columns -> In r population_data -> live v r = true ->
  distance_of r = Some d ->
  In (flat_name v d) (columns (pivot population_data)).
Proof.
  intros Hv Hr Hl Hd. unfold pivot. cbn [columns]. apply in_or_app. right.
  apply in_map_iff. exists (v, d). split; [reflexivity |].
  apply filter_In. split.
  - apply in_prod_iff. split; [exact Hv |].
    apply sorted_unique_complete_Z. apply filter_some_In. rewrite <- Hd.
    apply in_map. apply filter_In. split; [exact Hr |].
    now apply live_somewhere_of_live with v.
  - apply existsb_exists. exists r. split; [exact Hr |]. cbn [fst snd].
    rewrite Hl, Hd, Z.eqb_refl. reflexivity.
Qed.

Lemma flat_name_not_index (v : string) (d : Z) :
  In v value_columns -> ~ In (flat_name v d) index_columns.
Proof.
  unfold flat_name. intros Hv H. simpl in Hv.
  destruct Hv as [<- | [<- | []]]; simpl in H;
    repeat (destruct H as [H | H]; [discriminate |]); exact H.
Qed.

Lemma flat_name_inj_pair (v v' : string) (d d' : Z) :
  In v value_columns -> In v' value_columns ->
  flat_name v d = flat_name v' d' -> v = v' /\ d = d'.
Proof.
  intros Hv Hv' H. simpl in Hv, Hv'.
  destruct Hv as [<- | [<- | []]]; destruct Hv' as [<- | [<- | []]].
  - split; [reflexivity | now apply flat_name_inj in H].
  - unfold flat_name in H. simpl in H. discriminate.
  - unfold flat_name in H. simpl in H. discriminate.
  - split; [reflexivity | now apply flat_name_inj in H].
Qed.

(** X18. Every row of the pivot table has one cell per column, and its
    first five cells are the index tuple (POI id, name, category,
    latitude, longitude) of some input record that has a distance and a
    value that is not null: no row is made up. *)
Theorem pivot_rows_from_records (population_data : list record) (row : list value) :
  In row (body (pivot population_data)) ->
  List.length row = List.length (columns (pivot population_data)) /\
  exists r, In r population_data /\ live_somewhere r = true /\
            index_key r = Some (firstn 5 row).
Proof.
  intros H. destruct (pivot_row_inv _ _ H) as [r [k [vals [Hr [Hl [Hk [-> Hlen]]]]]]].
  pose proof (index_key_length _ _ Hk) as H5. split.
  - rewrite length_app, H5, Hlen. unfold pivot. cbn [columns].
    rewrite length_app. simpl. lia.
  - exists r. split; [exact Hr |]. split; [exact Hl |].
    rewrite <- H5, firstn_app, Nat.sub_diag, firstn_all. simpl. now rewrite app_nil_r.
Qed.

(** X19. Conversely, every input record with a complete index tuple, a
    distance and a population value that is not null is represented in
    the pivot table: some row starts with an index tuple equal to its
    own (as pandas compares labels). A record with a null name or
    category is not: the grouping drops it. *)
Theorem pivot_keeps_every_live_record (population_data : list record) (r : record)
        (k : list value) :
  In r population_data -> live_somewhere r = true -> index_key r = Some k ->
  exists row, In row (body (pivot population_data)) /\
              key_compare k (firstn 5 row) = Eq.
Proof.
  intros Hr Hl Hk.
  destruct (pivot_row_intro _ _ _ Hr Hl Hk) as [k' [vals [Hin [H5 Hc]]]].
  exists (k' ++ vals). split; [exact Hin |].
  rewrite <- H5, firstn_app, Nat.sub_diag, firstn_all. simpl. now rewrite app_nil_r.
Qed.

(** X20. The columns of the pivot table are the five index columns
    followed by columns named [<value>_<d>m], where [<value>] is
    [population_density] or [population_total]; and the column
    [<value>_<d>m] is present exactly when some input record with a
    complete index tuple has the distance [d] and a value of [<value>]
    that is not null. A distance all of whose totals are [nan] has no
    [population_total] column. *)
Theorem pivot_value_columns (population_data : list record) :
  (forall name, In name (columns (pivot population_data)) ->
                In name index_columns \/
                exists v d, In v value_columns /\ name = flat_name v d) /\
  (forall v d, In v value_columns ->
     (In (flat_name v d) (columns (pivot population_data)) <->
      exists r, In r population_data /\ live v r = true /\ distance_of r = Some d)).
Proof.
  split.
  - intros name H.
    destruct (pivot_column_inv _ _ H) as [Hi | [v [d [r [Hv [Hn _]]]]]]; [now left |].
    right. eauto.
  - intros v d Hv. split.
    + intros H.
      destruct (pivot_column_inv _ _ H) as [Hi | [v' [d' [r [Hv' [Hn [Hr [Hl Hd]]]]]]]].
      * now apply flat_name_not_index in Hi.
      * destruct (flat_name_inj_pair _ _ _ _ Hv Hv' Hn) as [<- <-]. eauto.
    + intros [r [Hr [Hl Hd]]]. now apply pivot_column_intro with r.
Qed.

Lemma value_compare_eq_trans (x y z : value) :
  value_compare x y = Eq -> value_compare y z = Eq -> value_compare x z = Eq.
Proof.
  unfold value_compare.
  destruct x as [a | [| | a] | a | a], y as [b | [| | b] | b | b],
           z as [c | [| | c] | c | c];
    cbn [num_of_value]; intros H1 H2; try discriminate; try reflexivity;
    try (apply Qeq_alt; apply Qeq_alt in H1; apply Qeq_alt in H2;
         now rewrite H1).
  apply String.compare_eq_iff in H1. apply String.compare_eq_iff in H2.
  subst. apply string_compare_refl.
Qed.

Lemma value_compare_eq_sym (x y : value) :
  value_compare x y = Eq -> value_compare y x = Eq.
Proof.
  unfold value_compare.
  destruct x as [a | [| | a] | a | a], y as [b | [| | b] | b | b];
    cbn [num_of_value]; intros H1; try discriminate; try reflexivity;
    try (apply Qeq_alt; apply Qeq_alt in H1; now symmetry).
  apply String.compare_eq_iff in H1. subst. apply string_compare_refl.
Qed.

Lemma key_compare_eq_trans (k1 k2 k3 : list value) :
  key_compare k1 k2 = Eq -> key_compare k2 k3 = Eq -> key_compare k1 k3 = Eq.
Proof.
  revert k2 k3. induction k1 as [| x k1 IH]; intros [| y k2] [| z k3];
    simpl; intros H1 H2; try discriminate; try reflexivity.
  destruct (value_compare x y) eqn:E1; try discriminate.
  destruct (value_compare y z) eqn:E2; try discriminate.
  rewrite (value_compare_eq_trans x y z E1 E2). now apply IH with k2.
Qed.

Lemma key_compare_eq_sym (k1 k2 : list value) :
  key_compare k1 k2 = Eq -> key_compare k2 k1 = Eq.
Proof.
  revert k2. induction k1 as [| x k1 IH]; intros [| y k2];
    simpl; intros H1; try discriminate; try reflexivity.
  destruct (value_compare x y) eqn:E1; try discriminate.
  rewrite (value_compare_eq_sym x y E1). now apply IH.
Qed.

Lemma in_group_equivalent (k k' : list value) (d : Z) (r : record) :
  key_compare k k' = Eq -> in_group k' d r = in_group k d r.
Proof.
  intros H. unfold in_group.
  destruct (index_key r) as [k0 |]; [| reflexivity].
  destruct (distance_of r) as [d0 |]; [| reflexivity].
  destruct (key_compare k k0) eqn:E.
  - now rewrite (key_compare_eq_trans k' k k0 (key_compare_eq_sym _ _ H) E).
  - destruct (key_compare k' k0) eqn:E'; try reflexivity.
    now rewrite (key_compare_eq_trans k k' k0 H E') in E.
  - destruct (key_compare k' k0) eqn:E'; try reflexivity.
    now rewrite (key_compare_eq_trans k k' k0 H E') in E.
Qed.

Lemma first_non_null_all (v : string) (rs : list record) (x : value) :
  rs <> [] -> is_null x = false ->
  (forall r, In r rs -> dict_get v r = Some x) ->
  first_non_null v rs = x.
Proof.
  destruct rs as [| r rs]; [contradiction |]. intros _ Hx H. simpl.
  rewrite (H r (or_introl eq_refl)), Hx. reflexivity.
Qed.

(** X21. Looking up what was put in: for an input record with a complete
    index tuple, a distance [d] and a value [x] of [population_total]
    or [population_density] that is not null, when every record of the
    same POI and distance holds the same value, the pivot table has a
    row for the POI whose cell in column [<value>_<d>m] is [x] rounded
    to a whole number. *)
Theorem pivot_lookup (population_data : list record) (r : record)
        (k : list value) (d : Z) (v : string) (x : value) :
  In v value_columns ->
  In r population_data ->
  index_key r = Some k -> distance_of r = Some d ->
  dict_get v r = Some x -> is_null x = false ->
  (forall r', In r' population_data -> in_group k d r' = true ->
              dict_get v r' = Some x) ->
  exists row,
    In row (body (pivot population_data)) /\
    key_compare k (firstn 5 row) = Eq /\
    table_cell (pivot population_data) row (flat_name v d) = Some (round0 x).
Proof.
  intros Hv Hr Hk Hd Hx Hnn Hsame.
  assert (Hlive : live v r = true).
  { unfold live. now rewrite Hk, Hd, Hx, Hnn. }
  pose proof (live_somewhere_of_live v r Hv Hlive) as Hls.
  pose proof (pivot_column_intro population_data v d r Hv Hr Hlive Hd) as Hcol.
  pose proof (flat_name_not_index v d Hv) as Hni.
  unfold table_cell. unfold pivot in *. cbn [columns body] in *.
  set (cells := filter _ (list_prod value_columns _)) in *.
  set (ks := filter_some (map index_key (filter live_somewhere population_data))).
  assert (Hkin : In k ks).
  { apply filter_some_In. rewrite <- Hk. apply in_map. apply filter_In. auto. }
  destruct (sorted_unique_represents key_compare ks k key_compare_refl Hkin)
    as [k' [Hk' Hc]].
  assert (H5 : List.length k' = 5%nat).
  { apply sorted_unique_In in Hk'. apply filter_some_In in Hk'.
    apply in_map_iff in Hk'. destruct Hk' as [r0 [Hr0 _]].
    now apply index_key_length with r0. }
  eexists. split; [apply in_map; exact Hk' |]. split.
  { rewrite <- H5, firstn_app, Nat.sub_diag, firstn_all. simpl. now rewrite app_nil_r. }
  apply in_app_or in Hcol. destruct Hcol as [Hcol | Hcol]; [contradiction |].
  rewrite column_index_app by exact Hni.
  destruct (column_index_found _ _ Hcol) as [j Hj]. rewrite Hj. cbn [option_map].
  change (List.length index_columns) with 5%nat. rewrite <- H5.
  rewrite nth_error_app2 by lia.
  replace (List.length k' + j - List.length k')%nat with j by lia.
  apply column_index_nth_error in Hj. apply nth_error_map_inv in Hj.
  destruct Hj as [[v' d'] [Hcell Hname]]. cbn [fst snd] in Hname.
  assert (Hv' : In v' value_columns).
  { apply nth_error_In in Hcell. apply filter_In in Hcell. destruct Hcell as [Hcell _].
    apply in_prod_iff in Hcell. tauto. }
  destruct (flat_name_inj_pair _ _ _ _ Hv' Hv Hname) as [-> ->].
  rewrite (map_nth_error _ _ _ Hcell). cbn [fst snd]. f_equal. f_equal.
  rewrite (filter_ext _ _ (fun r0 => in_group_equivalent k k' d r0 Hc)).
  apply first_non_null_all.
  - assert (Hg : In r (filter (in_group k d) population_data)).
    { apply filter_In. split; [exact Hr |]. unfold in_group.
      now rewrite Hk, Hd, key_compare_refl, Z.eqb_refl. }
    intros E. now rewrite E in Hg.
  - exact Hnn.
  - intros r' Hr'. apply filter_In in Hr'. now apply Hsame.
Qed.

Lemma is_number_round0 (v : value) : is_number v = true -> is_number (round0 v) = true.
Proof. destruct v as [z | [| | q] | s | l]; simpl; auto. Qed.

Lemma first_non_null_number (v : string) (rs : list record) :
  (forall r x, In r rs -> dict_get v r = Some x -> is_number x = true) ->
  is_number (first_non_null v rs) = true.
Proof.
  induction rs as [| r rs IH]; simpl; intros H; [reflexivity |].
  destruct (dict_get v r) as [x |] eqn:E.
  - destruct (is_null x); [apply IH; eauto | apply (H r x); auto].
  - apply IH; eauto.
Qed.

Lemma mean_acc_numbers (vs : list value) (sum : pyfloat) (count : Z) :
  Forall (fun v => is_number v = true) vs ->
  exists m, mean_acc vs sum count = Some m.
Proof.
  intros H. revert sum count. induction H as [| v vs Hv _ IH]; intros sum count; simpl.
  - eauto.
  - destruct v as [z | [| | q] | s | l]; simpl in Hv; try discriminate; apply IH.
Qed.

Lemma column_mean_requires (population_data : list record) (d : Z) (m : pyfloat) :
  column_mean (pivot population_data) (flat_name "population_total" d) = Some m ->
  exists r, In r population_data /\ live "population_total" r = true /\
            distance_of r = Some d.
Proof.
  unfold column_mean. intros H.
  destruct (column_index _ _) as [i |] eqn:E; [| discriminate].
  apply column_index_In in E.
  assert (Hv : In "population_total"%string value_columns) by (simpl; auto).
  destruct (pivot_column_inv _ _ E) as [Hi | [v' [d' [r [Hv' [Hn [Hr [Hl Hd]]]]]]]].
  - now apply flat_name_not_index in Hi.
  - destruct (flat_name_inj_pair _ _ _ _ Hv Hv' Hn) as [<- <-]. eauto.
Qed.

Lemma column_mean_succeeds (population_data : list record) (d : Z) :
  (forall r x, In r population_data -> dict_get "population_total" r = Some x ->
               is_number x = true) ->
  (exists r, In r population_data /\ live "population_total" r = true /\
             distance_of r = Some d) ->
  exists m, column_mean (pivot population_data) (flat_name "population_total" d) = Some m.
Proof.
  intros Hnum [r [Hr [Hl Hd]]].
  assert (Hv : In "population_total"%string value_columns) by (simpl; auto).
  pose proof (pivot_column_intro population_data _ d r Hv Hr Hl Hd) as Hcol.
  pose proof (flat_name_not_index "population_total" d Hv) as Hni.
  unfold column_mean. unfold pivot in *. cbn [columns body] in *.
  set (cells := filter _ (list_prod value_columns _)) in *.
  apply in_app_or in Hcol. destruct Hcol as [Hcol | Hcol]; [contradiction |].
  rewrite column_index_app by exact Hni.
  destruct (column_index_found _ _ Hcol) as [j Hj]. rewrite Hj. cbn [option_map].
  apply mean_acc_numbers. apply Forall_forall. intros x Hx.
  apply in_map_iff in Hx. destruct Hx as [row [<- Hrow]].
  apply in_map_iff in Hrow. destruct Hrow as [k [<- Hk]].
  assert (H5 : List.length k = List.length index_columns).
  { apply sorted_unique_In in Hk. apply filter_some_In in Hk.
    apply in_map_iff in Hk. destruct Hk as [r' [Hr' _]].
    now apply index_key_length with r'. }
  rewrite <- H5, app_nth2_plus.
  apply column_index_nth_error in Hj. apply nth_error_map_inv in Hj.
  destruct Hj as [[v' d'] [Hcell Hname]]. cbn [fst snd] in Hname.
  assert (Hv' : In v' value_columns).
  { apply nth_error_In in Hcell. apply filter_In in Hcell. destruct Hcell as [Hcell _].
    apply in_prod_iff in Hcell. tauto. }
  destruct (flat_name_inj_pair _ _ _ _ Hv' Hv Hname) as [-> ->].
  erewrite nth_of_nth_error; [| apply map_nth_error; exact Hcell]. cbn [fst snd].
  apply is_number_round0. apply first_non_null_number.
  intros r0 x Hr0. apply filter_In in Hr0. apply Hnum. tauto.
Qed.

Lemma default_flat_names :
  flat_name "population_total" 100 = "population_total_100m"%string /\
  flat_name "population_total" 200 = "population_total_200m"%string /\
  flat_name "population_total" 500 = "population_total_500m"%string.
Proof. repeat split; reflexivity. Qed.

Lemma save_results_requires (population_data : list record) (out : Table * record) (d : Z) :
  save_results population_data = Some out -> In d default_distances ->
  exists r, In r population_data /\ live "population_total" r = true /\
            distance_of r = Some d.
Proof.
  unfold save_results. intros H Hd.
  destruct (column_mean _ "population_total_100m") as [m1 |] eqn:E1; [| discriminate].
  destruct (column_mean _ "population_total_200m") as [m2 |] eqn:E2; [| discriminate].
  destruct (column_mean _ "population_total_500m") as [m5 |] eqn:E5; [| discriminate].
  destruct default_flat_names as [N1 [N2 N5]].
  rewrite <- N1 in E1. rewrite <- N2 in E2. rewrite <- N5 in E5.
  simpl in Hd. destruct Hd as [<- | [<- | [<- | []]]];
    eapply column_mean_requires; eassumption.
Qed.

Lemma save_results_succeeds (population_data : list record) :
  (forall r x, In r population_data -> dict_get "population_total" r = Some x ->
               is_number x = true) ->
  (forall d, In d default_distances ->
             exists r, In r population_data /\ live "population_total" r = true /\
                       distance_of r = Some d) ->
  exists out, save_results population_data = Some out.
Proof.
  intros Hnum Hall. unfold save_results.
  destruct default_flat_names as [N1 [N2 N5]].
  destruct (column_mean_succeeds population_data 100 Hnum) as [m1 E1];
    [apply Hall; simpl; auto |].
  destruct (column_mean_succeeds population_data 200 Hnum) as [m2 E2];
    [apply Hall; simpl; auto |].
  destruct (column_mean_succeeds population_data 500 Hnum) as [m5 E5];
    [apply Hall; simpl; auto |].
  rewrite N1 in E1. rewrite N2 in E2. rewrite N5 in E5.
  rewrite E1, E2, E5. eauto.
Qed.

(** X22. [save_results] reads the columns of 100 m, 200 m and 500 m
    whatever distances the records were made for. If it returns, then
    for each of the three distances some input record with a complete
    index tuple has that distance and a [population_total] that is not
    null; otherwise it raises [KeyError]. Conversely, when every
    [population_total] is a number and each of the three distances has
    such a record, it returns. *)
Theorem save_results_needs_default_distances (population_data : list record) :
  (forall out d,
      save_results population_data = Some out -> In d default_distances ->
      exists r, In r population_data /\ live "population_total" r = true /\
                distance_of r = Some d) /\
  ((forall r x, In r population_data -> dict_get "population_total" r = Some x ->
                is_number x = true) ->
   (forall d, In d default_distances ->
              exists r, In r population_data /\ live "population_total" r = true /\
                        distance_of r = Some d) ->
   exists out, save_results population_data = Some out).
Proof.
  split.
  - intros out d. apply save_results_requires.
  - apply save_results_succeeds.
Qed.

End Table.

Section FallbackSaved.
Context {L : GeoLib}.
Import Script11.

Lemma estimate_poi_eq (ds : list Z) (poi : Row) :
  estimate_poi ds poi =
  match geometry poi with
  | None => None
  | Some g =>
      match lat_lon g with
      | None => None
      | Some (lat, lon) =>
          Some (estimate_distances (base_result_of poi lat lon) lat lon ds)
      end
  end.
Proof.
  unfold estimate_poi, base_result_of. destruct (geometry poi) as [g |]; [| reflexivity].
  destruct (lat_lon g) as [[lat lon] |]; reflexivity.
Qed.

Lemma estimate_distances_In (base : record) (lat lon : Q) (ds : list Z)
      (draws : nat -> Q) (n : nat) (r : record) :
  In r (fst (estimate_distances base lat lon ds draws n)) ->
  exists d k, In d ds /\ r = fst (estimate_record base lat lon d draws k).
Proof.
  revert n. induction ds as [| d ds IH]; intros n H.
  - destruct H.
  - cbn [estimate_distances] in H. unfold bind at 1 in H.
    destruct (estimate_record base lat lon d draws n) as [r0 n1] eqn:E0.
    unfold bind at 1 in H.
    destruct (estimate_distances base lat lon ds draws n1) as [rs n2] eqn:E1.
    unfold ret in H. cbn [fst] in H. destruct H as [<- | H].
    + exists d, n. rewrite E0. split; [now left | reflexivity].
    + destruct (IH n1) as [d' [k [Hd' Hr]]]; [rewrite E1; exact H |].
      exists d', k. split; [now right | exact Hr].
Qed.

Lemma estimate_distances_has (base : record) (lat lon : Q) (ds : list Z)
      (draws : nat -> Q) (n : nat) (d : Z) :
  In d ds ->
  exists k, In (fst (estimate_record base lat lon d draws k))
               (fst (estimate_distances base lat lon ds draws n)).
Proof.
  revert n. induction ds as [| d0 ds IH]; intros n H; [destruct H |].
  cbn [estimate_distances]. unfold bind at 1.
  destruct (estimate_record base lat lon d0 draws n) as [r0 n1] eqn:E0.
  unfold bind at 1.
  destruct (estimate_distances base lat lon ds draws n1) as [rs n2] eqn:E1.
  unfold ret. cbn [fst]. destruct H as [-> | H].
  - exists n. rewrite E0. now left.
  - destruct (IH n1 H) as [k Hk]. exists k. rewrite E1 in Hk. now right.
Qed.

Lemma estimate_pois_In (ds : list Z) (ps : list Row) (m : Rand (list record))
      (draws : nat -> Q) (n : nat) (r : record) :
  estimate_pois ds ps = Some m -> In r (fst (m draws n)) ->
  exists poi lat lon d k,
    In poi ps /\ In d ds /\
    r = fst (estimate_record (base_result_of poi lat lon) lat lon d draws k).
Proof.
  revert m n. induction ps as [| p ps IH]; intros m n Hm Hr.
  - simpl in Hm. injection Hm as <-. destruct Hr.
  - cbn [estimate_pois] in Hm. rewrite estimate_poi_eq in Hm.
    destruct (geometry p) as [g |] eqn:Eg; [| discriminate].
    destruct (lat_lon g) as [[lat lon] |] eqn:El; [| discriminate].
    destruct (estimate_pois ds ps) as [ms |] eqn:Ems; [| discriminate].
    injection Hm as <-. unfold bind, ret in Hr.
    destruct (estimate_distances _ _ _ ds draws n) as [rs n1] eqn:E1.
    destruct (ms draws n1) as [rss n2] eqn:E2. cbn [fst] in Hr.
    apply in_app_or in Hr. destruct Hr as [Hr | Hr].
    + destruct (estimate_distances_In (base_result_of p lat lon) lat lon
                  ds draws n r) as [d [k [Hd Heq]]];
        [rewrite E1; exact Hr |].
      exists p, lat, lon, d, k. split; [now left |]. auto.
    + destruct (IH ms n1 eq_refl) as [poi [lat' [lon' [d [k [Hp [Hd Heq]]]]]]];
        [rewrite E2; exact Hr |].
      exists poi, lat', lon', d, k. split; [now right |]. auto.
Qed.

Lemma estimate_pois_has (ds : list Z) (ps : list Row) (m : Rand (list record))
      (draws : nat -> Q) (n : nat) (poi : Row) (g : Geometry) (lat lon : Q) (d : Z) :
  estimate_pois ds ps = Some m -> In poi ps ->
  geometry poi = Some g -> lat_lon g = Some (lat, lon) -> In d ds ->
  exists k,
    In (fst (estimate_record (base_result_of poi lat lon) lat lon d draws k))
       (fst (m draws n)).
Proof.
  revert m n. induction ps as [| p ps IH]; intros m n Hm Hp Hg Hl Hd; [destruct Hp |].
  cbn [estimate_pois] in Hm. rewrite estimate_poi_eq in Hm.
  destruct (geometry p) as [g0 |] eqn:Eg; [| discriminate].
  destruct (lat_lon g0) as [[lat0 lon0] |] eqn:El; [| discriminate].
  destruct (estimate_pois ds ps) as [ms |] eqn:Ems; [| discriminate].
  injection Hm as <-. unfold bind, ret.
  destruct (estimate_distances _ _ _ ds draws n) as [rs n1] eqn:E1.
  destruct (ms draws n1) as [rss n2] eqn:E2. cbn [fst].
  destruct Hp as [-> | Hp].
  - assert (g0 = g) by congruence. subst g0.
    assert (Hll : (lat0, lon0) = (lat, lon)) by congruence.
    injection Hll as -> ->.
    destruct (estimate_distances_has (base_result_of poi lat lon) lat lon
                ds draws n d Hd) as [k Hk].
    exists k. rewrite E1 in Hk. apply in_or_app. now left.
  - destruct (IH ms n1 eq_refl Hp Hg Hl Hd) as [k Hk]. exists k.
    rewrite E2 in Hk. apply in_or_app. now right.
Qed.

Lemma estimate_record_fields (poi : Row) (lat lon : Q) (d : Z)
      (draws : nat -> Q) (k : nat) :
  let r := fst (estimate_record (base_result_of poi lat lon) lat lon d draws k) in
  distance_of r = Some d /\
  (exists p, dict_get "population_total" r = Some (VInt p)) /\
  (named poi = true -> live "population_total" r = true).
Proof.
  cbv zeta. unfold estimate_record, estimate_population_simple, bind, ret, np_random.
  cbv beta iota zeta. cbn [fst].
  set (p := py_int (estimated_population (draws k) d)).
  set (density := if 0 <? p then _ else _).
  assert (Hd : forall base,
             distance_of (dict_set "estimation_method" (VStr "api_fallback")
                (dict_set "population_density" density
                   (dict_set "population_total" (VInt p)
                      (dict_set "buffer_distance" (VInt d) base)))) = Some d).
  { intros base. unfold distance_of.
    rewrite !dict_get_set_other by discriminate. now rewrite dict_get_set_same. }
  assert (Ht : forall base,
             dict_get "population_total"
               (dict_set "estimation_method" (VStr "api_fallback")
                  (dict_set "population_density" density
                     (dict_set "population_total" (VInt p)
                        (dict_set "buffer_distance" (VInt d) base)))) = Some (VInt p)).
  { intros base. rewrite !dict_get_set_other by discriminate. apply dict_get_set_same. }
  split; [apply Hd |]. split; [exists p; apply Ht |].
  intros Hn. unfold live. rewrite Hd, Ht. unfold index_key.
  cbn [map index_columns]. rewrite !dict_get_set_other by discriminate.
  unfold named in Hn. apply andb_prop in Hn. destruct Hn as [Hn1 Hn2].
  apply negb_true_iff in Hn1, Hn2.
  unfold base_result_of. cbn [dict_get String.eqb Ascii.eqb Bool.eqb].
  cbn [is_null]. rewrite Hn1, Hn2. reflexivity.
Qed.

(** X23. The fallback branch of [main], for distances of at most
    [max_radius] metres and a POI table in which every feature has a
    geometry that is not empty and at least one has a name and a
    category that are not null: the estimates are produced, and saving
    them succeeds exactly when 100, 200 and 500 are all among the
    buffer distances, whatever the random draws are. With other
    distances [save_results] raises. *)
Theorem fallback_saved_iff_default_distances
        (pois : GeoDataFrame) (buffer_distances : list Z) :
  (forall poi, In poi (rows pois) -> located poi) ->
  (exists poi, In poi (rows pois) /\ named poi = true) ->
  Forall (fun d => Z.abs d <= max_radius) buffer_distances ->
  exists m,
    create_population_estimates_api pois buffer_distances = Some m /\
    forall draws n,
      (exists out, save_results (fst (m draws n)) = Some out) <->
      incl default_distances buffer_distances.
Proof.
  intros Hgeo [good [Hgood Hnamed]] _. unfold create_population_estimates_api.
  destruct (estimate_pois buffer_distances (rows pois)) as [m |] eqn:Em.
  - exists m. split; [reflexivity |]. intros draws n. split.
    + intros [out Hout] d Hd.
      destruct (save_results_requires _ out d Hout Hd) as [r [Hr [_ Hdist]]].
      destruct (estimate_pois_In _ _ _ _ _ _ Em Hr)
        as [poi [lat [lon [d' [k [_ [Hd' Heq]]]]]]].
      destruct (estimate_record_fields poi lat lon d' draws k) as [Hdist' _].
      rewrite <- Heq in Hdist'. congruence.
    + intros Hincl. apply save_results_succeeds.
      * intros r x Hr Hx.
        destruct (estimate_pois_In _ _ _ _ _ _ Em Hr)
          as [poi [lat [lon [d' [k [_ [_ Heq]]]]]]].
        destruct (estimate_record_fields poi lat lon d' draws k) as [_ [[p Hp] _]].
        rewrite <- Heq in Hp. rewrite Hp in Hx. injection Hx as <-. reflexivity.
      * intros d Hd. specialize (Hincl d Hd).
        destruct (Hgeo good Hgood) as [g [Eg Hl]].
        destruct (lat_lon g) as [[lat lon] |] eqn:El; [| contradiction].
        destruct (estimate_pois_has _ _ _ draws n good g lat lon d Em Hgood Eg El Hincl)
          as [k Hk].
        destruct (estimate_record_fields good lat lon d draws k) as [Hdist [_ Hlive]].
        eexists. split; [exact Hk |]. split; [now apply Hlive | exact Hdist].
  - exfalso. apply estimate_pois_None in Em.
    destruct Em as [poi [Hin Hbad]].
    destruct (Hgeo poi Hin) as [g [Hg Hl]].
    destruct Hbad as [Hnone | [g' [Hg' Hl']]]; congruence.
Qed.

End FallbackSaved.

(** ** The further theorems at concrete inputs *)

Section MoreWitnesses.
Import Script09 Script11 BoxLib Samples MoreSamples.



Lemma poi_record_columns_witness :
  exists rec,
    poi_record (H := lib) single_dataset cafe = Some rec /\
    dict_get "poi_id" rec = Some (VInt 0) /\
    (exists f, dict_get (at_location_key "pop") rec = Some (VFloat f)) /\
    (exists f, dict_get (in_buffer_key "pop") rec = Some (VFloat f)).
Proof.
  eexists. split; [reflexivity |].
  destruct (poi_record_columns (L := lib) single_dataset cafe _ eq_refl)
    as [Hid [_ [_ [_ Hcols]]]].
  split; [exact Hid |].
  apply (Hcols "pop"%string info_single). now left.
Defined.

Lemma poi_record_column_order_witness :
  NoDup (keys single_dataset) /\
  exists rec,
    poi_record (H := lib) single_dataset cafe = Some rec /\
    keys rec = ["poi_id"; "poi_name"; "poi_category"; "latitude"; "longitude";
                "pop_at_location"; "pop_in_buffer"]%string.
Proof.
  assert (Hnd : NoDup (keys single_dataset)).
  { constructor; [intros [] | constructor]. }
  split; [exact Hnd |]. eexists. split; [reflexivity |].
  exact (poi_record_column_order (L := lib) single_dataset cafe _ Hnd eq_refl).
Defined.

Lemma analysis_one_record_per_poi_witness :
  single_dataset <> [] /\
  create_poi_population_analysis (H := lib) (frame [cafe; hollow]) single_dataset
  = None /\
  exists rs,
    create_poi_population_analysis (H := lib) (frame [cafe]) single_dataset
    = Some (Some rs) /\
    map (dict_get "poi_id") rs = [Some (VInt 0)].
Proof.
  assert (Hne : single_dataset <> []) by discriminate.
  split; [exact Hne |]. split.
  - apply (proj1 (analysis_one_record_per_poi (L := lib) (frame [cafe; hollow])
                    single_dataset Hne)).
    exists hollow. split; [right; left; reflexivity |].
    right. exists (Polygon []). split; reflexivity.
  - destruct (proj2 (analysis_one_record_per_poi (L := lib) (frame [cafe])
                       single_dataset Hne) _ eq_refl) as [rs [Hrs Hids]].
    exists rs. split; [rewrite <- Hrs; reflexivity | exact Hids].
Defined.

Lemma edge_margin_reads_first_cell_witness :
  pixel_coordinates info_doubles (fst margin_point) (snd margin_point)
  = Some margin_index /\
  (-(1) < fst margin_index < 0)%Q /\
  (-(1) < snd margin_index < 0)%Q /\
  pixel_index info_doubles (fst margin_point) (snd margin_point) = Some (0, 0) /\
  pixel_index info_doubles (fst first_cell_point) (snd first_cell_point)
  = Some (0, 0) /\
  extract_dataset (fst margin_point) (snd margin_point) []
                  ("pop"%string, info_doubles) =
  [("pop_at_location", VFloat (Fin 5)); ("pop_in_buffer", VFloat (Fin 5))]%string.
Proof.
  assert (Hc : pixel_coordinates info_doubles (fst margin_point) (snd margin_point)
               = Some (fst margin_index, snd margin_index))
    by (vm_compute; reflexivity).
  assert (Hcf : (-(1) < fst margin_index < 1)%Q) by (split; reflexivity).
  assert (Hrf : (-(1) < snd margin_index < 1)%Q) by (split; reflexivity).
  assert (Hf : pixel_index info_doubles (fst first_cell_point) (snd first_cell_point)
               = Some (0, 0)) by (vm_compute; reflexivity).
  destruct (edge_margin_reads_first_cell info_doubles
              (fst margin_point) (snd margin_point)
              (fst margin_index) (snd margin_index) Hc Hcf Hrf) as [Hp Hsame].
  split; [exact Hc |]. split; [split; reflexivity |]. split; [split; reflexivity |].
  split; [exact Hp |]. split; [exact Hf |].
  rewrite (Hsame _ _ Hf "pop"%string []). vm_compute. reflexivity.
Defined.

(** One cell further left the zeros of a point outside the raster are
    stored: for the point (77.59916666666666, 12.9495) line 259
    computes the column -1.0. *)
Lemma one_cell_left_reads_zero :
  pixel_coordinates info_doubles (fst left_point) (snd left_point) =
  Some ((-1)%Q, 82463372083 # 137438953472) /\
  pixel_index info_doubles (fst left_point) (snd left_point) = Some (-1, 0) /\
  extract_dataset (fst left_point) (snd left_point) []
                  ("pop"%string, info_doubles) =
  [("pop_at_location", VFloat (Fin 0)); ("pop_in_buffer", VFloat (Fin 0))]%string.
Proof. vm_compute. repeat split. Qed.

Lemma at_location_reading_witness :
  pixel_index info_single (fst (centre 1 1)) (snd (centre 1 1)) = Some (1, 1) /\
  dict_get (at_location_key "pop")
           (extract_dataset (fst (centre 1 1)) (snd (centre 1 1)) []
                            ("pop"%string, info_single)) =
  Some (VFloat (Fin 100)).
Proof.
  assert (Hp : pixel_index info_single (fst (centre 1 1)) (snd (centre 1 1))
               = Some (1, 1)) by reflexivity.
  split; [exact Hp |].
  exact (proj1 (at_location_reading info_single "pop"%string
                  (fst (centre 1 1)) (snd (centre 1 1)) [] 1 1 (Scalar (Fin 100))
                  Hp eq_refl eq_refl)).
Defined.

Lemma in_buffer_at_least_at_location_witness :
  pixel_index info_single (fst (centre 1 1)) (snd (centre 1 1)) = Some (1, 1) /\
  getitem (data info_single) 1 1 = Some (Scalar (Fin 100)) /\
  exists q,
    dict_get (in_buffer_key "pop")
             (extract_dataset (fst (centre 1 1)) (snd (centre 1 1)) []
                              ("pop"%string, info_single)) =
    Some (VFloat (Fin q)) /\
    (100 <= q)%Q.
Proof.
  assert (Hp : pixel_index info_single (fst (centre 1 1)) (snd (centre 1 1))
               = Some (1, 1)) by reflexivity.
  assert (Hnn : forall c, In c (List.concat (data info_single)) -> valid c = true ->
                          exists q, raw c = Fin q /\ (0 <= q)%Q).
  { intros c Hc Hv. simpl in Hc.
    repeat (destruct Hc as [<- | Hc]; [try discriminate Hv |]); [| destruct Hc].
    exists 100%Q. split; [reflexivity | discriminate]. }
  split; [exact Hp |]. split; [reflexivity |].
  destruct (in_buffer_at_least_at_location info_single "pop"%string
              (fst (centre 1 1)) (snd (centre 1 1)) [] 1 1 100%Q
              Hnn Hp eq_refl eq_refl eq_refl) as [q [_ [Hb Hle]]].
  exists q. split; [exact Hb | exact Hle].
Defined.

Lemma buffer_zones_keep_features_witness :
  exists zones layer,
    create_buffer_zones (H := lib) corner_pois [100; 200] = Some zones /\
    dict_get (buffer_name 200) zones = Some layer /\
    poi_ids layer = range 1.
Proof.
  eexists. eexists. split; [reflexivity |]. split; [reflexivity |].
  destruct (buffer_zones_keep_features (L := lib) corner_pois [100; 200] _
              (buffer_name 200) _ eq_refl eq_refl)
    as [d [source [_ [_ [_ [_ [_ Hids]]]]]]].
  exact Hids.
Defined.

Lemma raster_pipeline_one_record_per_pair_witness :
  crs corner_pois = Some 4326 /\
  exists zones,
    create_buffer_zones (H := lib) corner_pois [100; 200; 100] = Some zones /\
    extract_population_from_raster (H := lib) (Some raster2) zones <> None /\
    option_map (map id_and_distance)
               (extract_population_from_raster (H := lib) (Some raster2) zones) =
    Some [(Some (VInt 0), Some (VInt 100)); (Some (VInt 0), Some (VInt 200))].
Proof.
  assert (Hcrs : crs corner_pois = Some 4326) by reflexivity.
  split; [exact Hcrs |].
  destruct (raster_pipeline_one_record_per_pair (L := lib) corner_pois
              [100; 200; 100] raster2 4326 Hcrs) as [zones [Hz [Hnone Hres]]].
  exists zones. split; [exact Hz |].
  assert (Hok : extract_population_from_raster (H := lib) (Some raster2) zones
                <> None).
  { intros Hn. apply Hnone in Hn.
    destruct Hn as [d [poi [g [Hd [Hpoi [Hg Hc]]]]]].
    destruct Hpoi as [<- | []]. injection Hg as <-.
    destruct Hd as [<- | [<- | [<- | []]]]; discriminate Hc. }
  split; [exact Hok |].
  destruct (extract_population_from_raster (H := lib) (Some raster2) zones)
    as [results |]; [| contradiction].
  cbn [option_map]. now rewrite (Hres results eq_refl).
Defined.

Lemma masked_window_record_witness :
  rasterio_mask (H := lib) raster2 corner_buffer = Some masked_window /\
  forallb msk (List.concat masked_window) = true /\
  existsb not_nan (List.concat masked_window) = true /\
  exists rec,
    process_buffer (H := lib) raster2 corner_row = Some rec /\
    dict_get "population_total" rec = Some (VFloat NaN) /\
    dict_get "population_density" rec = Some (VInt 0).
Proof.
  assert (Hm : rasterio_mask (H := lib) raster2 corner_buffer = Some masked_window)
    by reflexivity.
  split; [exact Hm |]. split; [reflexivity |]. split; [reflexivity |].
  destruct (masked_window_record (L := lib) raster2 corner_row corner_buffer
              masked_window (VInt 100) eq_refl Hm eq_refl eq_refl eq_refl)
    as [rec [Hp [Ht [Hd _]]]].
  exists rec. split; [exact Hp |]. split; [exact Ht | exact Hd].
Defined.

Lemma fallback_density_bound_witness :
  (0 <= draws_half O < 1)%Q /\
  Z.abs 100 <= max_radius /\
  exists p,
    dict_get "population_total"
             (fst (estimate_record [] 0 0 100 draws_half O)) = Some (VInt p) /\
    0 <= p.
Proof.
  assert (Hu : (0 <= draws_half O < 1)%Q) by (split; [discriminate | reflexivity]).
  assert (Hr : Z.abs 100 <= max_radius) by (vm_compute; discriminate).
  split; [exact Hu |]. split; [exact Hr |].
  destruct (fallback_density_bound [] 0%Q 0%Q 100 draws_half O Hu Hr)
    as [p [Hp [H0 _]]].
  exists p. split; [exact Hp | exact H0].
Defined.

Lemma fallback_monotone_for_separated_radii_witness :
  (0 <= draws_half 0%nat < 1)%Q /\ (0 <= draws_half 1%nat < 1)%Q /\
  3 * (100 * 100) <= 2 * (200 * 200) /\
  Z.abs 200 <= max_radius /\
  fst (estimate_population_simple 0 0 100 draws_half 0%nat) <=
  fst (estimate_population_simple 0 0 200 draws_half 1%nat).
Proof.
  assert (Hn : (0 <= draws_half 0%nat < 1)%Q) by (split; [discriminate | reflexivity]).
  assert (Hm : (0 <= draws_half 1%nat < 1)%Q) by (split; [discriminate | reflexivity]).
  assert (Hr : 3 * (100 * 100) <= 2 * (200 * 200)) by discriminate.
  assert (Hmax : Z.abs 200 <= max_radius) by (vm_compute; discriminate).
  split; [exact Hn |]. split; [exact Hm |]. split; [exact Hr |].
  split; [exact Hmax |].
  exact (fallback_monotone_for_separated_radii 0%Q 0%Q 0%Q 0%Q 100 200
           draws_half 0%nat 1%nat Hn Hm Hr Hmax).
Defined.

Lemma pivot_rows_from_records_witness :
  exists row,
    In row (body (pivot (fallback_records draws_half))) /\
    List.length row = List.length (columns (pivot (fallback_records draws_half))).
Proof.
  assert (Hin : In (hd [] (body (pivot (fallback_records draws_half))))
                   (body (pivot (fallback_records draws_half))))
    by (vm_compute; left; reflexivity).
  eexists. split; [exact Hin |].
  exact (proj1 (pivot_rows_from_records (fallback_records draws_half) _ Hin)).
Defined.

Lemma pivot_keeps_every_live_record_witness :
  exists r k,
    In r (fallback_records draws_half) /\ live_somewhere r = true /\
    index_key r = Some k /\
    exists row, In row (body (pivot (fallback_records draws_half))) /\
                key_compare k (firstn 5 row) = Eq.
Proof.
  assert (Hin : In (hd [] (fallback_records draws_half)) (fallback_records draws_half))
    by (vm_compute; left; reflexivity).
  eexists. eexists. split; [exact Hin |]. split; [vm_compute; reflexivity |].
  split; [vm_compute; reflexivity |].
  apply (pivot_keeps_every_live_record (fallback_records draws_half)
           (hd [] (fallback_records draws_half)));
    [exact Hin | vm_compute; reflexivity | vm_compute; reflexivity].
Defined.

Lemma pivot_lookup_witness :
  exists r k row,
    In r (fallback_records draws_half) /\
    index_key r = Some k /\ distance_of r = Some 100 /\
    dict_get "population_total" r = Some (VInt 188) /\
    In row (body (pivot (fallback_records draws_half))) /\
    table_cell (pivot (fallback_records draws_half)) row "population_total_100m" =
    Some (VInt 188).
Proof.
  assert (Hin : In (hd [] (fallback_records draws_half)) (fallback_records draws_half))
    by (vm_compute; left; reflexivity).
  assert (Hsame : forall r',
             In r' (fallback_records draws_half) ->
             in_group [VInt 0; VStr "cafe"; VStr "food_beverage";
                       VFloat (Fin 1000); VFloat (Fin 1000)] 100 r' = true ->
             dict_get "population_total" r' = Some (VInt 188)).
  { intros r' Hr'. vm_compute in Hr'.
    repeat (destruct Hr' as [<- | Hr']; [vm_compute; intros H; congruence |]).
    destruct Hr'. }
  destruct (pivot_lookup (fallback_records draws_half)
              (hd [] (fallback_records draws_half))
              [VInt 0; VStr "cafe"; VStr "food_beverage";
               VFloat (Fin 1000); VFloat (Fin 1000)]
              100 "population_total" (VInt 188))
    as [row [Hrow [_ Hcell]]];
    [simpl; auto | exact Hin | reflexivity | reflexivity | reflexivity | reflexivity
     | exact Hsame |].
  eexists. eexists. exists row.
  split; [exact Hin |]. split; [reflexivity |]. split; [reflexivity |].
  split; [reflexivity |]. split; [exact Hrow | exact Hcell].
Defined.

Lemma fallback_saved_iff_default_distances_witness :
  (forall poi, In poi (rows two_pois) -> located (L := lib) poi) /\
  (exists poi, In poi (rows two_pois) /\ named poi = true) /\
  Forall (fun d => Z.abs d <= max_radius) [100; 200] /\
  exists m,
    create_population_estimates_api (H := lib) two_pois [100; 200] = Some m /\
    forall draws n,
      (exists out, save_results (fst (m draws n)) = Some out) <->
      incl default_distances [100; 200].
Proof.
  assert (Hgeo : forall poi, In poi (rows two_pois) -> located (L := lib) poi).
  { intros poi [<- | [<- | []]]; eexists; (split; [reflexivity | discriminate]). }
  assert (Hnamed : exists poi, In poi (rows two_pois) /\ named poi = true).
  { eexists. split; [left; reflexivity | reflexivity]. }
  assert (Hmax : Forall (fun d => Z.abs d <= max_radius) [100; 200]).
  { repeat constructor; vm_compute; discriminate. }
  split; [exact Hgeo |]. split; [exact Hnamed |]. split; [exact Hmax |].
  exact (fallback_saved_iff_default_distances (L := lib) two_pois [100; 200]
           Hgeo Hnamed Hmax).
Defined.

Lemma fallback_one_record_per_pair_witness :
  Forall (fun d => Z.abs d <= max_radius) [100; 200; 100] /\
  create_population_estimates_api (H := lib) (frame [cafe; hollow]) [100; 200; 100]
  = None /\
  exists m,
    create_population_estimates_api (H := lib) two_pois [100; 200; 100] = Some m /\
    map id_and_distance (fst (m draws_half O)) =
    [(Some (VInt 0), Some (VInt 100)); (Some (VInt 0), Some (VInt 200));
     (Some (VInt 0), Some (VInt 100)); (Some (VInt 1), Some (VInt 100));
     (Some (VInt 1), Some (VInt 200)); (Some (VInt 1), Some (VInt 100))] /\
    snd (m draws_half O) = 6%nat.
Proof.
  assert (Hmax : Forall (fun d => Z.abs d <= max_radius) [100; 200; 100]).
  { repeat constructor; vm_compute; discriminate. }
  split; [exact Hmax |]. split.
  - apply (proj1 (fallback_one_record_per_pair (L := lib) (frame [cafe; hollow])
                    [100; 200; 100] Hmax)).
    exists hollow. split; [right; left; reflexivity |].
    right. exists (Polygon []). split; reflexivity.
  - eexists. split; [reflexivity |].
    exact (proj2 (fallback_one_record_per_pair (L := lib) two_pois
                    [100; 200; 100] Hmax) _ draws_half O eq_refl).
Defined.

End MoreWitnesses.
